(** * VoiceAssistant: the voice-query session of the health assistant

    A shallow embedding of the [VoiceAssistant] React component: its
    [useState] cells, its two refs, its three [useEffect] hooks and its
    event handlers, together with the part of the browser the component
    talks to (speech recognition instances, timers, the permission
    prompt, [fetch], speech synthesis, toasts).

    A session is a record of the state cells, the refs and the browser
    side.  One turn of the event loop is [step]: the handler of the
    event, then the render and the effects whose dependencies changed
    (React 18: the updates of one handler are batched, also outside
    React's own event handlers).  An [async] function is cut at its
    [await]: the part before it runs in the turn of the call, the part
    after it in the turn in which the promise settles, with the values
    the function closed over.

    Strings are byte strings holding the UTF-8 encoding of the
    JavaScript string. *)

From Stdlib Require Import String Ascii List NArith Bool Lia.
From Stdlib Require Import Floats.SpecFloat.
From stdpp Require Import base list.

Arguments String.eqb : simpl never.

Local Open Scope string_scope.

(** ** JavaScript string primitives used by the component *)

Module Js.

(** [String.prototype.toLowerCase], as far as the ASCII letters of
    its result go.  An ASCII capital becomes its small letter.  Two
    letters outside ASCII have an ASCII letter in their lower case and
    are mapped as the language maps them: U+0130, capital I with a dot
    above, becomes [i] followed by U+0307, and U+212A, the Kelvin
    sign, becomes [k].  The other letters outside ASCII are left as
    they are; every keyword the component looks for is ASCII. *)
Definition lower_ascii (c : ascii) : ascii :=
  let n := N_of_ascii c in
  if ((65 <=? n) && (n <=? 90))%N then ascii_of_N (n + 32) else c.

(** U+0130 in UTF-8: C4 B0. *)
Definition capitalDottedI (a b : ascii) : bool :=
  ((N_of_ascii a =? 196) && (N_of_ascii b =? 176))%N.

(** U+212A in UTF-8: E2 84 AA. *)
Definition kelvinSign (a b c : ascii) : bool :=
  ((N_of_ascii a =? 226) && (N_of_ascii b =? 132) && (N_of_ascii c =? 170))%N.

(** U+0307 in UTF-8 is CC 87. *)
Fixpoint toLowerCase (s : string) : string :=
  match s with
  | EmptyString => EmptyString
  | String a r1 =>
      match r1 with
      | EmptyString => String (lower_ascii a) EmptyString
      | String b r2 =>
          if capitalDottedI a b
          then String "i" (String (ascii_of_N 204) (String (ascii_of_N 135) (toLowerCase r2)))
          else
            match r2 with
            | EmptyString => String (lower_ascii a) (toLowerCase r1)
            | String c r3 =>
                if kelvinSign a b c
                then String "k" (toLowerCase r3)
                else String (lower_ascii a) (toLowerCase r1)
            end
      end
  end.

(** [String.prototype.includes]. *)
Fixpoint includes (s sub : string) : bool :=
  String.prefix sub s ||
  match s with
  | EmptyString => false
  | String _ r => includes r sub
  end.

(** [Array.prototype.join] on an array of strings. *)
Definition join (l : list string) (sep : string) : string :=
  String.concat sep l.

(** Truthiness of a string: only the empty string is falsy. *)
Definition truthy (s : string) : bool :=
  match s with
  | EmptyString => false
  | String _ _ => true
  end.

(** The double quote character, written inside template literals. *)
Definition dquote : string := String (ascii_of_nat 34) EmptyString.

(** *** White space, for [String.prototype.trim]

    ECMAScript's WhiteSpace and LineTerminator code points, by the
    length of their UTF-8 encoding. *)

(** U+0009 .. U+000D and U+0020. *)
Definition ws1 (a : ascii) : bool :=
  let n := N_of_ascii a in
  (((9 <=? n) && (n <=? 13)) || (n =? 32))%N.

(** U+00A0 (C2 A0). *)
Definition ws2 (a b : ascii) : bool :=
  ((N_of_ascii a =? 194) && (N_of_ascii b =? 160))%N.

(** U+1680 (E1 9A 80), U+2000 .. U+200A (E2 80 80 .. 8A),
    U+2028, U+2029, U+202F (E2 80 A8, A9, AF), U+205F (E2 81 9F),
    U+3000 (E3 80 80), U+FEFF (EF BB BF). *)
Definition ws3 (a b c : ascii) : bool :=
  let x := N_of_ascii a in
  let y := N_of_ascii b in
  let z := N_of_ascii c in
  (((x =? 225) && (y =? 154) && (z =? 128))
   || ((x =? 226) && (y =? 128)
       && (((128 <=? z) && (z <=? 138)) || (z =? 168) || (z =? 169) || (z =? 175)))
   || ((x =? 226) && (y =? 129) && (z =? 159))
   || ((x =? 227) && (y =? 128) && (z =? 128))
   || ((x =? 239) && (y =? 187) && (z =? 191)))%N.

(** Drop the white space at the head of a byte sequence. *)
Fixpoint dropWhiteSpace (l : list ascii) : list ascii :=
  match l with
  | [] => []
  | a :: r1 =>
      if ws1 a then dropWhiteSpace r1
      else match r1 with
           | [] => l
           | b :: r2 =>
               if ws2 a b then dropWhiteSpace r2
               else match r2 with
                    | [] => l
                    | c :: r3 => if ws3 a b c then dropWhiteSpace r3 else l
                    end
           end
  end.

(** The same on a reversed byte sequence: the encodings are read
    backwards. *)
Fixpoint dropWhiteSpaceRev (l : list ascii) : list ascii :=
  match l with
  | [] => []
  | a :: r1 =>
      if ws1 a then dropWhiteSpaceRev r1
      else match r1 with
           | [] => l
           | b :: r2 =>
               if ws2 b a then dropWhiteSpaceRev r2
               else match r2 with
                    | [] => l
                    | c :: r3 => if ws3 c b a then dropWhiteSpaceRev r3 else l
                    end
           end
  end.

Definition trim (s : string) : string :=
  string_of_list_ascii
    (rev (dropWhiteSpaceRev (rev (dropWhiteSpace (list_ascii_of_string s))))).

(** A string that is empty or made of white space only. *)
Inductive whitespace_only : list ascii -> Prop :=
| wo_nil : whitespace_only []
| wo_one a r : ws1 a = true -> whitespace_only r -> whitespace_only (a :: r)
| wo_two a b r : ws2 a b = true -> whitespace_only r -> whitespace_only (a :: b :: r)
| wo_three a b c r :
    ws3 a b c = true -> whitespace_only r -> whitespace_only (a :: b :: c :: r).

Definition blank (s : string) : Prop := whitespace_only (list_ascii_of_string s).

End Js.

Arguments Js.trim : simpl never.
Arguments Js.truthy : simpl never.

(** ** Data of the component *)

Inductive MicState := idle | listening | processing.

Inductive SupportedLanguage := en_US | hi_IN | kn_IN.

Inductive ActionType := grocery | reminder | note | appointment.

Module VoiceAction.
Record t := mk { id : string; label : string; type : ActionType }.
End VoiceAction.

Record VoiceResponse := {
  answer_text : string;
  disclaimer : string;
  actions : option (list VoiceAction.t) (* [actions?]: may be absent *)
}.

(** *** JavaScript values

    The values [JSON.parse] produces.  [response.json()] resolves to
    one of them, whatever the declared type of the variable that takes
    it, and so the [voiceResponse] cell, declared as
    [VoiceResponse | null], holds one of them.  A number is a binary64
    value; the members of an object are in the order of the text.

    The handlers are followed on every such value.  What the JSX of
    the answer card makes of a value that is no [VoiceResponse] is not
    described here: where rendering it throws, React takes the tree
    down, which the component sees as its unmount. *)
#[warnings="-register-all"]
Inductive Json :=
| JNull
| JBool (b : bool)
| JNumber (x : spec_float)
| JString (s : string)
| JArray (items : list Json)
| JObject (members : list (string * Json)).

(** What reading a property gives: [undefined] where there is none. *)
Inductive JsValue :=
| undefined
| defined (j : Json).

(** [ToBoolean]: [null], [false], the zeros, [NaN] and the empty string
    are falsy. *)
Definition toBoolean (j : Json) : bool :=
  match j with
  | JNull => false
  | JBool b => b
  | JNumber (S754_zero _) | JNumber S754_nan => false
  | JNumber _ => true
  | JString s => Js.truthy s
  | JArray _ | JObject _ => true
  end.

(** The member of an object by name; where the text of the object has
    the name twice, the later member is the one the object has. *)
Fixpoint lookupMember (name : string) (members : list (string * Json)) : JsValue :=
  match members with
  | [] => undefined
  | (k, v) :: rest =>
      match lookupMember name rest with
      | defined w => defined w
      | undefined => if String.eqb k name then defined v else undefined
      end
  end.

(** [j.name] for a [j] that is not [null] and a [name] that no
    prototype defines: only an object can have such a property. *)
Definition member (name : string) (j : Json) : JsValue :=
  match j with
  | JObject members => lookupMember name members
  | _ => undefined
  end.

(** The objects the component itself builds. *)
Definition typeName (t : ActionType) : string :=
  match t with
  | grocery => "grocery"
  | reminder => "reminder"
  | note => "note"
  | appointment => "appointment"
  end.

Definition VoiceAction_toJson (a : VoiceAction.t) : Json :=
  JObject [("id", JString (VoiceAction.id a));
           ("label", JString (VoiceAction.label a));
           ("type", JString (typeName (VoiceAction.type a)))].

Definition toJson (r : VoiceResponse) : Json :=
  JObject
    (("answer_text", JString (answer_text r))
       :: ("disclaimer", JString (disclaimer r))
       :: match actions r with
          | Some l => [("actions", JArray (map VoiceAction_toJson l))]
          | None => []
          end).

Definition MicState_eqb (a b : MicState) : bool :=
  match a, b with
  | idle, idle | listening, listening | processing, processing => true
  | _, _ => false
  end.

Definition SupportedLanguage_eqb (a b : SupportedLanguage) : bool :=
  match a, b with
  | en_US, en_US | hi_IN, hi_IN | kn_IN, kn_IN => true
  | _, _ => false
  end.

(** *** Mock user profile and health data *)

Module Profile.
Record t := mk {
  name : string;
  age : nat;
  conditions : list string;
  medications : list string
}.
End Profile.

Module Report.
Record t := mk { type : string; value : string; date : string; status : string }.
End Report.

Definition mockUserProfile : Profile.t :=
  Profile.mk "John Doe" 45 ["diabetes"; "hypertension"] ["Metformin"; "Lisinopril"].

Definition mockRecentReports : list Report.t :=
  [ Report.mk "Blood Sugar" "145 mg/dL" "2024-01-15" "elevated";
    Report.mk "Blood Pressure" "138/88" "2024-01-14" "high";
    Report.mk "HbA1c" "7.2%" "2024-01-10" "needs_improvement" ].

(** [mockRecentReports.find(r => r.type === ty)]. *)
Definition findReport (ty : string) : option Report.t :=
  List.find (fun r => String.eqb (Report.type r) ty) mockRecentReports.

(** [${r?.field}] inside a template literal: an absent report prints
    as [undefined]. *)
Definition fieldOf (r : option Report.t) (f : Report.t -> string) : string :=
  match r with
  | Some x => f x
  | None => "undefined"
  end.

(** ** The fallback responder *)

Definition getLocalizedText (lang : SupportedLanguage) (en hi kn : string) : string :=
  match lang with
  | hi_IN => hi
  | kn_IN => kn
  | en_US => en
  end.

Definition reminderAction : VoiceAction.t :=
  VoiceAction.mk "reminder" "Add Reminder" reminder.
Definition appointmentAction : VoiceAction.t :=
  VoiceAction.mk "appointment" "Schedule Appointment" appointment.
Definition groceriesAction : VoiceAction.t :=
  VoiceAction.mk "groceries" "Add to Grocery List" grocery.
Definition medicationReminderAction : VoiceAction.t :=
  VoiceAction.mk "reminder" "Set Medication Reminder" reminder.

Definition bloodSugarText (selectedLanguage : SupportedLanguage) : string :=
  let latestBG := findReport "Blood Sugar" in
  getLocalizedText selectedLanguage
    ("Your latest blood sugar was " ++ fieldOf latestBG Report.value ++ " on "
       ++ fieldOf latestBG Report.date ++ ". This is " ++ fieldOf latestBG Report.status
       ++ ". Consider checking your medication timing and diet.")
    ("आपका नवीनतम रक्त शर्करा " ++ fieldOf latestBG Report.value ++ " था "
       ++ fieldOf latestBG Report.date ++ " को। यह " ++ fieldOf latestBG Report.status
       ++ " है। अपनी दवा का समय और आहार की जांच करें।")
    ("ನಿಮ್ಮ ಇತ್ತೀಚಿನ ರಕ್ತದ ಸಕ್ಕರೆ " ++ fieldOf latestBG Report.value ++ " ಆಗಿತ್ತು "
       ++ fieldOf latestBG Report.date ++ " ನಲ್ಲಿ। ಇದು " ++ fieldOf latestBG Report.status
       ++ " ಆಗಿದೆ।").

Definition bloodPressureText (selectedLanguage : SupportedLanguage) : string :=
  let latestBP := findReport "Blood Pressure" in
  getLocalizedText selectedLanguage
    ("Your recent blood pressure reading was " ++ fieldOf latestBP Report.value
       ++ ". This is " ++ fieldOf latestBP Report.status
       ++ ". Consider reducing salt intake and monitoring regularly.")
    ("आपका हालिया रक्तचाप " ++ fieldOf latestBP Report.value ++ " था। यह "
       ++ fieldOf latestBP Report.status ++ " है। नमक कम करें और नियमित जांच करें।")
    ("ನಿಮ್ಮ ಇತ್ತೀಚಿನ ರಕ್ತದ ಒತ್ತಡ " ++ fieldOf latestBP Report.value ++ " ಆಗಿತ್ತು। ಇದು "
       ++ fieldOf latestBP Report.status ++ " ಆಗಿದೆ।").

Definition medicationText (selectedLanguage : SupportedLanguage) : string :=
  getLocalizedText selectedLanguage
    ("You're currently taking " ++ Js.join (Profile.medications mockUserProfile) " and "
       ++ ". Remember to take them as prescribed.")
    ("आप वर्तमान में " ++ Js.join (Profile.medications mockUserProfile) " और "
       ++ " ले रहे हैं। इन्हें निर्धारित समय पर लेना याद रखें।")
    ("ನೀವು ಪ್ರಸ್ತುತ " ++ Js.join (Profile.medications mockUserProfile) " ಮತ್ತು "
       ++ " ತೆಗೆದುಕೊಳ್ಳುತ್ತಿದ್ದೀರಿ।").

Definition greetingText (selectedLanguage : SupportedLanguage) : string :=
  getLocalizedText selectedLanguage
    ("Hello " ++ Profile.name mockUserProfile
       ++ "! I'm your health assistant. How can I help you today?")
    ("नमस्ते " ++ Profile.name mockUserProfile
       ++ "! मैं आपका स्वास्थ्य सहायक हूं। आज मैं आपकी कैसे मदद कर सकता हूं?")
    ("ನಮಸ್ಕಾರ " ++ Profile.name mockUserProfile
       ++ "! ನಾನು ನಿಮ್ಮ ಆರೋಗ್ಯ ಸಹಾಯಕ. ಇಂದು ನಾನು ನಿಮಗೆ ಹೇಗೆ ಸಹಾಯ ಮಾಡಬಹುದು?").

Definition defaultText (selectedLanguage : SupportedLanguage) (query : string) : string :=
  getLocalizedText selectedLanguage
    ("I understand you said: " ++ Js.dquote ++ query ++ Js.dquote
       ++ ". As your health assistant, I can help with medication management, health monitoring, and wellness guidance.")
    ("मैं समझ गया कि आपने कहा: " ++ Js.dquote ++ query ++ Js.dquote
       ++ "। आपके स्वास्थ्य सहायक के रूप में, मैं दवा प्रबंधन और स्वास्थ्य निगरानी में मदद कर सकता हूं।")
    ("ನೀವು ಹೇಳಿದ್ದು ನನಗೆ ಅರ್ಥವಾಯಿತು: " ++ Js.dquote ++ query ++ Js.dquote
       ++ "। ನಿಮ್ಮ ಆರೋಗ್ಯ ಸಹಾಯಕನಾಗಿ, ನಾನು ಔಷಧ ನಿರ್ವಹಣೆ ಮತ್ತು ಆರೋಗ್ಯ ಮೇಲ್ವಿಚಾರಣೆಯಲ್ಲಿ ಸಹಾಯ ಮಾಡಬಹುದು।").

Definition disclaimerText (selectedLanguage : SupportedLanguage) : string :=
  getLocalizedText selectedLanguage
    "This is general guidance; consult your doctor."
    "यह सामान्य मार्गदर्शन है; अपने डॉक्टर से सलाह लें।"
    "ಇದು ಸಾಮಾನ್ಯ ಮಾರ್ಗದರ್ಶನ; ನಿಮ್ಮ ವೈದ್ಯರನ್ನು ಸಂಪರ್ಕಿಸಿ।".

(** [generateMockResponse]: the answer text and the actions of the
    first branch whose keywords occur in the lower-cased query, with
    the disclaimer.  It closes over [selectedLanguage]. *)
Definition generateMockResponse (selectedLanguage : SupportedLanguage) (query : string)
  : VoiceResponse :=
  let input := Js.toLowerCase query in
  let '(answerText, actions) :=
    if Js.includes input "blood sugar" || Js.includes input "glucose"
       || Js.includes input "diabetes"
    then (bloodSugarText selectedLanguage, [reminderAction; appointmentAction])
    else if Js.includes input "blood pressure" || Js.includes input "hypertension"
    then (bloodPressureText selectedLanguage, [groceriesAction])
    else if Js.includes input "medication" || Js.includes input "medicine"
    then (medicationText selectedLanguage, [medicationReminderAction])
    else if Js.includes input "hello" || Js.includes input "hi"
            || Js.includes input "namaste"
    then (greetingText selectedLanguage, [])
    else (defaultText selectedLanguage query, []) in
  {| answer_text := answerText;
     disclaimer := disclaimerText selectedLanguage;
     actions := Some actions |}.

Definition actionTypes (r : VoiceResponse) : list ActionType :=
  match actions r with
  | Some l => map VoiceAction.type l
  | None => []
  end.

(** ** The browser side *)

(** A [SpeechRecognition] instance.  [continuous], [interimResults] and
    [maxAlternatives] are set once at creation and never read by the
    component.  [started] holds from [start()] until the [end] event;
    [stopRequested] holds from [stop()] on a started instance until its
    [end] event. *)
Record Recognition := {
  lang : SupportedLanguage;
  started : bool;
  stopRequested : bool
}.

(** The instance is capturing: started, and not asked to stop. *)
Definition capturing (r : Recognition) : bool :=
  started r && negb (stopRequested r).

(** A pending [setTimeout]: the only callback the component ever
    schedules is the silence auto-stop. *)
Record Timer := { timer_id : nat; due : N }.

(** A pending [getUserMedia] call, with the [selectedLanguage] its
    continuation in [handleMicClick] closed over. *)
Record PermissionRequest := { perm_id : nat; perm_lang : SupportedLanguage }.

(** A pending [fetch] of [processQuery], with the [query] and the
    [selectedLanguage] its continuation closed over. *)
Record Fetch := { fetch_id : nat; fetch_query : string; fetch_lang : SupportedLanguage }.

(** How a [fetch('/api/voice/query')] settles: the promise rejects,
    the status is not ok, the body is not JSON ([response.json()]
    rejects), or the status is ok and the body parses, to whatever
    value its text describes. *)
Inductive FetchOutcome :=
| NetworkError
| BadStatus
| BadJson
| Ok (voiceData : Json).

(** What the synthesizer is speaking: the value the utterance was made
    from and its language tag. *)
Record Utterance := { utterance_text : JsValue; utterance_lang : SupportedLanguage }.

Inductive Toast :=
| MicrophoneAccessDenied
| NoSpeechDetected
| SpeechRecognitionError
| MicrophoneAccessRequired
| NotSupported
| AddedToGroceryList
| ReminderSet
| NoteSaved
| Appointment.

Record SpeechRecognitionResult := { transcript : string; isFinal : bool }.

Record SpeechRecognitionEvent := {
  results : list SpeechRecognitionResult;
  resultIndex : nat
}.

(** ** The session *)

(** The [useState] cells. *)
Record State := {
  micState : MicState;
  selectedLanguage : SupportedLanguage;
  interimTranscript : string;
  finalTranscript : string;
  voiceResponse : Json;
  textInput : string;
  showTextInput : bool;
  permissionDenied : bool
}.

Record Session := {
  mounted : bool;
  speechRecognitionSupported : bool;
  speechSynthesisSupported : bool;
  state : State;
  (* refs *)
  recognitionRef : option nat;
  timeoutRef : option nat;
  (* browser *)
  recognitions : list Recognition;
  timers : list Timer;
  permissionRequests : list PermissionRequest;
  fetches : list Fetch;
  nextId : nat;
  now : N;
  speaking : option Utterance;
  toasts : list Toast;
  (* calls made to the optional props *)
  transcriptsReady : list string;
  voiceAnswers : list Json
}.

(** *** Field updates *)

Definition with_state (f : State -> State) (s : Session) : Session :=
  {| mounted := mounted s;
     speechRecognitionSupported := speechRecognitionSupported s;
     speechSynthesisSupported := speechSynthesisSupported s;
     state := f (state s);
     recognitionRef := recognitionRef s; timeoutRef := timeoutRef s;
     recognitions := recognitions s; timers := timers s;
     permissionRequests := permissionRequests s; fetches := fetches s;
     nextId := nextId s; now := now s; speaking := speaking s; toasts := toasts s;
     transcriptsReady := transcriptsReady s; voiceAnswers := voiceAnswers s |}.

Definition with_mounted (v : bool) (s : Session) : Session :=
  {| mounted := v;
     speechRecognitionSupported := speechRecognitionSupported s;
     speechSynthesisSupported := speechSynthesisSupported s;
     state := state s;
     recognitionRef := recognitionRef s; timeoutRef := timeoutRef s;
     recognitions := recognitions s; timers := timers s;
     permissionRequests := permissionRequests s; fetches := fetches s;
     nextId := nextId s; now := now s; speaking := speaking s; toasts := toasts s;
     transcriptsReady := transcriptsReady s; voiceAnswers := voiceAnswers s |}.

Definition with_recognitionRef (v : option nat) (s : Session) : Session :=
  {| mounted := mounted s;
     speechRecognitionSupported := speechRecognitionSupported s;
     speechSynthesisSupported := speechSynthesisSupported s;
     state := state s;
     recognitionRef := v; timeoutRef := timeoutRef s;
     recognitions := recognitions s; timers := timers s;
     permissionRequests := permissionRequests s; fetches := fetches s;
     nextId := nextId s; now := now s; speaking := speaking s; toasts := toasts s;
     transcriptsReady := transcriptsReady s; voiceAnswers := voiceAnswers s |}.

Definition with_timeoutRef (v : option nat) (s : Session) : Session :=
  {| mounted := mounted s;
     speechRecognitionSupported := speechRecognitionSupported s;
     speechSynthesisSupported := speechSynthesisSupported s;
     state := state s;
     recognitionRef := recognitionRef s; timeoutRef := v;
     recognitions := recognitions s; timers := timers s;
     permissionRequests := permissionRequests s; fetches := fetches s;
     nextId := nextId s; now := now s; speaking := speaking s; toasts := toasts s;
     transcriptsReady := transcriptsReady s; voiceAnswers := voiceAnswers s |}.

Definition with_recognitions (v : list Recognition) (s : Session) : Session :=
  {| mounted := mounted s;
     speechRecognitionSupported := speechRecognitionSupported s;
     speechSynthesisSupported := speechSynthesisSupported s;
     state := state s;
     recognitionRef := recognitionRef s; timeoutRef := timeoutRef s;
     recognitions := v; timers := timers s;
     permissionRequests := permissionRequests s; fetches := fetches s;
     nextId := nextId s; now := now s; speaking := speaking s; toasts := toasts s;
     transcriptsReady := transcriptsReady s; voiceAnswers := voiceAnswers s |}.

Definition with_timers (v : list Timer) (s : Session) : Session :=
  {| mounted := mounted s;
     speechRecognitionSupported := speechRecognitionSupported s;
     speechSynthesisSupported := speechSynthesisSupported s;
     state := state s;
     recognitionRef := recognitionRef s; timeoutRef := timeoutRef s;
     recognitions := recognitions s; timers := v;
     permissionRequests := permissionRequests s; fetches := fetches s;
     nextId := nextId s; now := now s; speaking := speaking s; toasts := toasts s;
     transcriptsReady := transcriptsReady s; voiceAnswers := voiceAnswers s |}.

Definition with_permissionRequests (v : list PermissionRequest) (s : Session) : Session :=
  {| mounted := mounted s;
     speechRecognitionSupported := speechRecognitionSupported s;
     speechSynthesisSupported := speechSynthesisSupported s;
     state := state s;
     recognitionRef := recognitionRef s; timeoutRef := timeoutRef s;
     recognitions := recognitions s; timers := timers s;
     permissionRequests := v; fetches := fetches s;
     nextId := nextId s; now := now s; speaking := speaking s; toasts := toasts s;
     transcriptsReady := transcriptsReady s; voiceAnswers := voiceAnswers s |}.

Definition with_fetches (v : list Fetch) (s : Session) : Session :=
  {| mounted := mounted s;
     speechRecognitionSupported := speechRecognitionSupported s;
     speechSynthesisSupported := speechSynthesisSupported s;
     state := state s;
     recognitionRef := recognitionRef s; timeoutRef := timeoutRef s;
     recognitions := recognitions s; timers := timers s;
     permissionRequests := permissionRequests s; fetches := v;
     nextId := nextId s; now := now s; speaking := speaking s; toasts := toasts s;
     transcriptsReady := transcriptsReady s; voiceAnswers := voiceAnswers s |}.

Definition with_nextId (v : nat) (s : Session) : Session :=
  {| mounted := mounted s;
     speechRecognitionSupported := speechRecognitionSupported s;
     speechSynthesisSupported := speechSynthesisSupported s;
     state := state s;
     recognitionRef := recognitionRef s; timeoutRef := timeoutRef s;
     recognitions := recognitions s; timers := timers s;
     permissionRequests := permissionRequests s; fetches := fetches s;
     nextId := v; now := now s; speaking := speaking s; toasts := toasts s;
     transcriptsReady := transcriptsReady s; voiceAnswers := voiceAnswers s |}.

Definition with_now (v : N) (s : Session) : Session :=
  {| mounted := mounted s;
     speechRecognitionSupported := speechRecognitionSupported s;
     speechSynthesisSupported := speechSynthesisSupported s;
     state := state s;
     recognitionRef := recognitionRef s; timeoutRef := timeoutRef s;
     recognitions := recognitions s; timers := timers s;
     permissionRequests := permissionRequests s; fetches := fetches s;
     nextId := nextId s; now := v; speaking := speaking s; toasts := toasts s;
     transcriptsReady := transcriptsReady s; voiceAnswers := voiceAnswers s |}.

Definition with_speaking (v : option Utterance) (s : Session) : Session :=
  {| mounted := mounted s;
     speechRecognitionSupported := speechRecognitionSupported s;
     speechSynthesisSupported := speechSynthesisSupported s;
     state := state s;
     recognitionRef := recognitionRef s; timeoutRef := timeoutRef s;
     recognitions := recognitions s; timers := timers s;
     permissionRequests := permissionRequests s; fetches := fetches s;
     nextId := nextId s; now := now s; speaking := v; toasts := toasts s;
     transcriptsReady := transcriptsReady s; voiceAnswers := voiceAnswers s |}.

Definition with_toasts (v : list Toast) (s : Session) : Session :=
  {| mounted := mounted s;
     speechRecognitionSupported := speechRecognitionSupported s;
     speechSynthesisSupported := speechSynthesisSupported s;
     state := state s;
     recognitionRef := recognitionRef s; timeoutRef := timeoutRef s;
     recognitions := recognitions s; timers := timers s;
     permissionRequests := permissionRequests s; fetches := fetches s;
     nextId := nextId s; now := now s; speaking := speaking s; toasts := v;
     transcriptsReady := transcriptsReady s; voiceAnswers := voiceAnswers s |}.

Definition with_transcriptsReady (v : list string) (s : Session) : Session :=
  {| mounted := mounted s;
     speechRecognitionSupported := speechRecognitionSupported s;
     speechSynthesisSupported := speechSynthesisSupported s;
     state := state s;
     recognitionRef := recognitionRef s; timeoutRef := timeoutRef s;
     recognitions := recognitions s; timers := timers s;
     permissionRequests := permissionRequests s; fetches := fetches s;
     nextId := nextId s; now := now s; speaking := speaking s; toasts := toasts s;
     transcriptsReady := v; voiceAnswers := voiceAnswers s |}.

Definition with_voiceAnswers (v : list Json) (s : Session) : Session :=
  {| mounted := mounted s;
     speechRecognitionSupported := speechRecognitionSupported s;
     speechSynthesisSupported := speechSynthesisSupported s;
     state := state s;
     recognitionRef := recognitionRef s; timeoutRef := timeoutRef s;
     recognitions := recognitions s; timers := timers s;
     permissionRequests := permissionRequests s; fetches := fetches s;
     nextId := nextId s; now := now s; speaking := speaking s; toasts := toasts s;
     transcriptsReady := transcriptsReady s; voiceAnswers := v |}.

(** *** [useState] setters

    React drops the update of a component that is no longer mounted. *)

Definition setState (f : State -> State) (s : Session) : Session :=
  with_state (fun st => if mounted s then f st else st) s.

Definition setMicState (v : MicState) : Session -> Session :=
  setState (fun st =>
    {| micState := v; selectedLanguage := selectedLanguage st;
       interimTranscript := interimTranscript st; finalTranscript := finalTranscript st;
       voiceResponse := voiceResponse st; textInput := textInput st;
       showTextInput := showTextInput st; permissionDenied := permissionDenied st |}).

Definition setSelectedLanguage (v : SupportedLanguage) : Session -> Session :=
  setState (fun st =>
    {| micState := micState st; selectedLanguage := v;
       interimTranscript := interimTranscript st; finalTranscript := finalTranscript st;
       voiceResponse := voiceResponse st; textInput := textInput st;
       showTextInput := showTextInput st; permissionDenied := permissionDenied st |}).

Definition setInterimTranscript (v : string) : Session -> Session :=
  setState (fun st =>
    {| micState := micState st; selectedLanguage := selectedLanguage st;
       interimTranscript := v; finalTranscript := finalTranscript st;
       voiceResponse := voiceResponse st; textInput := textInput st;
       showTextInput := showTextInput st; permissionDenied := permissionDenied st |}).

Definition setFinalTranscript (v : string) : Session -> Session :=
  setState (fun st =>
    {| micState := micState st; selectedLanguage := selectedLanguage st;
       interimTranscript := interimTranscript st; finalTranscript := v;
       voiceResponse := voiceResponse st; textInput := textInput st;
       showTextInput := showTextInput st; permissionDenied := permissionDenied st |}).

Definition setVoiceResponse (v : Json) : Session -> Session :=
  setState (fun st =>
    {| micState := micState st; selectedLanguage := selectedLanguage st;
       interimTranscript := interimTranscript st; finalTranscript := finalTranscript st;
       voiceResponse := v; textInput := textInput st;
       showTextInput := showTextInput st; permissionDenied := permissionDenied st |}).

Definition setTextInput (v : string) : Session -> Session :=
  setState (fun st =>
    {| micState := micState st; selectedLanguage := selectedLanguage st;
       interimTranscript := interimTranscript st; finalTranscript := finalTranscript st;
       voiceResponse := voiceResponse st; textInput := v;
       showTextInput := showTextInput st; permissionDenied := permissionDenied st |}).

Definition setShowTextInput (v : bool) : Session -> Session :=
  setState (fun st =>
    {| micState := micState st; selectedLanguage := selectedLanguage st;
       interimTranscript := interimTranscript st; finalTranscript := finalTranscript st;
       voiceResponse := voiceResponse st; textInput := textInput st;
       showTextInput := v; permissionDenied := permissionDenied st |}).

Definition setPermissionDenied (v : bool) : Session -> Session :=
  setState (fun st =>
    {| micState := micState st; selectedLanguage := selectedLanguage st;
       interimTranscript := interimTranscript st; finalTranscript := finalTranscript st;
       voiceResponse := voiceResponse st; textInput := textInput st;
       showTextInput := showTextInput st; permissionDenied := v |}).

(** *** Browser operations *)

Definition toast (t : Toast) (s : Session) : Session :=
  with_toasts (toasts s ++ [t]) s.

(** [recognition.stop()]: nothing happens on an instance that is not
    started. *)
Definition stopInstance (r : Recognition) : Recognition :=
  if started r
  then {| lang := lang r; started := true; stopRequested := true |}
  else r.

(** [recognition.start()]: raises [InvalidStateError] on an instance
    that is already started, which rejects the promise of the async
    handler and changes nothing. *)
Definition startInstance (r : Recognition) : Recognition :=
  if started r
  then r
  else {| lang := lang r; started := true; stopRequested := false |}.

(** The instance after its [end] event. *)
Definition endInstance (r : Recognition) : Recognition :=
  {| lang := lang r; started := false; stopRequested := false |}.

Definition setLang (l : SupportedLanguage) (r : Recognition) : Recognition :=
  {| lang := l; started := started r; stopRequested := stopRequested r |}.

Definition onInstance (f : Recognition -> Recognition) (i : nat) (s : Session) : Session :=
  with_recognitions (alter f i (recognitions s)) s.

(** Has the browser an event to deliver from instance [i]? *)
Definition isStarted (i : nat) (s : Session) : bool :=
  match recognitions s !! i with
  | Some r => started r
  | None => false
  end.

Definition clearTimeout (t : nat) (s : Session) : Session :=
  with_timers (filter (fun x => timer_id x <> t) (timers s)) s.

(** [setTimeout(callback, delay)]: the new timer's id is returned in
    [nextId] of the argument session. *)
Definition setTimeout (delay : N) (s : Session) : Session :=
  with_nextId (S (nextId s))
    (with_timers (timers s ++ [{| timer_id := nextId s; due := (now s + delay)%N |}]) s).

(** [fetch('/api/voice/query', ...)] issued by [processQuery]. *)
Definition fetch (query : string) (language : SupportedLanguage) (s : Session) : Session :=
  with_nextId (S (nextId s))
    (with_fetches
       (fetches s ++ [{| fetch_id := nextId s; fetch_query := query; fetch_lang := language |}])
       s).

(** [navigator.mediaDevices.getUserMedia({ audio: true })] issued by
    [requestMicrophonePermission]. *)
Definition getUserMedia (language : SupportedLanguage) (s : Session) : Session :=
  with_nextId (S (nextId s))
    (with_permissionRequests
       (permissionRequests s ++ [{| perm_id := nextId s; perm_lang := language |}]) s).

(** ** The component's functions

    A function defined in the component body closes over the values of
    the render that created it; the closed-over [selectedLanguage] is
    an explicit first argument here. *)

(** [speechSynthesis.cancel()] followed by [speechSynthesis.speak]. *)
Definition speakResponse (selectedLanguage : SupportedLanguage) (text : JsValue)
    (s : Session) : Session :=
  if speechSynthesisSupported s
  then with_speaking (Some {| utterance_text := text; utterance_lang := selectedLanguage |}) s
  else s.

(** [processQuery] up to its first [await]. *)
Definition processQuery (selectedLanguage : SupportedLanguage) (query : string)
    (s : Session) : Session :=
  fetch query selectedLanguage (setMicState processing s).

Definition onVoiceAnswer (r : Json) (s : Session) : Session :=
  with_voiceAnswers (voiceAnswers s ++ [r]) s.

Definition onTranscriptReady (t : string) (s : Session) : Session :=
  with_transcriptsReady (transcriptsReady s ++ [t]) s.

(** The [catch] block of [processQuery]. *)
Definition processQuery_catch (f : Fetch) (s : Session) : Session :=
  let mockResponse := generateMockResponse (fetch_lang f) (fetch_query f) in
  speakResponse (fetch_lang f) (defined (JString (answer_text mockResponse)))
    (onVoiceAnswer (toJson mockResponse) (setVoiceResponse (toJson mockResponse) s)).

(** [processQuery] after the [fetch] has settled: the [try] block, the
    [catch] block where it throws, then [finally].  With an ok status
    the body is taken as it parses: it is stored and handed to
    [onVoiceAnswer] before [voiceData.answer_text] is read, which
    throws a [TypeError] when the body is [null]. *)
Definition processQuery_settled (f : Fetch) (o : FetchOutcome) (s : Session) : Session :=
  let s1 :=
    match o with
    | Ok voiceData =>
        let s2 := onVoiceAnswer voiceData (setVoiceResponse voiceData s) in
        match voiceData with
        | JNull => processQuery_catch f s2
        | _ => speakResponse (fetch_lang f) (member "answer_text" voiceData) s2
        end
    | NetworkError | BadStatus | BadJson => processQuery_catch f s
    end in
  setMicState idle s1.

(** The loop of [recognition.onresult] over
    [event.results[resultIndex ..]], returning [(interim, final)]. *)
Fixpoint collect (rs : list SpeechRecognitionResult) (interim final : string)
  : string * string :=
  match rs with
  | [] => (interim, final)
  | r :: rest =>
      if isFinal r
      then collect rest interim (final ++ transcript r)
      else collect rest (interim ++ transcript r) final
  end.

Definition transcripts (event : SpeechRecognitionEvent) : string * string :=
  collect (drop (resultIndex event) (results event)) "" "".

(** The handlers installed on the instance [i] by the recognition
    effect; [recognition] in [onresult] is that very instance. *)
Definition onstart (s : Session) : Session :=
  setPermissionDenied false (setInterimTranscript "" (setMicState listening s)).

Definition onresult (i : nat) (event : SpeechRecognitionEvent) (s : Session) : Session :=
  let '(interim, final) := transcripts event in
  let s1 := setInterimTranscript interim s in
  if Js.truthy final
  then onInstance stopInstance i (setInterimTranscript "" (setFinalTranscript final s1))
  else s1.

Definition onerror (error : string) (s : Session) : Session :=
  let s1 :=
    if String.eqb error "not-allowed"
    then toast MicrophoneAccessDenied (setPermissionDenied true s)
    else if String.eqb error "no-speech"
    then toast NoSpeechDetected s
    else toast SpeechRecognitionError s in
  setInterimTranscript "" (setMicState idle s1).

Definition onend (s : Session) : Session :=
  setInterimTranscript "" (setMicState idle s).

(** The callback of the silence timer.  The [micState] it closed over
    is [listening], the only state in which the timer is armed. *)
Definition silenceTimeout (s : Session) : Session :=
  match recognitionRef s with
  | Some i => onInstance stopInstance i s
  | None => s
  end.

(** [handleMicClick] up to its [await]. *)
Definition handleMicClick (s : Session) : Session :=
  if negb (speechRecognitionSupported s)
  then setShowTextInput true (toast NotSupported s)
  else
    match micState (state s) with
    | listening =>
        match recognitionRef s with
        | Some i => onInstance stopInstance i s
        | None => s
        end
    | processing => s
    | idle => getUserMedia (selectedLanguage (state s)) s
    end.

(** [requestMicrophonePermission] and the rest of [handleMicClick]
    once [getUserMedia] has settled. *)
Definition handleMicClick_settled (p : PermissionRequest) (granted : bool)
    (s : Session) : Session :=
  if granted
  then
    match recognitionRef s with
    | Some i => onInstance startInstance i (onInstance (setLang (perm_lang p)) i s)
    | None => s
    end
  else toast MicrophoneAccessRequired (setPermissionDenied true s).

Definition handleTextSubmit (s : Session) : Session :=
  if Js.truthy (Js.trim (textInput (state s)))
  then
    setShowTextInput false
      (setTextInput ""
         (processQuery (selectedLanguage (state s)) (Js.trim (textInput (state s))) s))
  else s.

Definition handleActionClick (action : VoiceAction.t) (s : Session) : Session :=
  match VoiceAction.type action with
  | grocery => toast AddedToGroceryList s
  | reminder => toast ReminderSet s
  | note => toast NoteSaved s
  | appointment => toast Appointment s
  end.

(** The Replay button, rendered only while [voiceResponse] is truthy. *)
Definition replay (s : Session) : Session :=
  if toBoolean (voiceResponse (state s))
  then speakResponse (selectedLanguage (state s))
         (member "answer_text" (voiceResponse (state s))) s
  else s.

(** *** The effects

    Each effect body takes the state of the render it belongs to. *)

(** Initialize speech recognition; dependencies [selectedLanguage],
    [speechRecognitionSupported], [toast]. *)
Definition recognitionEffect (render : State) (s : Session) : Session :=
  if negb (speechRecognitionSupported s) then s
  else
    with_recognitionRef (Some (length (recognitions s)))
      (with_recognitions
         (recognitions s
            ++ [{| lang := selectedLanguage render; started := false; stopRequested := false |}])
         s).

(** Its cleanup, registered only when the body did not return early. *)
Definition recognitionCleanup (s : Session) : Session :=
  if negb (speechRecognitionSupported s) then s
  else
    match recognitionRef s with
    | Some i => onInstance stopInstance i s
    | None => s
    end.

(** Process final transcript; dependencies [finalTranscript],
    [onTranscriptReady]. *)
Definition finalTranscriptEffect (render : State) (s : Session) : Session :=
  if Js.truthy (Js.trim (finalTranscript render))
  then
    setFinalTranscript ""
      (processQuery (selectedLanguage render) (finalTranscript render)
         (onTranscriptReady (finalTranscript render) s))
  else s.

(** Auto-stop listening after silence; dependencies [micState],
    [interimTranscript]. *)
Definition silenceEffect (render : State) (s : Session) : Session :=
  if MicState_eqb (micState render) listening && negb (Js.truthy (interimTranscript render))
  then
    let s1 := match timeoutRef s with
              | Some t => clearTimeout t s
              | None => s
              end in
    with_timeoutRef (Some (nextId s1)) (setTimeout 3000 s1)
  else
    match timeoutRef s with
    | Some t => with_timeoutRef None (clearTimeout t s)
    | None => s
    end.

Definition silenceCleanup (s : Session) : Session :=
  match timeoutRef s with
  | Some t => clearTimeout t s
  | None => s
  end.

(** One commit: [prev] is the state of the previous render, [state s]
    the state just rendered.  The cleanups of the effects whose
    dependencies changed run first, then their bodies, in the order of
    the hooks. *)
Definition runEffects (prev : State) (s : Session) : Session :=
  let render := state s in
  let languageChanged :=
    negb (SupportedLanguage_eqb (selectedLanguage prev) (selectedLanguage render)) in
  let finalChanged := negb (String.eqb (finalTranscript prev) (finalTranscript render)) in
  let silenceChanged :=
    negb (MicState_eqb (micState prev) (micState render))
    || negb (String.eqb (interimTranscript prev) (interimTranscript render)) in
  let s := if languageChanged then recognitionCleanup s else s in
  let s := if silenceChanged then silenceCleanup s else s in
  let s := if languageChanged then recognitionEffect render s else s in
  let s := if finalChanged then finalTranscriptEffect render s else s in
  if silenceChanged then silenceEffect render s else s.

(** The updates of a handler are batched into one render; an effect
    that sets state causes one more render.  The second round changes
    no state (lemma [commit_settled]). *)
Definition commit (prev : State) (s : Session) : Session :=
  runEffects (state s) (runEffects prev s).

(** *** Mounting and unmounting *)

Definition initialLanguage (appLang : string) : SupportedLanguage :=
  if String.eqb appLang "hi" then hi_IN
  else if String.eqb appLang "kn" then kn_IN
  else en_US.

Definition initialState (appLang : string) : State :=
  {| micState := idle; selectedLanguage := initialLanguage appLang;
     interimTranscript := ""; finalTranscript := ""; voiceResponse := JNull;
     textInput := ""; showTextInput := false; permissionDenied := false |}.

(** The first render and the first run of the three effects. *)
Definition mount (recognitionSupported synthesisSupported : bool) (appLang : string)
  : Session :=
  let render := initialState appLang in
  silenceEffect render
    (finalTranscriptEffect render
       (recognitionEffect render
          {| mounted := true;
             speechRecognitionSupported := recognitionSupported;
             speechSynthesisSupported := synthesisSupported;
             state := render;
             recognitionRef := None; timeoutRef := None;
             recognitions := []; timers := [];
             permissionRequests := []; fetches := [];
             nextId := 1; now := 0%N; speaking := None; toasts := [];
             transcriptsReady := []; voiceAnswers := [] |})).

(** Unmounting runs the cleanups of the effects. *)
Definition unmount (s : Session) : Session :=
  with_mounted false (silenceCleanup (recognitionCleanup s)).

(** ** Events *)

Inductive Event :=
(* the user *)
| MicClick
| SelectLanguage (value : SupportedLanguage)
| ShowTextInput
| TypeText (value : string)
| SubmitText
| CancelText
| Replay
| ActionClick (action : VoiceAction.t)
| Unmount
(* the browser *)
| PermissionSettled (id : nat) (granted : bool)
| RecognitionStart (i : nat)
| RecognitionResult (i : nat) (event : SpeechRecognitionEvent)
| RecognitionError (i : nat) (error : string)
| RecognitionEnd (i : nat)
| Elapse (ms : N)
| FetchSettled (id : nat) (outcome : FetchOutcome)
| PlaybackEnd.

(** The microphone button is disabled while processing and after a
    denial; a disabled button delivers no click. *)
Definition micDisabled (s : Session) : bool :=
  MicState_eqb (micState (state s)) processing || permissionDenied (state s).

(** Time passes: the timers that come due fire. *)
Definition elapse (ms : N) (s : Session) : Session :=
  let t := (now s + ms)%N in
  let fired := filter (fun x => (due x <= t)%N) (timers s) in
  let s1 := with_timers (filter (fun x => ~ (due x <= t)%N) (timers s)) (with_now t s) in
  foldr (fun _ acc => silenceTimeout acc) s1 fired.

(** The handler an event runs.  The user's events need the mounted
    view; the browser delivers the events of a recognition instance
    only while it is started, and settles only pending requests. *)
Definition handle (e : Event) (s : Session) : Session :=
  match e with
  | MicClick =>
      if mounted s && negb (micDisabled s) then handleMicClick s else s
  | SelectLanguage value =>
      if mounted s then setSelectedLanguage value s else s
  | ShowTextInput =>
      if mounted s then setShowTextInput true s else s
  | TypeText value =>
      if mounted s && showTextInput (state s) then setTextInput value s else s
  | SubmitText =>
      if mounted s && showTextInput (state s) then handleTextSubmit s else s
  | CancelText =>
      if mounted s && showTextInput (state s)
      then setTextInput "" (setShowTextInput false s) else s
  | Replay =>
      if mounted s then replay s else s
  | ActionClick action =>
      if mounted s then handleActionClick action s else s
  | Unmount =>
      if mounted s then unmount s else s
  | PermissionSettled id granted =>
      match find (fun p => Nat.eqb (perm_id p) id) (permissionRequests s) with
      | Some p =>
          handleMicClick_settled p granted
            (with_permissionRequests
               (filter (fun p => perm_id p <> id) (permissionRequests s)) s)
      | None => s
      end
  | RecognitionStart i =>
      if isStarted i s then onstart s else s
  | RecognitionResult i event =>
      if isStarted i s then onresult i event s else s
  | RecognitionError i error =>
      if isStarted i s then onerror error s else s
  | RecognitionEnd i =>
      if isStarted i s then onend (onInstance endInstance i s) else s
  | Elapse ms => elapse ms s
  | FetchSettled id outcome =>
      match find (fun f => Nat.eqb (fetch_id f) id) (fetches s) with
      | Some f =>
          processQuery_settled f outcome
            (with_fetches (filter (fun f => fetch_id f <> id) (fetches s)) s)
      | None => s
      end
  | PlaybackEnd => with_speaking None s
  end.

(** One turn of the event loop: the handler, then the render and the
    effects it causes.  A component that is not mounted does not
    render. *)
Definition step (e : Event) (s : Session) : Session :=
  let s' := handle e s in
  if mounted s' then commit (state s) s' else s'.

Definition run (es : list Event) (s : Session) : Session :=
  foldl (fun acc e => step e acc) s es.

(** The sessions visited, the starting one first. *)
Fixpoint trace (es : list Event) (s : Session) : list Session :=
  match es with
  | [] => [s]
  | e :: rest => s :: trace rest (step e s)
  end.

(** The number of turns in which [micState] went from [listening] to
    [processing]. *)
Fixpoint listeningToProcessing (l : list Session) : nat :=
  match l with
  | a :: ((b :: _) as rest) =>
      (if MicState_eqb (micState (state a)) listening
          && MicState_eqb (micState (state b)) processing
       then 1 else 0) + listeningToProcessing rest
  | _ => 0
  end.

(** ** Sessions the component can be in *)

Definition reachable (s : Session) : Prop :=
  exists (recognitionSupported synthesisSupported : bool) (appLang : string)
         (es : list Event),
    s = run es (mount recognitionSupported synthesisSupported appLang).

(** Whatever timer is pending is the one [timeoutRef] holds. *)
Definition timerOwned (s : Session) : Prop :=
  match timers s with
  | [] => True
  | [t] => timeoutRef s = Some (timer_id t)
  | _ :: _ :: _ => False
  end.

(** A timer is pending only while the mounted session is listening
    with no interim text. *)
Definition timerGuard (s : Session) : Prop :=
  timers s <> [] ->
  mounted s = true /\ micState (state s) = listening /\ interimTranscript (state s) = "".

(** An instance that is capturing is the one [recognitionRef] holds. *)
Definition captureOwned (s : Session) : Prop :=
  forall i r, recognitions s !! i = Some r -> capturing r = true -> recognitionRef s = Some i.

(** Between turns [finalTranscript] holds nothing to dispatch. *)
Definition finalConsumed (s : Session) : Prop :=
  Js.truthy (Js.trim (finalTranscript (state s))) = false.

Record Consistent (s : Session) : Prop := {
  cons_timerOwned : timerOwned s;
  cons_timerGuard : timerGuard s;
  cons_captureOwned : captureOwned s;
  cons_finalConsumed : finalConsumed s
}.

(** The same between a handler and the commit of its updates, where
    [prev] is the state last rendered. *)
Record Committing (prev : State) (s : Session) : Prop := {
  comm_mounted : mounted s = true;
  comm_timerOwned : timerOwned s;
  comm_timerGuard :
    micState prev = micState (state s) ->
    interimTranscript prev = interimTranscript (state s) ->
    timerGuard s;
  comm_captureOwned : captureOwned s;
  comm_finalConsumed :
    finalTranscript prev = finalTranscript (state s) -> finalConsumed s
}.

(** The permission block: the flag is set, no permission request is
    pending and no instance is started. *)
Definition blocked (s : Session) : Prop :=
  permissionDenied (state s) = true
  /\ permissionRequests s = []
  /\ Forall (fun r => started r = false) (recognitions s).

(** ** One commit, field by field

    The conditions under which the effects run, and the values they
    compute, named for the statements below. *)

(** The recognition effect re-runs. *)
Definition languageChanged (prev render : State) : bool :=
  negb (SupportedLanguage_eqb (selectedLanguage prev) (selectedLanguage render)).

(** The silence effect re-runs. *)
Definition silenceChanged (prev render : State) : bool :=
  negb (MicState_eqb (micState prev) (micState render))
  || negb (String.eqb (interimTranscript prev) (interimTranscript render)).

(** The final-transcript effect re-runs and dispatches a query. *)
Definition dispatches (prev render : State) : bool :=
  negb (String.eqb (finalTranscript prev) (finalTranscript render))
  && Js.truthy (Js.trim (finalTranscript render)).

(** The state after the final-transcript effect has dispatched. *)
Definition consumed (st : State) : State :=
  {| micState := processing; selectedLanguage := selectedLanguage st;
     interimTranscript := interimTranscript st; finalTranscript := "";
     voiceResponse := voiceResponse st; textInput := textInput st;
     showTextInput := showTextInput st; permissionDenied := permissionDenied st |}.

(** The condition under which the silence effect arms its timer. *)
Definition silent (render : State) : bool :=
  MicState_eqb (micState render) listening && negb (Js.truthy (interimTranscript render)).

(** The timers left by [clearTimeout(timeoutRef.current)]. *)
Definition cleared (s : Session) : list Timer :=
  match timeoutRef s with
  | Some t => filter (fun x => timer_id x <> t) (timers s)
  | None => timers s
  end.

(** The instances after [recognitionRef.current.stop()]. *)
Definition stoppedRef (s : Session) : list Recognition :=
  match recognitionRef s with
  | Some i => alter stopInstance i (recognitions s)
  | None => recognitions s
  end.

(** How the instances of one turn relate to those before it: an
    instance that is capturing was capturing, or is the one [ref]
    holds. *)
Definition captureStep (ref : option nat) (l l' : list Recognition) : Prop :=
  forall i r', l' !! i = Some r' -> capturing r' = true ->
    (exists r, l !! i = Some r /\ capturing r = true) \/ ref = Some i.

(** The call that ends in the [catch] block: one that fails, or one
    whose body is [null]. *)
Definition failed (o : FetchOutcome) : bool :=
  match o with
  | Ok JNull => true
  | Ok _ => false
  | NetworkError | BadStatus | BadJson => true
  end.

(** What a settled call leaves in [voiceResponse], what it has handed
    to [onVoiceAnswer], and what it has the synthesizer speak. *)
Definition settledResponse (f : Fetch) (o : FetchOutcome) : Json :=
  if failed o
  then toJson (generateMockResponse (fetch_lang f) (fetch_query f))
  else match o with
       | Ok voiceData => voiceData
       | _ => JNull
       end.


Definition settledText (f : Fetch) (o : FetchOutcome) : JsValue :=
  if failed o
  then defined (JString (answer_text (generateMockResponse (fetch_lang f) (fetch_query f))))
  else member "answer_text" (settledResponse f o).


(** ** Names for the statements about the rest of the code *)

(** The keywords [generateMockResponse] looks for, in the order of its
    branches: those of the three health topics, then the greetings. *)
Definition healthKeywords : list string :=
  ["blood sugar"; "glucose"; "diabetes";
   "blood pressure"; "hypertension";
   "medication"; "medicine"].

Definition greetingKeywords : list string := ["hello"; "hi"; "namaste"].

Definition keywords : list string := healthKeywords ++ greetingKeywords.

(** ** The page that shows the component

    [Index] renders [VoiceAssistant] while its [currentState] is
    ['voice'], and has one effect, on [currentState]:
    [speechSynthesis.cancel()]. *)



(** [Array.prototype.includes] on an array of strings. *)
Definition arrayIncludes (l : list string) (x : string) : bool :=
  existsb (fun y => String.eqb y x) l.

(** * ProfileSetup: the profile form *)

Module ProfileSetup.

Record UserProfile := mk {
  name : string;
  age : string;
  gender : string;
  healthConditions : list string
}.

(** The ids of the [healthConditions] the form offers, one check box
    each. *)
Definition conditionIds : list string :=
  ["diabetes"; "hypertension"; "heart"; "arthritis";
   "cholesterol"; "thyroid"; "kidney"; "asthma"].

(** The keys of the three gender buttons. *)
Inductive GenderKey := Male | Female | Other.

Definition key (g : GenderKey) : string :=
  match g with
  | Male => "Male"
  | Female => "Female"
  | Other => "Other"
  end.

Definition initialProfile : UserProfile :=
  {| name := ""; age := ""; gender := ""; healthConditions := [] |}.

Definition handleHealthConditionChange (conditionId : string) (checked : bool)
    (prev : UserProfile) : UserProfile :=
  {| name := name prev; age := age prev; gender := gender prev;
     healthConditions :=
       if checked
       then healthConditions prev ++ [conditionId]
       else List.filter (fun id => negb (String.eqb id conditionId)) (healthConditions prev) |}.

(** The [onChange] of the two inputs, with the text of the field, and
    the [onClick] of a gender button. *)
Definition setName (value : string) (prev : UserProfile) : UserProfile :=
  {| name := value; age := age prev; gender := gender prev;
     healthConditions := healthConditions prev |}.

Definition setAge (value : string) (prev : UserProfile) : UserProfile :=
  {| name := name prev; age := value; gender := gender prev;
     healthConditions := healthConditions prev |}.

Definition setGender (g : GenderKey) (prev : UserProfile) : UserProfile :=
  {| name := name prev; age := age prev; gender := key g;
     healthConditions := healthConditions prev |}.

(** [handleSubmit]: the profile [onProfileComplete] is called with, if
    it is called. *)
Definition handleSubmit (profile : UserProfile) : option UserProfile :=
  if Js.truthy (name profile) && Js.truthy (age profile) && Js.truthy (gender profile)
  then Some profile
  else None.

(** The check box of a condition is checked when the profile includes
    its id. *)
Definition checked (profile : UserProfile) (conditionId : string) : bool :=
  arrayIncludes (healthConditions profile) conditionId.

End ProfileSetup.

(** * Index: the page and its views *)

Module Index.

Record Language := {
  code : string;
  name : string;
  nativeName : string;
  flag : string
}.

(** The state cells of [Index], and the cell of [ProfileSetup] while
    that view is mounted. *)
Record t := {
  currentState : string;
  selectedLanguage : option Language;
  userProfile : option ProfileSetup.UserProfile;
  profile : ProfileSetup.UserProfile
}.

Inductive View :=
| LanguageSelectorView
| ProfileSetupView
| DashboardView
| PrescriptionUploadView
| WellnessTipsView
| VoiceAssistantView
| ComingSoonView.

Definition View_eqb (v w : View) : bool :=
  match v, w with
  | LanguageSelectorView, LanguageSelectorView
  | ProfileSetupView, ProfileSetupView
  | DashboardView, DashboardView
  | PrescriptionUploadView, PrescriptionUploadView
  | WellnessTipsView, WellnessTipsView
  | VoiceAssistantView, VoiceAssistantView
  | ComingSoonView, ComingSoonView => true
  | _, _ => false
  end.

Definition isSome {A} (o : option A) : bool :=
  match o with
  | Some _ => true
  | None => false
  end.

(** The views the JSX of [Index] renders, in its order. *)
Definition render (a : t) : list View :=
  let current := String.eqb (currentState a) in
  (if current "language" then [LanguageSelectorView] else [])
  ++ (if current "profile" then [ProfileSetupView] else [])
  ++ (if current "dashboard" && isSome (userProfile a) then [DashboardView] else [])
  ++ (if current "scan" || current "upload" then [PrescriptionUploadView] else [])
  ++ (if current "wellness" && isSome (userProfile a) then [WellnessTipsView] else [])
  ++ (if current "voice" then [VoiceAssistantView] else [])
  ++ (if current "medicines" || current "reminders" || current "progress"
      then [ComingSoonView] else []).

Definition shows (v : View) (a : t) : bool :=
  existsb (View_eqb v) (render a).

(** The names of [AppState]. *)
Definition appStates : list string :=
  ["language"; "profile"; "dashboard"; "scan"; "upload";
   "medicines"; "reminders"; "wellness"; "progress"; "voice"].

(** [setCurrentState]; a [ProfileSetup] that comes to be rendered
    starts from its initial state. *)
Definition setCurrentState (value : string) (a : t) : t :=
  {| currentState := value;
     selectedLanguage := selectedLanguage a;
     userProfile := userProfile a;
     profile :=
       if String.eqb value "profile" && negb (String.eqb (currentState a) "profile")
       then ProfileSetup.initialProfile
       else profile a |}.

Definition handleLanguageSelect (language : Language) (a : t) : t :=
  setCurrentState "profile"
    {| currentState := currentState a; selectedLanguage := Some language;
       userProfile := userProfile a; profile := profile a |}.

Definition handleProfileComplete (p : ProfileSetup.UserProfile) (a : t) : t :=
  setCurrentState "dashboard"
    {| currentState := currentState a; selectedLanguage := selectedLanguage a;
       userProfile := Some p; profile := profile a |}.

(** [section as AppState]: the cast checks nothing. *)
Definition handleNavigation (section : string) (a : t) : t :=
  setCurrentState section a.

Definition handleBack (a : t) : t :=
  setCurrentState "dashboard" a.

Definition setProfile (f : ProfileSetup.UserProfile -> ProfileSetup.UserProfile) (a : t) : t :=
  {| currentState := currentState a; selectedLanguage := selectedLanguage a;
     userProfile := userProfile a; profile := f (profile a) |}.

(** What the user can do; each control exists only in the view that
    renders it. *)
Inductive Event :=
(* LanguageSelector *)
| SelectLanguage (language : Language)
(* ProfileSetup *)
| TypeName (value : string)
| TypeAge (value : string)
| ChooseGender (g : ProfileSetup.GenderKey)
| CheckedChange (conditionId : string) (checked : bool)
| Submit
(* Dashboard *)
| Navigate (section : string)
(* the views with [onBack], and the link of the pages to come *)
| Back.

Definition initial : t :=
  {| currentState := "language"; selectedLanguage := None; userProfile := None;
     profile := ProfileSetup.initialProfile |}.

Definition handle (e : Event) (a : t) : t :=
  match e with
  | SelectLanguage language =>
      if shows LanguageSelectorView a then handleLanguageSelect language a else a
  | TypeName value =>
      if shows ProfileSetupView a then setProfile (ProfileSetup.setName value) a else a
  | TypeAge value =>
      if shows ProfileSetupView a then setProfile (ProfileSetup.setAge value) a else a
  | ChooseGender g =>
      if shows ProfileSetupView a then setProfile (ProfileSetup.setGender g) a else a
  | CheckedChange conditionId checked =>
      if shows ProfileSetupView a && arrayIncludes ProfileSetup.conditionIds conditionId
      then setProfile (ProfileSetup.handleHealthConditionChange conditionId checked) a
      else a
  | Submit =>
      if shows ProfileSetupView a
      then match ProfileSetup.handleSubmit (profile a) with
           | Some p => handleProfileComplete p a
           | None => a
           end
      else a
  | Navigate section =>
      if shows DashboardView a then handleNavigation section a else a
  | Back =>
      if shows PrescriptionUploadView a || shows WellnessTipsView a
         || shows VoiceAssistantView a || shows ComingSoonView a
      then handleBack a
      else a
  end.

Definition run (es : list Event) (a : t) : t :=
  foldl (fun acc e => handle e acc) a es.

End Index.

(** * WellnessTips: the tips for the conditions of the profile *)

Module WellnessTips.

(** A tip; its [icon], an element, is left out. *)
Record Tip := { title : string; content : string; details : string }.

Record Tips := { diet : Tip; exercise : Tip; hydration : Tip; wellness : Tip }.

Definition baseTips : Tips :=
  {| diet :=
       {| title := "Today's Nutrition Tip 🍎";
          content := "Include fiber-rich foods like oats and vegetables to help manage blood sugar levels naturally.";
          details := "Aim for 25-30g of fiber daily. Good sources: oatmeal, beans, berries, vegetables." |};
     exercise :=
       {| title := "Movement for Today 🚶‍♂️";
          content := "Take a 20-minute gentle walk after your largest meal to help with digestion and blood sugar.";
          details := "Walking after meals can reduce blood sugar spikes by up to 30%." |};
     hydration :=
       {| title := "Hydration Goal 💧";
          content := "Drink 8 glasses of water throughout the day. Start with a glass when you wake up.";
          details := "Proper hydration helps kidney function and can improve energy levels." |};
     wellness :=
       {| title := "Wellness Tip 🌿";
          content := "Practice deep breathing for 5 minutes to reduce stress and lower blood pressure.";
          details := "Stress management is crucial for heart health and overall wellbeing." |} |}.

(** [baseTips.diet.content = value]. *)
Definition setDietContent (value : string) (tips : Tips) : Tips :=
  {| diet := {| title := title (diet tips); content := value; details := details (diet tips) |};
     exercise := exercise tips; hydration := hydration tips; wellness := wellness tips |}.

Definition getTodaysTips (healthConditions : list string) : Tips :=
  let tips := baseTips in
  let tips :=
    if arrayIncludes healthConditions "diabetes"
    then setDietContent
           "Choose complex carbs like brown rice and quinoa. Avoid sugary drinks and processed foods."
           tips
    else tips in
  let tips :=
    if arrayIncludes healthConditions "hypertension"
    then setDietContent
           "Reduce sodium intake. Choose fresh fruits, vegetables, and lean proteins. Limit processed foods."
           tips
    else tips in
  tips.

End WellnessTips.

(** * Properties *)

(** ** Strings *)

Lemma truthy_false (s : string) : Js.truthy s = false <-> s = "".
Proof.
  destruct s; simpl; split; intros H; try reflexivity; discriminate H.
Qed.

Lemma truthy_true (s : string) : Js.truthy s = true <-> s <> "".
Proof.
  destruct s; simpl; split; intros H.
  - discriminate H.
  - now contradiction H.
  - discriminate.
  - reflexivity.
Qed.

Lemma ws2_not_ws1 a b : Js.ws2 a b = true -> Js.ws1 a = false.
Proof.
  unfold Js.ws2, Js.ws1. intros H.
  apply andb_true_iff in H as [Ha _]. apply N.eqb_eq in Ha. now rewrite Ha.
Qed.

Lemma ws3_not_ws1 a b c : Js.ws3 a b c = true -> Js.ws1 a = false.
Proof.
  unfold Js.ws3, Js.ws1. intros H.
  destruct (N.eqb_spec (N_of_ascii a) 225) as [->|n1]; [reflexivity|].
  destruct (N.eqb_spec (N_of_ascii a) 226) as [->|n2]; [reflexivity|].
  destruct (N.eqb_spec (N_of_ascii a) 227) as [->|n3]; [reflexivity|].
  destruct (N.eqb_spec (N_of_ascii a) 239) as [->|n4]; [reflexivity|].
  simpl in H. discriminate H.
Qed.

Lemma ws3_not_ws2 a b c : Js.ws3 a b c = true -> Js.ws2 a b = false.
Proof.
  unfold Js.ws3, Js.ws2. intros H.
  destruct (N.eqb_spec (N_of_ascii a) 194) as [e|n]; [|reflexivity].
  rewrite e in H. simpl in H. discriminate H.
Qed.

Lemma dropWhiteSpace_whitespace_only l :
  Js.whitespace_only l -> Js.dropWhiteSpace l = [].
Proof.
  induction 1 as [|a r Ha _ IH|a b r Hab _ IH|a b c r Habc _ IH]; simpl.
  - reflexivity.
  - now rewrite Ha.
  - now rewrite (ws2_not_ws1 a b Hab), Hab.
  - now rewrite (ws3_not_ws1 a b c Habc), (ws3_not_ws2 a b c Habc), Habc.
Qed.

(** A string of white space trims to the empty string. *)
Lemma trim_blank (s : string) : Js.blank s -> Js.trim s = "".
Proof.
  intros H. unfold Js.trim. now rewrite (dropWhiteSpace_whitespace_only _ H).
Qed.

(** ** One commit *)

Lemma filter_idem {A} (P : A -> Prop) `{!forall x, Decision (P x)} (l : list A) :
  filter P (filter P l) = filter P l.
Proof.
  induction l as [|a l IH]; [reflexivity|].
  rewrite filter_cons. destruct (decide (P a)) as [Ha|Ha]; [|exact IH].
  rewrite filter_cons. destruct (decide (P a)); [|contradiction]. now rewrite IH.
Qed.

Ltac session_cbv :=
  cbv beta iota zeta delta
    [with_state with_mounted with_recognitionRef with_timeoutRef with_recognitions
     with_timers with_permissionRequests with_fetches with_nextId with_now with_speaking
     with_toasts with_transcriptsReady with_voiceAnswers
     mounted speechRecognitionSupported speechSynthesisSupported state recognitionRef
     timeoutRef recognitions timers permissionRequests fetches nextId now speaking toasts
     transcriptsReady voiceAnswers andb orb negb].

Lemma recognitionCleanup_eq s :
  recognitionCleanup s =
  with_recognitions (if speechRecognitionSupported s then stoppedRef s else recognitions s) s.
Proof.
  unfold recognitionCleanup, onInstance, stoppedRef.
  destruct s as [? [] ? ? [] ? ? ? ? ? ? ? ? ? ? ?]; reflexivity.
Qed.

Lemma silenceCleanup_eq s : silenceCleanup s = with_timers (cleared s) s.
Proof.
  unfold silenceCleanup, clearTimeout, cleared.
  destruct s as [? ? ? ? ? [] ? ? ? ? ? ? ? ? ? ?]; reflexivity.
Qed.

Lemma recognitionEffect_eq render s :
  recognitionEffect render s =
  with_recognitionRef
    (if speechRecognitionSupported s then Some (length (recognitions s)) else recognitionRef s)
    (with_recognitions
       (if speechRecognitionSupported s
        then recognitions s
               ++ [{| lang := selectedLanguage render; started := false; stopRequested := false |}]
        else recognitions s) s).
Proof.
  unfold recognitionEffect.
  destruct s as [? [] ? ? ? ? ? ? ? ? ? ? ? ? ? ?]; reflexivity.
Qed.

Lemma finalTranscriptEffect_eq render s :
  finalTranscriptEffect render s =
  let go := Js.truthy (Js.trim (finalTranscript render)) in
  with_state (fun st => if go && mounted s then consumed st else st)
    (with_nextId (if go then S (nextId s) else nextId s)
       (with_fetches
          (if go
           then fetches s ++ [{| fetch_id := nextId s; fetch_query := finalTranscript render;
                                 fetch_lang := selectedLanguage render |}]
           else fetches s)
          (with_transcriptsReady
             (if go then transcriptsReady s ++ [finalTranscript render] else transcriptsReady s)
             s))).
Proof.
  unfold finalTranscriptEffect, processQuery, onTranscriptReady, fetch,
    setFinalTranscript, setMicState, setState.
  destruct (Js.truthy _);
  destruct s as [[] ? [] ? ? ? ? ? ? ? ? ? ? ? ? ?]; reflexivity.
Qed.

Lemma silenceEffect_eq render s :
  silenceEffect render s =
  with_timeoutRef (if silent render then Some (nextId s) else None)
    (with_nextId (if silent render then S (nextId s) else nextId s)
       (with_timers
          (if silent render
           then cleared s ++ [{| timer_id := nextId s; due := (now s + 3000)%N |}]
           else cleared s) s)).
Proof.
  unfold silenceEffect, silent, setTimeout, clearTimeout, cleared.
  destruct (_ && _);
  destruct s as [? ? ? ? ? [] ? ? ? ? ? ? ? ? ? ?]; reflexivity.
Qed.

Ltac field_cases :=
  repeat match goal with
    | |- context [if ?c then _ else _] => destruct c
    | |- context [match ?x with Some _ => _ | None => _ end] => destruct x
    end;
  rewrite ?filter_idem, ?length_alter; reflexivity.

Lemma runEffects_eq prev s :
  runEffects prev s =
  let render := state s in
  let reinit := languageChanged prev render && speechRecognitionSupported s in
  let go := dispatches prev render in
  let sc := silenceChanged prev render in
  let id := if go then S (nextId s) else nextId s in
  {| mounted := mounted s;
     speechRecognitionSupported := speechRecognitionSupported s;
     speechSynthesisSupported := speechSynthesisSupported s;
     state := if go && mounted s then consumed render else render;
     recognitionRef := if reinit then Some (length (recognitions s)) else recognitionRef s;
     timeoutRef := if sc then (if silent render then Some id else None) else timeoutRef s;
     recognitions :=
       if reinit
       then stoppedRef s
              ++ [{| lang := selectedLanguage render; started := false; stopRequested := false |}]
       else recognitions s;
     timers :=
       if sc
       then (if silent render
             then cleared s ++ [{| timer_id := id; due := (now s + 3000)%N |}]
             else cleared s)
       else timers s;
     permissionRequests := permissionRequests s;
     fetches :=
       if go
       then fetches s ++ [{| fetch_id := nextId s; fetch_query := finalTranscript render;
                             fetch_lang := selectedLanguage render |}]
       else fetches s;
     nextId := if sc && silent render then S id else id;
     now := now s; speaking := speaking s; toasts := toasts s;
     transcriptsReady :=
       if go then transcriptsReady s ++ [finalTranscript render] else transcriptsReady s;
     voiceAnswers := voiceAnswers s |}.
Proof.
  unfold runEffects.
  change (negb (SupportedLanguage_eqb (selectedLanguage prev) (selectedLanguage (state s))))
    with (languageChanged prev (state s)).
  change (negb (MicState_eqb (micState prev) (micState (state s)))
          || negb (String.eqb (interimTranscript prev) (interimTranscript (state s))))
    with (silenceChanged prev (state s)).
  unfold dispatches.
  destruct (languageChanged prev (state s));
  destruct (negb (String.eqb (finalTranscript prev) (finalTranscript (state s))));
  destruct (silenceChanged prev (state s));
  rewrite ?silenceEffect_eq; rewrite ?finalTranscriptEffect_eq; rewrite ?recognitionEffect_eq;
  rewrite ?silenceCleanup_eq; rewrite ?recognitionCleanup_eq;
  unfold cleared, stoppedRef;
  destruct s as [m sup syn st rr tr recs tms prs fs nid nw sp ts trs vas];
  session_cbv; f_equal; field_cases.
Qed.

Lemma MicState_eqb_eq a b : MicState_eqb a b = true <-> a = b.
Proof. destruct a, b; simpl; split; intros H; try reflexivity; discriminate H. Qed.

Lemma MicState_eqb_refl a : MicState_eqb a a = true.
Proof. now destruct a. Qed.

Lemma SupportedLanguage_eqb_eq a b : SupportedLanguage_eqb a b = true <-> a = b.
Proof. destruct a, b; simpl; split; intros H; try reflexivity; discriminate H. Qed.

Lemma SupportedLanguage_eqb_refl a : SupportedLanguage_eqb a a = true.
Proof. now destruct a. Qed.

Lemma languageChanged_same st : languageChanged st st = false.
Proof. unfold languageChanged. now rewrite SupportedLanguage_eqb_refl. Qed.

Lemma silenceChanged_same st : silenceChanged st st = false.
Proof. unfold silenceChanged. now rewrite MicState_eqb_refl, String.eqb_refl. Qed.

Lemma dispatches_same st : dispatches st st = false.
Proof. unfold dispatches. now rewrite String.eqb_refl. Qed.

Lemma languageChanged_consumed st : languageChanged st (consumed st) = false.
Proof. unfold languageChanged. simpl. now rewrite SupportedLanguage_eqb_refl. Qed.

Lemma dispatches_consumed st : dispatches st (consumed st) = false.
Proof. unfold dispatches. simpl. apply andb_false_r. Qed.

Lemma silenceChanged_consumed st :
  silenceChanged st (consumed st) = negb (MicState_eqb (micState st) processing).
Proof. unfold silenceChanged. simpl. now rewrite String.eqb_refl, orb_false_r. Qed.

Lemma silent_consumed st : silent (consumed st) = false.
Proof. reflexivity. Qed.

(** A commit without a language change and without a dispatch only
    runs the silence effect, if at all. *)
Lemma runEffects_quiet prev s :
  languageChanged prev (state s) = false ->
  dispatches prev (state s) = false ->
  runEffects prev s =
  if silenceChanged prev (state s)
  then
    with_timeoutRef (if silent (state s) then Some (nextId s) else None)
      (with_nextId (if silent (state s) then S (nextId s) else nextId s)
         (with_timers
            (if silent (state s)
             then cleared s ++ [{| timer_id := nextId s; due := (now s + 3000)%N |}]
             else cleared s) s))
  else s.
Proof.
  intros Hl Hd. rewrite runEffects_eq. cbv zeta. rewrite Hl, Hd.
  destruct (silenceChanged prev (state s)), (silent (state s));
    destruct s; reflexivity.
Qed.

Lemma runEffects_same s : runEffects (state s) s = s.
Proof.
  rewrite runEffects_quiet by (apply languageChanged_same || apply dispatches_same).
  now rewrite silenceChanged_same.
Qed.

Lemma runEffects_state prev s :
  state (runEffects prev s) =
  if dispatches prev (state s) && mounted s then consumed (state s) else state s.
Proof. now rewrite runEffects_eq. Qed.

Lemma runEffects_mounted prev s : mounted (runEffects prev s) = mounted s.
Proof. now rewrite runEffects_eq. Qed.

(** The second round of a commit only clears the timer the first round
    armed, when the first round dispatched a query. *)
Lemma commit_eq prev s :
  commit prev s =
  let r := runEffects prev s in
  if dispatches prev (state s) && mounted s
     && negb (MicState_eqb (micState (state s)) processing)
  then with_timeoutRef None (with_timers (cleared r) r)
  else r.
Proof.
  unfold commit. cbv zeta.
  pose proof (runEffects_state prev s) as Hst.
  set (r := runEffects prev s) in *.
  destruct (dispatches prev (state s) && mounted s).
  - rewrite runEffects_quiet; rewrite Hst.
    + rewrite silenceChanged_consumed, silent_consumed. simpl.
      destruct (negb (MicState_eqb (micState (state s)) processing)); [|reflexivity].
      destruct r; reflexivity.
    + apply languageChanged_consumed.
    + apply dispatches_consumed.
  - simpl. rewrite <- Hst. apply runEffects_same.
Qed.

(** The second round changes no state. *)
Lemma commit_settled prev s : state (commit prev s) = state (runEffects prev s).
Proof.
  rewrite commit_eq. cbv zeta.
  destruct (_ && _); reflexivity.
Qed.

Lemma commit_mounted prev s : mounted (commit prev s) = mounted s.
Proof.
  rewrite commit_eq. cbv zeta.
  destruct (_ && _); simpl; apply runEffects_mounted.
Qed.

Lemma commit_same s : commit (state s) s = s.
Proof.
  rewrite commit_eq. cbv zeta. rewrite dispatches_same. simpl. apply runEffects_same.
Qed.

Lemma step_mounted_eq e s :
  mounted (handle e s) = true -> step e s = commit (state s) (handle e s).
Proof. unfold step. cbv zeta. now intros ->. Qed.

Lemma step_unmounted_eq e s :
  mounted (handle e s) = false -> step e s = handle e s.
Proof. unfold step. cbv zeta. now intros ->. Qed.

(** A turn that changes no state runs no effect. *)
Lemma step_no_state_change e s :
  state (handle e s) = state s -> step e s = handle e s.
Proof.
  intros H. unfold step. cbv zeta. destruct (mounted (handle e s)); [|reflexivity].
  rewrite <- H. apply commit_same.
Qed.

(** ** The handlers *)

Ltac unfold_handlers :=
  unfold handle, handleMicClick, handleMicClick_settled, handleTextSubmit, handleActionClick,
    replay, unmount, onstart, onresult, onerror, onend, silenceTimeout, processQuery_settled,
    processQuery_catch,
    micDisabled, isStarted, recognitionCleanup, silenceCleanup, processQuery,
    setMicState, setSelectedLanguage, setInterimTranscript, setFinalTranscript,
    setVoiceResponse, setTextInput, setShowTextInput, setPermissionDenied, setState,
    toast, onInstance, clearTimeout, setTimeout, fetch, getUserMedia, speakResponse,
    processQuery, onVoiceAnswer, onTranscriptReady, recognitionCleanup, silenceCleanup.

Ltac session_cbn :=
  cbn [with_state with_mounted with_recognitionRef with_timeoutRef with_recognitions
       with_timers with_permissionRequests with_fetches with_nextId with_now with_speaking
       with_toasts with_transcriptsReady with_voiceAnswers
       mounted speechRecognitionSupported speechSynthesisSupported state recognitionRef
       timeoutRef recognitions timers permissionRequests fetches nextId now speaking toasts
       transcriptsReady voiceAnswers
       micState selectedLanguage interimTranscript finalTranscript voiceResponse textInput
       showTextInput permissionDenied].

Ltac session_cbn_in H :=
  cbn [with_state with_mounted with_recognitionRef with_timeoutRef with_recognitions
       with_timers with_permissionRequests with_fetches with_nextId with_now with_speaking
       with_toasts with_transcriptsReady with_voiceAnswers
       mounted speechRecognitionSupported speechSynthesisSupported state recognitionRef
       timeoutRef recognitions timers permissionRequests fetches nextId now speaking toasts
       transcriptsReady voiceAnswers
       micState selectedLanguage interimTranscript finalTranscript voiceResponse textInput
       showTextInput permissionDenied] in H.

(** Case analysis on what the head of a term is matching on. *)
Ltac head_scrutinee t :=
  lazymatch t with
  | match ?x with _ => _ end =>
      match constr:(Set) with
      | _ => head_scrutinee x
      | _ => x
      end
  | ?f ?a => head_scrutinee a
  end.

Ltac use_equations :=
  repeat match goal with
    | E : ?x = _ |- context [?x] => rewrite E
    end.

Ltac head_cases :=
  session_cbn;
  repeat (lazymatch goal with
          | |- ?L = _ =>
              let x := head_scrutinee L in
              let E := fresh "E" in
              destruct x eqn:E
          end;
          session_cbn; use_equations).

Ltac by_handler := unfold_handlers; head_cases; try reflexivity.

Lemma stopInstance_idem r : stopInstance (stopInstance r) = stopInstance r.
Proof. unfold stopInstance. destruct r as [l [] q]; reflexivity. Qed.

Lemma silenceTimeout_idem s : silenceTimeout (silenceTimeout s) = silenceTimeout s.
Proof.
  unfold silenceTimeout, onInstance. destruct s as [? ? ? ? [i|] ? recs ? ? ? ? ? ? ? ? ?];
    [|reflexivity].
  cbv [with_recognitions recognitionRef recognitions]. f_equal.
  rewrite list_alter_alter_eq. apply list_alter_ext; [|reflexivity].
  intros x _. apply stopInstance_idem.
Qed.

Lemma foldr_silenceTimeout (l : list Timer) s :
  foldr (fun _ acc => silenceTimeout acc) s l =
  match l with [] => s | _ :: _ => silenceTimeout s end.
Proof.
  induction l as [|t l IH]; [reflexivity|].
  simpl. rewrite IH. destruct l; [reflexivity|apply silenceTimeout_idem].
Qed.

(** Time passing moves the clock, removes the timers that came due
    and, if one did, asks the current instance to stop. *)
Lemma elapse_eq ms s :
  elapse ms s =
  let t := (now s + ms)%N in
  with_recognitions
    (match filter (fun x => (due x <= t)%N) (timers s) with
     | [] => recognitions s
     | _ :: _ => stoppedRef s
     end)
    (with_timers (filter (fun x => ~ (due x <= t)%N) (timers s)) (with_now t s)).
Proof.
  unfold elapse. cbv zeta. rewrite foldr_silenceTimeout.
  destruct (filter _ (timers s)); unfold silenceTimeout, stoppedRef, onInstance;
    destruct s as [? ? ? ? [i|] ? ? ? ? ? ? ? ? ? ? ?]; reflexivity.
Qed.

Lemma handle_timeoutRef e s : timeoutRef (handle e s) = timeoutRef s.
Proof.
  destruct e; try (unfold handle; now rewrite elapse_eq); by_handler.
Qed.

Lemma handle_recognitionRef e s : recognitionRef (handle e s) = recognitionRef s.
Proof.
  destruct e; try (unfold handle; now rewrite elapse_eq); by_handler.
Qed.

Lemma handle_mounted e s :
  mounted (handle e s) = match e with Unmount => false | _ => mounted s end.
Proof.
  destruct e; try (unfold handle; now rewrite elapse_eq); by_handler.
Qed.

Lemma handle_timers e s :
  timers (handle e s) =
  match e with
  | Elapse ms => filter (fun x => ~ (due x <= now s + ms)%N) (timers s)
  | Unmount => if mounted s then cleared s else timers s
  | _ => timers s
  end.
Proof.
  destruct e; try (unfold handle; now rewrite elapse_eq); unfold cleared; by_handler.
Qed.

Lemma handle_unmounted e s : mounted s = false -> state (handle e s) = state s.
Proof.
  intros H.
  destruct e; try (unfold handle; now rewrite elapse_eq);
    unfold_handlers; rewrite ?H; head_cases; session_cbn; rewrite ?H; try reflexivity.
Qed.

Lemma handle_recognitions e s :
  recognitions (handle e s) =
  match e with
  | MicClick =>
      if mounted s && negb (micDisabled s)
      then if negb (speechRecognitionSupported s) then recognitions s
           else match micState (state s) with
                | listening => stoppedRef s
                | _ => recognitions s
                end
      else recognitions s
  | Unmount =>
      if mounted s
      then if negb (speechRecognitionSupported s) then recognitions s else stoppedRef s
      else recognitions s
  | PermissionSettled id granted =>
      match find (fun p => Nat.eqb (perm_id p) id) (permissionRequests s) with
      | Some p =>
          if granted
          then match recognitionRef s with
               | Some i => alter startInstance i (alter (setLang (perm_lang p)) i (recognitions s))
               | None => recognitions s
               end
          else recognitions s
      | None => recognitions s
      end
  | RecognitionResult i event =>
      if isStarted i s
      then if Js.truthy (snd (transcripts event))
           then alter stopInstance i (recognitions s)
           else recognitions s
      else recognitions s
  | RecognitionEnd i =>
      if isStarted i s then alter endInstance i (recognitions s) else recognitions s
  | Elapse ms =>
      match filter (fun x => (due x <= now s + ms)%N) (timers s) with
      | [] => recognitions s
      | _ :: _ => stoppedRef s
      end
  | _ => recognitions s
  end.
Proof.
  destruct e; try (unfold handle; now rewrite elapse_eq); unfold stoppedRef; by_handler;
    cbn [snd]; use_equations; reflexivity.
Qed.

(** *** Which instance may be capturing *)

Lemma captureStep_refl ref l : captureStep ref l l.
Proof. intros i r H1 H2. left. eauto. Qed.

Lemma captureStep_trans ref l1 l2 l3 :
  captureStep ref l1 l2 -> captureStep ref l2 l3 -> captureStep ref l1 l3.
Proof.
  intros H12 H23 i r3 Hi Hc.
  destruct (H23 i r3 Hi Hc) as [(r2 & Hi2 & Hc2)|Href]; [|now right].
  exact (H12 i r2 Hi2 Hc2).
Qed.

(** Altering an instance by a function that starts no capture. *)
Lemma captureStep_alter_down ref (f : Recognition -> Recognition) j l :
  (forall r, capturing (f r) = true -> capturing r = true) ->
  captureStep ref l (alter f j l).
Proof.
  intros Hf i r' Hi Hc. left.
  destruct (decide (j = i)) as [->|Hne].
  - rewrite list_lookup_alter_eq in Hi.
    destruct (l !! i) as [r|] eqn:E; simpl in Hi; [|discriminate].
    injection Hi as <-. eauto.
  - rewrite list_lookup_alter_ne in Hi by exact Hne. eauto.
Qed.

(** Altering the instance the ref holds. *)
Lemma captureStep_alter_ref (f : Recognition -> Recognition) j l :
  captureStep (Some j) l (alter f j l).
Proof.
  intros i r' Hi Hc.
  destruct (decide (j = i)) as [->|Hne]; [now right|].
  left. rewrite list_lookup_alter_ne in Hi by exact Hne. eauto.
Qed.

Lemma capturing_stopInstance r : capturing (stopInstance r) = false.
Proof. destruct r as [l [] []]; reflexivity. Qed.

Lemma capturing_endInstance r : capturing (endInstance r) = false.
Proof. reflexivity. Qed.

Lemma captureStep_stoppedRef s :
  captureStep (recognitionRef s) (recognitions s) (stoppedRef s).
Proof.
  unfold stoppedRef. destruct (recognitionRef s); [|apply captureStep_refl].
  apply captureStep_alter_ref.
Qed.

Lemma handle_captureStep e s :
  captureStep (recognitionRef s) (recognitions s) (recognitions (handle e s)).
Proof.
  rewrite handle_recognitions.
  destruct e; try apply captureStep_refl.
  - destruct (_ && _); [|apply captureStep_refl].
    destruct (negb _); [apply captureStep_refl|].
    destruct (micState _); try apply captureStep_refl. apply captureStep_stoppedRef.
  - destruct (mounted s); [|apply captureStep_refl].
    destruct (negb _); [apply captureStep_refl|apply captureStep_stoppedRef].
  - destruct (find _ _); [|apply captureStep_refl].
    destruct granted; [|apply captureStep_refl].
    destruct (recognitionRef s); [|apply captureStep_refl].
    eapply captureStep_trans; apply captureStep_alter_ref.
  - destruct (isStarted i s); [|apply captureStep_refl].
    destruct (Js.truthy _); [|apply captureStep_refl].
    apply captureStep_alter_down. intros r. now rewrite capturing_stopInstance.
  - destruct (isStarted i s); [|apply captureStep_refl].
    apply captureStep_alter_down. intros r. now rewrite capturing_endInstance.
  - destruct (filter _ _); [apply captureStep_refl|apply captureStep_stoppedRef].
Qed.

Lemma captureOwned_step ref l l' :
  (forall i r, l !! i = Some r -> capturing r = true -> ref = Some i) ->
  captureStep ref l l' ->
  forall i r, l' !! i = Some r -> capturing r = true -> ref = Some i.
Proof.
  intros Hl Hs i r' Hi Hc.
  destruct (Hs i r' Hi Hc) as [(r & Hi' & Hc')|Href]; eauto.
Qed.

(** After [stop()] on the instance the ref holds, no instance is
    capturing. *)
Lemma stoppedRef_noCapture s :
  captureOwned s ->
  forall i r, stoppedRef s !! i = Some r -> capturing r = false.
Proof.
  intros Hc i r Hi. unfold stoppedRef in Hi.
  destruct (capturing r) eqn:Hr; [|reflexivity]. exfalso.
  destruct (recognitionRef s) as [j|] eqn:Href.
  - destruct (decide (j = i)) as [->|Hne].
    + rewrite list_lookup_alter_eq in Hi.
      destruct (recognitions s !! i); simpl in Hi; [|discriminate].
      injection Hi as <-. rewrite capturing_stopInstance in Hr. discriminate.
    + rewrite list_lookup_alter_ne in Hi by exact Hne.
      pose proof (Hc i r Hi Hr) as H. rewrite Href in H. injection H as ->. now apply Hne.
  - pose proof (Hc i r Hi Hr) as H. rewrite Href in H. discriminate.
Qed.

(** *** The timer *)

Lemma cleared_nil s : timerOwned s -> cleared s = [].
Proof.
  unfold timerOwned, cleared. destruct (timers s) as [|t [|t' l]]; intros H.
  - now destruct (timeoutRef s).
  - rewrite H. rewrite filter_cons. destruct (decide _) as [Hd|_]; [now contradiction Hd|reflexivity].
  - contradiction.
Qed.

Lemma timerOwned_filter (P : Timer -> Prop) `{!forall x, Decision (P x)}
    (ref : option nat) (l : list Timer) :
  match l with [] => True | [t] => ref = Some (timer_id t) | _ :: _ :: _ => False end ->
  match filter P l with
  | [] => True
  | [t] => ref = Some (timer_id t)
  | _ :: _ :: _ => False
  end.
Proof.
  destruct l as [|t [|t' l]]; intros Hl; try contradiction; [exact I|].
  rewrite filter_cons. destruct (decide (P t)); [exact Hl|exact I].
Qed.

Lemma handle_timerOwned e s : timerOwned s -> timerOwned (handle e s).
Proof.
  intros H. unfold timerOwned. rewrite handle_timers, handle_timeoutRef.
  destruct e; try exact H.
  - destruct (mounted s); [|exact H]. now rewrite cleared_nil.
  - now apply timerOwned_filter.
Qed.

Lemma handle_timers_nil e s : timers s = [] -> timers (handle e s) = [].
Proof.
  intros H. rewrite handle_timers.
  destruct e; try exact H.
  - destruct (mounted s); [|exact H]. unfold cleared. rewrite H. now destruct (timeoutRef s).
  - now rewrite H.
Qed.

(** ** The invariants hold in every reachable session *)

Lemma handle_captureOwned e s : captureOwned s -> captureOwned (handle e s).
Proof.
  intros H. unfold captureOwned. rewrite handle_recognitionRef.
  apply (captureOwned_step _ (recognitions s)); [exact H|apply handle_captureStep].
Qed.

Lemma handle_committing e s :
  Consistent s -> mounted (handle e s) = true -> Committing (state s) (handle e s).
Proof.
  intros [Hto Htg Hco Hfc] Hm. split.
  - exact Hm.
  - now apply handle_timerOwned.
  - intros Hmic Hint Hne.
    destruct Htg as (Hms & Hl & Hi).
    { intros Hnil. apply Hne. now apply handle_timers_nil. }
    repeat split; [exact Hm|congruence|congruence].
  - now apply handle_captureOwned.
  - intros Hf. unfold finalConsumed. now rewrite <- Hf.
Qed.

Lemma handle_Unmount_state s : state (handle Unmount s) = state s.
Proof. by_handler. Qed.

Lemma handle_unmounted_consistent e s :
  Consistent s -> mounted (handle e s) = false -> Consistent (handle e s).
Proof.
  intros [Hto Htg Hco Hfc] Hm.
  assert (timers (handle e s) = [] /\ state (handle e s) = state s) as [Hnil Hst].
  { destruct (mounted s) eqn:Hms.
    - rewrite handle_mounted in Hm. destruct e; try congruence.
      split; [|apply handle_Unmount_state].
      rewrite handle_timers, Hms. now apply cleared_nil.
    - split; [|now apply handle_unmounted].
      apply handle_timers_nil.
      destruct (timers s) eqn:Ht; [reflexivity|].
      destruct Htg as (Hms' & _); [now rewrite Ht|congruence]. }
  split.
  - unfold timerOwned. now rewrite Hnil.
  - intros Hne. now rewrite Hnil in Hne.
  - now apply handle_captureOwned.
  - unfold finalConsumed. now rewrite Hst.
Qed.

Lemma runEffects_timerOwned prev s : timerOwned s -> timerOwned (runEffects prev s).
Proof.
  intros H. unfold timerOwned. rewrite runEffects_eq. session_cbn.
  rewrite (cleared_nil s H).
  destruct (silenceChanged prev (state s)); [|exact H].
  destruct (silent (state s)); [reflexivity|exact I].
Qed.

Lemma runEffects_captureOwned prev s : captureOwned s -> captureOwned (runEffects prev s).
Proof.
  intros H. unfold captureOwned. rewrite runEffects_eq. session_cbn.
  destruct (languageChanged prev (state s) && speechRecognitionSupported s); [|exact H].
  intros i r Hi Hc. exfalso.
  apply lookup_app_Some in Hi as [Hi|[_ Hi]].
  - rewrite (stoppedRef_noCapture s H i r Hi) in Hc. discriminate.
  - destruct (i - length (stoppedRef s)) as [|k]; simpl in Hi; [|discriminate].
    injection Hi as <-. discriminate.
Qed.

Lemma commit_timerOwned prev s : timerOwned s -> timerOwned (commit prev s).
Proof.
  intros H. apply (runEffects_timerOwned prev) in H.
  rewrite commit_eq. cbv zeta. destruct (_ && _); [|exact H].
  unfold timerOwned. session_cbn. now rewrite cleared_nil.
Qed.

Lemma commit_captureOwned prev s : captureOwned s -> captureOwned (commit prev s).
Proof.
  intros H. apply (runEffects_captureOwned prev) in H.
  rewrite commit_eq. cbv zeta. destruct (_ && _); exact H.
Qed.

Lemma silent_true st :
  silent st = true <-> micState st = listening /\ interimTranscript st = "".
Proof.
  unfold silent. rewrite andb_true_iff, negb_true_iff, MicState_eqb_eq, truthy_false.
  reflexivity.
Qed.

Lemma silenceChanged_false prev st :
  silenceChanged prev st = false <->
  micState prev = micState st /\ interimTranscript prev = interimTranscript st.
Proof.
  unfold silenceChanged.
  rewrite orb_false_iff, !negb_false_iff, MicState_eqb_eq, String.eqb_eq. reflexivity.
Qed.

Lemma commit_timerGuard prev s : Committing prev s -> timerGuard (commit prev s).
Proof.
  intros [Hm Hto Htg _ _] Hne.
  rewrite commit_mounted, commit_settled. split; [exact Hm|].
  rewrite commit_eq in Hne. cbv zeta in Hne.
  pose proof (runEffects_timerOwned prev s Hto) as Hto'.
  destruct (dispatches prev (state s) && mounted s
            && negb (MicState_eqb (micState (state s)) processing)) eqn:Hc2.
  { session_cbn_in Hne. now rewrite cleared_nil in Hne. }
  rewrite runEffects_eq in Hne |- *. session_cbn_in Hne. session_cbn.
  rewrite (cleared_nil s Hto) in Hne. rewrite Hm, andb_true_r in *.
  destruct (silenceChanged prev (state s)) eqn:Hsc.
  - destruct (silent (state s)) eqn:Hsil; [|now contradiction Hne].
    apply silent_true in Hsil as [Hl Hi].
    destruct (dispatches prev (state s)); [|now split].
    rewrite Hl in Hc2. discriminate.
  - apply silenceChanged_false in Hsc as [Hmic Hint].
    destruct (Htg Hmic Hint Hne) as (_ & Hl & Hi).
    destruct (dispatches prev (state s)); [|now split].
    rewrite Hl in Hc2. discriminate.
Qed.

Lemma commit_finalConsumed prev s : Committing prev s -> finalConsumed (commit prev s).
Proof.
  intros [Hm _ _ _ Hfc]. unfold finalConsumed.
  rewrite commit_settled, runEffects_state, Hm, andb_true_r.
  destruct (dispatches prev (state s)) eqn:Hd; [reflexivity|].
  unfold dispatches in Hd. apply andb_false_iff in Hd as [Hd|Hd]; [|exact Hd].
  apply negb_false_iff, String.eqb_eq in Hd. now apply Hfc.
Qed.

Lemma commit_consistent prev s : Committing prev s -> Consistent (commit prev s).
Proof.
  intros H. split.
  - apply commit_timerOwned, H.
  - now apply commit_timerGuard.
  - apply commit_captureOwned, H.
  - now apply commit_finalConsumed.
Qed.

Lemma step_consistent e s : Consistent s -> Consistent (step e s).
Proof.
  intros H. destruct (mounted (handle e s)) eqn:Hm.
  - rewrite step_mounted_eq by exact Hm. now apply commit_consistent, handle_committing.
  - rewrite step_unmounted_eq by exact Hm. now apply handle_unmounted_consistent.
Qed.

Lemma mount_eq a b appLang :
  mount a b appLang =
  {| mounted := true;
     speechRecognitionSupported := a;
     speechSynthesisSupported := b;
     state := initialState appLang;
     recognitionRef := if a then Some 0 else None;
     timeoutRef := None;
     recognitions :=
       if a
       then [{| lang := initialLanguage appLang; started := false; stopRequested := false |}]
       else [];
     timers := [];
     permissionRequests := []; fetches := [];
     nextId := 1; now := 0%N; speaking := None; toasts := [];
     transcriptsReady := []; voiceAnswers := [] |}.
Proof. destruct a; reflexivity. Qed.

Lemma mount_consistent a b appLang : Consistent (mount a b appLang).
Proof.
  rewrite mount_eq. split.
  - exact I.
  - intros H. now contradiction H.
  - intros i r Hi Hc. session_cbn_in Hi.
    destruct a; [|discriminate].
    destruct i; simpl in Hi; [|discriminate]. injection Hi as <-. discriminate.
  - reflexivity.
Qed.

Lemma run_consistent es s : Consistent s -> Consistent (run es s).
Proof.
  revert s. induction es as [|e es IH]; intros s H; [exact H|].
  apply IH. now apply step_consistent.
Qed.

Lemma reachable_consistent s : reachable s -> Consistent s.
Proof.
  intros (a & b & appLang & es & ->). apply run_consistent, mount_consistent.
Qed.

Lemma reachable_step e s : reachable s -> reachable (step e s).
Proof.
  intros (a & b & appLang & es & ->). exists a, b, appLang, (es ++ [e])%list.
  unfold run. now rewrite foldl_app.
Qed.

Lemma reachable_run es s : reachable s -> reachable (run es s).
Proof.
  revert s. induction es as [|e es IH]; intros s H; [exact H|].
  apply IH. now apply reachable_step.
Qed.

(** ** What a turn leaves alone *)

Lemma commit_frame prev s :
  let c := commit prev s in
  mounted c = mounted s
  /\ speechRecognitionSupported c = speechRecognitionSupported s
  /\ speechSynthesisSupported c = speechSynthesisSupported s
  /\ permissionRequests c = permissionRequests s
  /\ now c = now s
  /\ speaking c = speaking s
  /\ toasts c = toasts s
  /\ voiceAnswers c = voiceAnswers s.
Proof.
  cbv zeta. rewrite commit_eq. cbv zeta. rewrite runEffects_eq.
  destruct (_ && _); repeat split.
Qed.

Lemma commit_no_dispatch prev s :
  dispatches prev (state s) = false ->
  let c := commit prev s in
  state c = state s
  /\ fetches c = fetches s
  /\ transcriptsReady c = transcriptsReady s.
Proof.
  intros Hd. cbv zeta. rewrite commit_eq. cbv zeta. rewrite Hd. cbn [andb].
  rewrite runEffects_eq. cbv zeta. rewrite Hd. repeat split.
Qed.

Lemma commit_recognitions prev s :
  languageChanged prev (state s) = false ->
  recognitions (commit prev s) = recognitions s
  /\ recognitionRef (commit prev s) = recognitionRef s.
Proof.
  intros Hl. rewrite commit_eq. cbv zeta. rewrite runEffects_eq. cbv zeta. rewrite Hl.
  destruct (_ && _ && _); split; reflexivity.
Qed.

Lemma step_frame e s :
  let h := handle e s in
  let s' := step e s in
  mounted s' = mounted h
  /\ speechRecognitionSupported s' = speechRecognitionSupported h
  /\ speechSynthesisSupported s' = speechSynthesisSupported h
  /\ permissionRequests s' = permissionRequests h
  /\ now s' = now h
  /\ speaking s' = speaking h
  /\ toasts s' = toasts h
  /\ voiceAnswers s' = voiceAnswers h.
Proof.
  unfold step. cbv zeta.
  pose proof (commit_frame (state s) (handle e s)) as H. cbv zeta in H.
  destruct (mounted (handle e s)) eqn:Hm; [exact H|].
  split; [exact Hm|repeat split].
Qed.

Lemma step_no_dispatch e s :
  dispatches (state s) (state (handle e s)) = false ->
  let h := handle e s in
  let s' := step e s in
  state s' = state h /\ fetches s' = fetches h /\ transcriptsReady s' = transcriptsReady h.
Proof.
  intros Hd. unfold step. cbv zeta. destruct (mounted (handle e s)).
  - now apply commit_no_dispatch.
  - repeat split.
Qed.

Lemma step_recognitions e s :
  languageChanged (state s) (state (handle e s)) = false ->
  recognitions (step e s) = recognitions (handle e s)
  /\ recognitionRef (step e s) = recognitionRef s.
Proof.
  intros Hl. rewrite <- (handle_recognitionRef e s).
  unfold step. cbv zeta. destruct (mounted (handle e s)).
  - now apply commit_recognitions.
  - split; reflexivity.
Qed.

(** A handler that leaves [finalTranscript] alone dispatches nothing. *)
Lemma dispatches_final_same prev st :
  finalTranscript prev = finalTranscript st -> dispatches prev st = false.
Proof. intros H. unfold dispatches. now rewrite H, String.eqb_refl. Qed.

Lemma languageChanged_lang_same prev st :
  selectedLanguage prev = selectedLanguage st -> languageChanged prev st = false.
Proof. intros H. unfold languageChanged. now rewrite H, SupportedLanguage_eqb_refl. Qed.

(** ** The fallback responder *)


Lemma generateMockResponse_disclaimer l q :
  disclaimer (generateMockResponse l q) = disclaimerText l.
Proof.
  unfold generateMockResponse. cbv zeta.
  match goal with |- context [let '(_, _) := ?x in _] => now destruct x end.
Qed.


(** ** The objects the component builds *)

Lemma member_answer_text r : member "answer_text" (toJson r) = defined (JString (answer_text r)).
Proof. unfold toJson. now destruct (actions r). Qed.

Lemma toBoolean_toJson r : toBoolean (toJson r) = true.
Proof. reflexivity. Qed.



(** ** Speech results *)

Lemma handle_result_frame i event s :
  let h := handle (RecognitionResult i event) s in
  micState (state h) = micState (state s)
  /\ selectedLanguage (state h) = selectedLanguage (state s)
  /\ voiceResponse (state h) = voiceResponse (state s)
  /\ permissionDenied (state h) = permissionDenied (state s)
  /\ fetches h = fetches s
  /\ transcriptsReady h = transcriptsReady s
  /\ mounted h = mounted s.
Proof. cbv zeta. repeat split; by_handler. Qed.

Lemma handle_result_final i event s :
  finalTranscript (state (handle (RecognitionResult i event) s)) =
  if isStarted i s && mounted s && Js.truthy (snd (transcripts event))
  then snd (transcripts event)
  else finalTranscript (state s).
Proof. by_handler; cbn [snd]; use_equations; reflexivity. Qed.

Lemma handle_result_interim i event s :
  interimTranscript (state (handle (RecognitionResult i event) s)) =
  if isStarted i s && mounted s
  then if Js.truthy (snd (transcripts event)) then "" else fst (transcripts event)
  else interimTranscript (state s).
Proof. by_handler; cbn [snd fst]; use_equations; reflexivity. Qed.

(** ** Requests that settle *)


(** * The claims *)

Lemma step_handle_id e s : handle e s = s -> step e s = s.
Proof.
  intros H. rewrite step_no_state_change by now rewrite H. exact H.
Qed.

(** ** C1: a failing responder call is answered by the fallback *)




(** ** C8: the blood sugar scenario *)

(** C8.  In English, the fallback answer to "what is my blood sugar"
    contains the value, the date and the status of the mocked Blood
    Sugar report, and offers exactly a reminder and an appointment
    action; a session whose responder call fails for that utterance
    shows this answer. *)
Theorem blood_sugar_scenario :
  let r := generateMockResponse en_US "what is my blood sugar" in
  findReport "Blood Sugar"
  = Some (Report.mk "Blood Sugar" "145 mg/dL" "2024-01-15" "elevated")
  /\ Js.includes (answer_text r) "145 mg/dL" = true
  /\ Js.includes (answer_text r) "2024-01-15" = true
  /\ Js.includes (answer_text r) "elevated" = true
  /\ actionTypes r = [reminder; appointment]
  /\ voiceResponse
       (state (run [ShowTextInput; TypeText "what is my blood sugar"; SubmitText;
                    FetchSettled 1 NetworkError]
                   (mount true true "en")))
     = toJson r.
Proof. vm_compute. repeat split. Qed.

(** ** C9: a blank utterance dispatches nothing *)

(** C9.  A speech result whose final text is empty or white space, and
    a typed submission that is empty or white space, dispatch no
    query: no call is issued, [onTranscriptReady] is not called, and
    [micState] and [voiceResponse] stay as they are; the turn of the
    blank submission changes nothing at all, and the final-transcript
    effect does nothing on a blank [finalTranscript]. *)
Theorem blank_utterance_dispatches_nothing (s : Session) :
  (forall i event,
      Js.blank (snd (transcripts event)) ->
      let s' := step (RecognitionResult i event) s in
      fetches s' = fetches s
      /\ transcriptsReady s' = transcriptsReady s
      /\ micState (state s') = micState (state s)
      /\ voiceResponse (state s') = voiceResponse (state s))
  /\ (forall render, Js.blank (finalTranscript render) -> finalTranscriptEffect render s = s)
  /\ (Js.blank (textInput (state s)) ->
      handleTextSubmit s = s /\ step SubmitText s = s).
Proof.
  split; [|split].
  - intros i event Hb. cbv zeta.
    destruct (handle_result_frame i event s) as (Hmic & _ & Hv & _ & Hf & Ht & _).
    destruct (step_no_dispatch (RecognitionResult i event) s) as (Hst & Hf' & Ht').
    { unfold dispatches. rewrite handle_result_final.
      destruct (_ && _ && _).
      - rewrite (trim_blank _ Hb). apply andb_false_r.
      - now rewrite String.eqb_refl. }
    rewrite Hst, Hf', Ht'. now repeat split.
  - intros render Hb. unfold finalTranscriptEffect. now rewrite (trim_blank _ Hb).
  - intros Hb.
    assert (handleTextSubmit s = s) as H.
    { unfold handleTextSubmit. now rewrite (trim_blank _ Hb). }
    split; [exact H|].
    apply step_handle_id. unfold handle. rewrite H. now destruct (_ && _).
Qed.

(** A final result of two spaces while listening, and a typed tab. *)
Lemma blank_utterance_dispatches_nothing_witness :
  let s := run [MicClick; PermissionSettled 1 true; RecognitionStart 0;
                ShowTextInput; TypeText (String (ascii_of_nat 9) "")]
               (mount true true "en") in
  let event := {| results := [{| transcript := "  "; isFinal := true |}]; resultIndex := 0 |} in
  (Js.blank (snd (transcripts event)) /\ Js.blank (textInput (state s)))
  /\ fetches (step (RecognitionResult 0 event) s) = fetches s
  /\ step SubmitText s = s.
Proof.
  cbv zeta.
  assert (Js.blank "  ") as Hb1.
  { apply Js.wo_one; [reflexivity|]. apply Js.wo_one; [reflexivity|]. apply Js.wo_nil. }
  assert (Js.blank (String (ascii_of_nat 9) "")) as Hb2.
  { apply Js.wo_one; [reflexivity|]. apply Js.wo_nil. }
  split; [split; [exact Hb1|exact Hb2]|].
  destruct (blank_utterance_dispatches_nothing
              (run [MicClick; PermissionSettled 1 true; RecognitionStart 0;
                    ShowTextInput; TypeText (String (ascii_of_nat 9) "")]
                   (mount true true "en"))) as (H1 & _ & H3).
  split.
  - exact (proj1 (H1 0 {| results := [{| transcript := "  "; isFinal := true |}];
                          resultIndex := 0 |} Hb1)).
  - exact (proj2 (H3 Hb2)).
Defined.

(** ** C10: the microphone control while processing *)

(** C10.  While [micState] is [processing] a click on the microphone
    button changes nothing: the button is disabled.  [handleMicClick]
    itself, were it called, starts and stops no capture, requests no
    permission and leaves [micState], the transcripts, the language,
    the response and [permissionDenied] as they are; where speech
    recognition is supported it changes nothing at all. *)
Theorem mic_click_while_processing (s : Session) :
  micState (state s) = processing ->
  step MicClick s = s
  /\ (let s' := handleMicClick s in
      micState (state s') = micState (state s)
      /\ interimTranscript (state s') = interimTranscript (state s)
      /\ finalTranscript (state s') = finalTranscript (state s)
      /\ selectedLanguage (state s') = selectedLanguage (state s)
      /\ voiceResponse (state s') = voiceResponse (state s)
      /\ permissionDenied (state s') = permissionDenied (state s)
      /\ recognitions s' = recognitions s
      /\ permissionRequests s' = permissionRequests s
      /\ timers s' = timers s
      /\ fetches s' = fetches s)
  /\ (speechRecognitionSupported s = true -> handleMicClick s = s).
Proof.
  intros Hp. split; [|split].
  - apply step_handle_id. unfold handle, micDisabled. rewrite Hp.
    cbn [MicState_eqb orb negb]. rewrite andb_false_r. reflexivity.
  - cbv zeta. unfold handleMicClick. rewrite Hp.
    destruct (negb (speechRecognitionSupported s)); [|repeat split; exact Hp].
    unfold setShowTextInput, setState, toast. session_cbn.
    destruct (mounted s); repeat split; exact Hp.
  - intros Hs. unfold handleMicClick. rewrite Hs, Hp. reflexivity.
Qed.

(** A session that is processing a typed query. *)
Lemma mic_click_while_processing_witness :
  let s := run [ShowTextInput; TypeText "hello"; SubmitText] (mount true true "en") in
  micState (state s) = processing /\ step MicClick s = s.
Proof.
  cbv zeta.
  assert (micState (state (run [ShowTextInput; TypeText "hello"; SubmitText]
                               (mount true true "en"))) = processing) as H
    by (vm_compute; reflexivity).
  split; [exact H|].
  exact (proj1 (mic_click_while_processing _ H)).
Defined.

(** ** C5: one timer, one capture *)

Lemma filter_none {A} (P : A -> Prop) `{!forall x, Decision (P x)} (l : list A) :
  (forall i x, l !! i = Some x -> ~ P x) -> filter P l = [].
Proof.
  induction l as [|a l IH]; intros Hl; [reflexivity|].
  rewrite filter_cons. destruct (decide (P a)) as [Ha|_].
  - now destruct (Hl 0 a eq_refl).
  - apply IH. intros i x Hi. exact (Hl (S i) x Hi).
Qed.

Lemma owned_at_most_one {A} (P : A -> Prop) `{!forall x, Decision (P x)}
    (l : list A) (k : option nat) :
  (forall i x, l !! i = Some x -> P x -> k = Some i) -> length (filter P l) <= 1.
Proof.
  revert k. induction l as [|a l IH]; intros k Hl; [simpl; lia|].
  rewrite filter_cons. destruct (decide (P a)) as [Ha|_].
  - rewrite filter_none; [simpl; lia|].
    intros i x Hi Hx.
    pose proof (Hl 0 a eq_refl Ha) as H0. pose proof (Hl (S i) x Hi Hx) as H1.
    congruence.
  - apply (IH (match k with Some (S j) => Some j | _ => None end)).
    intros i x Hi Hx. now rewrite (Hl (S i) x Hi Hx).
Qed.

(** C5.  After any sequence of events whatever, from any mount: at
    most one timer is pending, and it is the one [timeoutRef] holds;
    at most one recognition instance is capturing (started and not
    asked to stop). *)
Theorem at_most_one_timer_and_capture
    (recognitionSupported synthesisSupported : bool) (appLang : string) (es : list Event) :
  let s := run es (mount recognitionSupported synthesisSupported appLang) in
  length (timers s) <= 1
  /\ (timers s = [] \/ exists t, timers s = [t] /\ timeoutRef s = Some (timer_id t))
  /\ length (filter (fun r => capturing r = true) (recognitions s)) <= 1.
Proof.
  cbv zeta.
  destruct (run_consistent es _ (mount_consistent recognitionSupported synthesisSupported appLang))
    as [Hto _ Hco _].
  unfold timerOwned in Hto.
  destruct (timers (run es _)) as [|t [|t' l]]; try contradiction.
  - split; [simpl; lia|]. split; [now left|]. now apply (owned_at_most_one _ _ _ Hco).
  - split; [simpl; lia|]. split; [right; eauto|]. now apply (owned_at_most_one _ _ _ Hco).
Qed.

(** An instance that was asked to stop may still await its [end]
    event while the next one captures: here the first capture is
    started and the language is switched before its [start] event
    arrives; the second click starts the fresh instance. *)
Lemma stopping_capture_awaits_its_end :
  let s := run [MicClick; PermissionSettled 1 true; SelectLanguage hi_IN; MicClick;
                PermissionSettled 2 true]
               (mount true true "en") in
  recognitions s
  = [{| lang := en_US; started := true; stopRequested := true |};
     {| lang := hi_IN; started := true; stopRequested := false |}]
  /\ recognitionRef s = Some 1.
Proof. vm_compute. split; reflexivity. Qed.

(** ** C6: switching the language *)

Lemma handle_SelectLanguage_state value s :
  mounted s = true ->
  let h := handle (SelectLanguage value) s in
  selectedLanguage (state h) = value
  /\ micState (state h) = micState (state s)
  /\ interimTranscript (state h) = interimTranscript (state s)
  /\ finalTranscript (state h) = finalTranscript (state s).
Proof.
  intros Hm. cbv zeta. unfold_handlers. rewrite Hm. session_cbn. rewrite ?Hm.
  repeat split.
Qed.

Lemma lang_stopInstance r : lang (stopInstance r) = lang r.
Proof. unfold stopInstance. now destruct (started r). Qed.

Lemma started_stopInstance r : started (stopInstance r) = started r.
Proof. unfold stopInstance. now destruct (started r) eqn:E. Qed.

Lemma stoppedRef_lookup s i r :
  recognitions s !! i = Some r ->
  exists r', stoppedRef s !! i = Some r' /\ lang r' = lang r /\ started r' = started r.
Proof.
  intros Hi. unfold stoppedRef. destruct (recognitionRef s) as [j|]; [|eauto].
  destruct (decide (j = i)) as [->|Hne].
  - rewrite list_lookup_alter_eq, Hi. simpl. eexists. split; [reflexivity|].
    split; [apply lang_stopInstance|apply started_stopInstance].
  - rewrite list_lookup_alter_ne by exact Hne. eauto.
Qed.

Lemma length_stoppedRef s : length (stoppedRef s) = length (recognitions s).
Proof. unfold stoppedRef. destruct (recognitionRef s); [apply length_alter|reflexivity]. Qed.

(** C6, as the code has it.  Selecting another language leaves
    [micState] as it is and never changes the language tag of an
    existing recognition instance, nor starts one; but the cleanup of
    the recognition effect asks the instance the ref holds to stop,
    and the effect puts a fresh instance with the new tag into the
    ref.  A click on the microphone while idle requests permission
    with the language selected at that click, and when it is granted
    the instance then in the ref gets that language and is started. *)
Theorem language_switch (s : Session) :
  (forall value,
      mounted s = true ->
      speechRecognitionSupported s = true ->
      selectedLanguage (state s) <> value ->
      let s' := step (SelectLanguage value) s in
      micState (state s') = micState (state s)
      /\ selectedLanguage (state s') = value
      /\ recognitions s'
         = (stoppedRef s ++ [{| lang := value; started := false; stopRequested := false |}])%list
      /\ recognitionRef s' = Some (length (recognitions s))
      /\ (forall i r, recognitions s !! i = Some r ->
            exists r', recognitions s' !! i = Some r'
                       /\ lang r' = lang r /\ started r' = started r))
  /\ (mounted s = true ->
      speechRecognitionSupported s = true ->
      micState (state s) = idle ->
      permissionDenied (state s) = false ->
      permissionRequests (step MicClick s)
      = (permissionRequests s
           ++ [{| perm_id := nextId s; perm_lang := selectedLanguage (state s) |}])%list)
  /\ (forall id p j,
      find (fun p => Nat.eqb (perm_id p) id) (permissionRequests s) = Some p ->
      recognitionRef s = Some j ->
      recognitions (step (PermissionSettled id true) s)
      = alter startInstance j (alter (setLang (perm_lang p)) j (recognitions s))).
Proof.
  split; [|split].
  - intros value Hm Hs Hv. cbv zeta.
    destruct (handle_SelectLanguage_state value s Hm) as (Hl & Hmic & Hint & Hfin).
    assert (recognitions (handle (SelectLanguage value) s) = recognitions s) as Hrec
      by apply handle_recognitions.
    pose proof (handle_recognitionRef (SelectLanguage value) s) as Href.
    assert (mounted (handle (SelectLanguage value) s) = true) as Hmh
      by (rewrite handle_mounted; exact Hm).
    assert (speechRecognitionSupported (handle (SelectLanguage value) s) = true) as Hsh.
    { unfold_handlers. rewrite Hm. exact Hs. }
    assert (stoppedRef (handle (SelectLanguage value) s) = stoppedRef s) as Hstop.
    { unfold stoppedRef. now rewrite Href, Hrec. }
    rewrite step_mounted_eq by exact Hmh.
    rewrite commit_eq. cbv zeta.
    rewrite (dispatches_final_same _ _ (eq_sym Hfin)). cbn [andb].
    rewrite runEffects_eq. cbv zeta. session_cbn.
    rewrite (dispatches_final_same _ _ (eq_sym Hfin)). cbn [andb].
    assert (languageChanged (state s) (state (handle (SelectLanguage value) s)) = true) as Hlc.
    { unfold languageChanged. rewrite Hl. apply negb_true_iff.
      destruct (SupportedLanguage_eqb _ _) eqn:E; [|reflexivity].
      apply SupportedLanguage_eqb_eq in E. contradiction. }
    rewrite Hlc, Hsh, Hrec, Hstop, Hl. cbn [andb].
    repeat split; try assumption.
    intros i r Hi. destruct (stoppedRef_lookup s i r Hi) as (r' & Hi' & Hr').
    exists r'. split; [|exact Hr']. now apply lookup_app_l_Some.
  - intros Hm Hs Hidle Hpd.
    destruct (step_frame MicClick s) as (_ & _ & _ & Hp & _). rewrite Hp.
    unfold handle, micDisabled, handleMicClick, getUserMedia.
    rewrite Hm, Hs, Hidle, Hpd. reflexivity.
  - intros id p j Hf Href.
    assert (state (handle (PermissionSettled id true) s) = state s) as Hst.
    { unfold handle. rewrite Hf. unfold handleMicClick_settled, onInstance.
      session_cbn. rewrite Href. reflexivity. }
    rewrite step_no_state_change by exact Hst.
    rewrite handle_recognitions, Hf, Href. reflexivity.
Qed.

(** A capture in English is running when Hindi is selected; and a
    click on the microphone of a fresh session, granted. *)
Lemma language_switch_witness :
  let s := run [MicClick; PermissionSettled 1 true; RecognitionStart 0]
               (mount true true "en") in
  let m := mount true true "kn" in
  (mounted s = true /\ speechRecognitionSupported s = true
   /\ selectedLanguage (state s) <> hi_IN)
  /\ (mounted m = true /\ speechRecognitionSupported m = true
      /\ micState (state m) = idle /\ permissionDenied (state m) = false)
  /\ micState (state (step (SelectLanguage hi_IN) s)) = listening
  /\ recognitionRef (step (SelectLanguage hi_IN) s) = Some 1
  /\ permissionRequests (step MicClick m) = [{| perm_id := 1; perm_lang := kn_IN |}].
Proof.
  cbv zeta.
  assert (mounted (run [MicClick; PermissionSettled 1 true; RecognitionStart 0]
                       (mount true true "en")) = true) as H1 by (vm_compute; reflexivity).
  assert (speechRecognitionSupported
            (run [MicClick; PermissionSettled 1 true; RecognitionStart 0]
                 (mount true true "en")) = true) as H2 by (vm_compute; reflexivity).
  assert (selectedLanguage
            (state (run [MicClick; PermissionSettled 1 true; RecognitionStart 0]
                        (mount true true "en"))) <> hi_IN) as H3 by (vm_compute; discriminate).
  assert (mounted (mount true true "kn") = true) as H4 by (vm_compute; reflexivity).
  assert (speechRecognitionSupported (mount true true "kn") = true) as H5
    by (vm_compute; reflexivity).
  assert (micState (state (mount true true "kn")) = idle) as H6 by (vm_compute; reflexivity).
  assert (permissionDenied (state (mount true true "kn")) = false) as H7
    by (vm_compute; reflexivity).
  split; [auto|]. split; [auto|].
  destruct (language_switch
              (run [MicClick; PermissionSettled 1 true; RecognitionStart 0]
                   (mount true true "en"))) as (Ha & _ & _).
  destruct (Ha hi_IN H1 H2 H3) as (Hmic & _ & _ & Href & _).
  destruct (language_switch (mount true true "kn")) as (_ & Hb & _).
  split; [exact Hmic|]. split; [exact Href|]. exact (Hb H4 H5 H6 H7).
Defined.

(** C6, as the claim states it, fails: selecting Hindi while an
    English capture is running asks that capture to stop; its [end]
    event then puts the session back to [idle]. *)
Lemma language_switch_stops_active_capture :
  let s := run [MicClick; PermissionSettled 1 true; RecognitionStart 0]
               (mount true true "en") in
  micState (state s) = listening
  /\ recognitions s !! 0 = Some {| lang := en_US; started := true; stopRequested := false |}
  /\ recognitions (step (SelectLanguage hi_IN) s) !! 0
     = Some {| lang := en_US; started := true; stopRequested := true |}
  /\ micState (state (run [SelectLanguage hi_IN; RecognitionEnd 0] s)) = idle.
Proof. vm_compute. repeat split. Qed.

(** The language of a capture is the one selected at the click, not
    at the grant: of two clicks in a row the second is granted after
    Hindi has been selected, and starts the fresh instance in
    English. *)
Lemma capture_language_is_the_one_at_the_click :
  let s := run [MicClick; MicClick; PermissionSettled 1 true; SelectLanguage hi_IN;
                PermissionSettled 2 true; RecognitionStart 1]
               (mount true true "en") in
  selectedLanguage (state s) = hi_IN
  /\ micState (state s) = listening
  /\ recognitionRef s = Some 1
  /\ recognitions s !! 1 = Some {| lang := en_US; started := true; stopRequested := false |}.
Proof. vm_compute. repeat split. Qed.

(** ** C7: unmounting *)





(** ** C4: the permission block *)

Lemma handle_permissionDenied e s :
  permissionDenied (state (handle e s)) =
  match e with
  | RecognitionStart i =>
      if isStarted i s then (if mounted s then false else permissionDenied (state s))
      else permissionDenied (state s)
  | RecognitionError i error =>
      if isStarted i s
      then if String.eqb error "not-allowed"
           then (if mounted s then true else permissionDenied (state s))
           else permissionDenied (state s)
      else permissionDenied (state s)
  | PermissionSettled id granted =>
      match find (fun p => Nat.eqb (perm_id p) id) (permissionRequests s) with
      | Some p =>
          if granted then permissionDenied (state s)
          else if mounted s then true else permissionDenied (state s)
      | None => permissionDenied (state s)
      end
  | _ => permissionDenied (state s)
  end.
Proof.
  destruct e; try (unfold handle; now rewrite elapse_eq); by_handler;
    (destruct (mounted s); reflexivity).
Qed.

Lemma handle_permissionRequests e s :
  permissionRequests (handle e s) =
  match e with
  | MicClick =>
      if mounted s && negb (micDisabled s)
      then if negb (speechRecognitionSupported s) then permissionRequests s
           else match micState (state s) with
                | idle =>
                    (permissionRequests s
                       ++ [{| perm_id := nextId s; perm_lang := selectedLanguage (state s) |}])%list
                | _ => permissionRequests s
                end
      else permissionRequests s
  | PermissionSettled id granted =>
      match find (fun p => Nat.eqb (perm_id p) id) (permissionRequests s) with
      | Some p => filter (fun p => perm_id p <> id) (permissionRequests s)
      | None => permissionRequests s
      end
  | _ => permissionRequests s
  end.
Proof.
  destruct e; try (unfold handle; now rewrite elapse_eq); by_handler.
Qed.

Lemma handle_finalTranscript e s :
  finalTranscript (state (handle e s)) =
  match e with
  | RecognitionResult i event =>
      if isStarted i s && mounted s && Js.truthy (snd (transcripts event))
      then snd (transcripts event)
      else finalTranscript (state s)
  | _ => finalTranscript (state s)
  end.
Proof.
  destruct e; try (unfold handle; now rewrite elapse_eq); try apply handle_result_final;
    by_handler; (destruct (mounted s); reflexivity).
Qed.

Lemma handle_selectedLanguage e s :
  selectedLanguage (state (handle e s)) =
  match e with
  | SelectLanguage value => if mounted s then value else selectedLanguage (state s)
  | _ => selectedLanguage (state s)
  end.
Proof.
  destruct e; try (unfold handle; now rewrite elapse_eq); by_handler;
    (destruct (mounted s); reflexivity).
Qed.

Lemma handle_micState_PermissionSettled id granted s :
  micState (state (handle (PermissionSettled id granted) s)) = micState (state s).
Proof. by_handler. Qed.

Lemma handle_micState_RecognitionError i error s :
  micState (state (handle (RecognitionError i error) s)) =
  if isStarted i s then (if mounted s then idle else micState (state s))
  else micState (state s).
Proof. by_handler; (destruct (mounted s); reflexivity). Qed.

Lemma step_permissionDenied e s :
  permissionDenied (state (step e s)) = permissionDenied (state (handle e s)).
Proof.
  unfold step. cbv zeta. destruct (mounted (handle e s)); [|reflexivity].
  rewrite commit_settled, runEffects_state. now destruct (_ && _).
Qed.

Lemma step_micState_unless_dispatch e s :
  micState (state (step e s)) = micState (state (handle e s))
  \/ micState (state (step e s)) = processing.
Proof.
  unfold step. cbv zeta. destruct (mounted (handle e s)); [|now left].
  rewrite commit_settled, runEffects_state. destruct (_ && _); [now right|now left].
Qed.

Lemma isStarted_false i s :
  Forall (fun r => started r = false) (recognitions s) -> isStarted i s = false.
Proof.
  intros H. unfold isStarted. destruct (recognitions s !! i) as [r|] eqn:E; [|reflexivity].
  exact (Forall_lookup_1 _ _ _ _ H E).
Qed.

Lemma notStarted_alter_stop i l :
  Forall (fun r => started r = false) l ->
  Forall (fun r => started r = false) (alter stopInstance i l).
Proof.
  intros H. apply Forall_alter; [exact H|].
  intros r _ Hr. now rewrite started_stopInstance.
Qed.

Lemma notStarted_stoppedRef s :
  Forall (fun r => started r = false) (recognitions s) ->
  Forall (fun r => started r = false) (stoppedRef s).
Proof.
  intros H. unfold stoppedRef. destruct (recognitionRef s); [|exact H].
  now apply notStarted_alter_stop.
Qed.

Lemma commit_notStarted prev s :
  Forall (fun r => started r = false) (recognitions s) ->
  Forall (fun r => started r = false) (recognitions (commit prev s)).
Proof.
  intros H.
  assert (Forall (fun r => started r = false) (recognitions (runEffects prev s))) as Hr.
  { rewrite runEffects_eq. session_cbn. destruct (_ && _); [|exact H].
    apply Forall_app. split; [now apply notStarted_stoppedRef|].
    now apply Forall_singleton. }
  rewrite commit_eq. cbv zeta. now destruct (_ && _ && _).
Qed.

Lemma micDisabled_denied s : permissionDenied (state s) = true -> micDisabled s = true.
Proof. intros H. unfold micDisabled. rewrite H. apply orb_true_r. Qed.

Lemma blocked_step e s : blocked s -> blocked (step e s).
Proof.
  intros (Hpd & Hpr & Hns). split; [|split].
  - rewrite step_permissionDenied, handle_permissionDenied.
    destruct e; try exact Hpd.
    + now rewrite Hpr.
    + now rewrite (isStarted_false _ _ Hns).
    + now rewrite (isStarted_false _ _ Hns).
  - destruct (step_frame e s) as (_ & _ & _ & Hp & _). rewrite Hp, handle_permissionRequests.
    destruct e; try exact Hpr.
    + now rewrite (micDisabled_denied s Hpd), andb_false_r.
    + now rewrite Hpr.
  - assert (Forall (fun r => started r = false) (recognitions (handle e s))) as Hh.
    { rewrite handle_recognitions. destruct e; try exact Hns.
      - now rewrite (micDisabled_denied s Hpd), andb_false_r.
      - destruct (mounted s); [|exact Hns].
        destruct (negb _); [exact Hns|now apply notStarted_stoppedRef].
      - now rewrite Hpr.
      - now rewrite (isStarted_false _ _ Hns).
      - now rewrite (isStarted_false _ _ Hns).
      - destruct (filter _ _); [exact Hns|now apply notStarted_stoppedRef]. }
    unfold step. cbv zeta. destruct (mounted (handle e s)); [|exact Hh].
    now apply commit_notStarted.
Qed.

Lemma blocked_run es s : blocked s -> blocked (run es s).
Proof.
  revert s. induction es as [|e es IH]; intros s H; [exact H|].
  apply IH. now apply blocked_step.
Qed.

(** C4, as the code has it.  A refused permission request sets
    [permissionDenied], leaves [micState] as it is and starts no
    capture; permission is requested only from [idle].  A capture that
    reports [not-allowed] sets the flag too and puts [micState] to
    [idle].  While the flag is set the microphone button is disabled
    and a click does nothing.  The flag is cleared by nothing but the
    [start] event of a started instance; once it is set with no
    permission request pending and no instance started, it stays set
    and no instance is ever started, whatever happens: there is no way
    to grant again. *)
Theorem permission_denied_blocks (s : Session) :
  (forall id p,
      mounted s = true ->
      find (fun p => Nat.eqb (perm_id p) id) (permissionRequests s) = Some p ->
      let s' := step (PermissionSettled id false) s in
      permissionDenied (state s') = true
      /\ micState (state s') = micState (state s)
      /\ recognitions s' = recognitions s
      /\ micDisabled s' = true)
  /\ (permissionRequests (step MicClick s) <> permissionRequests s ->
      micState (state s) = idle)
  /\ (forall i,
      mounted s = true ->
      isStarted i s = true ->
      let s' := step (RecognitionError i "not-allowed") s in
      permissionDenied (state s') = true /\ micState (state s') = idle)
  /\ (permissionDenied (state s) = true -> step MicClick s = s)
  /\ (forall e,
      permissionDenied (state s) = true ->
      permissionDenied (state (step e s)) = false ->
      exists i, e = RecognitionStart i /\ isStarted i s = true)
  /\ (blocked s -> forall es, blocked (run es s)).
Proof.
  split; [|split; [|split; [|split; [|split]]]].
  - intros id p Hm Hf. cbv zeta.
    assert (permissionDenied (state (step (PermissionSettled id false) s)) = true) as Hpd.
    { now rewrite step_permissionDenied, handle_permissionDenied, Hf, Hm. }
    destruct (step_no_dispatch (PermissionSettled id false) s) as (Hs' & _).
    { apply dispatches_final_same. now rewrite handle_finalTranscript. }
    destruct (step_recognitions (PermissionSettled id false) s) as (Hrec & _).
    { apply languageChanged_lang_same. now rewrite handle_selectedLanguage. }
    split; [exact Hpd|]. split; [|split].
    + rewrite Hs'. apply handle_micState_PermissionSettled.
    + rewrite Hrec, handle_recognitions, Hf. reflexivity.
    + now apply micDisabled_denied.
  - intros Hne. destruct (step_frame MicClick s) as (_ & _ & _ & Hp & _).
    rewrite Hp, handle_permissionRequests in Hne.
    destruct (_ && _); [|now contradiction Hne].
    destruct (negb _); [now contradiction Hne|].
    destruct (micState (state s)); [reflexivity|now contradiction Hne|now contradiction Hne].
  - intros i Hm Hi. cbv zeta. split.
    + rewrite step_permissionDenied, handle_permissionDenied, Hi, Hm.
      now rewrite String.eqb_refl.
    + destruct (step_no_dispatch (RecognitionError i "not-allowed") s) as (Hs' & _).
      { apply dispatches_final_same. now rewrite handle_finalTranscript. }
      now rewrite Hs', handle_micState_RecognitionError, Hi, Hm.
  - intros Hpd. apply step_handle_id. unfold handle.
    now rewrite (micDisabled_denied s Hpd), andb_false_r.
  - intros e Hpd Hcl.
    rewrite step_permissionDenied, handle_permissionDenied in Hcl.
    destruct e; try congruence.
    + destruct (find _ _); [|congruence].
      destruct granted; [congruence|]. destruct (mounted s); congruence.
    + destruct (isStarted i s) eqn:Hi; [eauto|congruence].
    + destruct (isStarted i s); [|congruence].
      destruct (String.eqb _ _); [|congruence]. destruct (mounted s); congruence.
  - intros Hb es. now apply blocked_run.
Qed.

(** A click on the microphone of a fresh session, refused. *)
Lemma permission_denied_blocks_witness :
  let s := run [MicClick] (mount true true "en") in
  let p := {| perm_id := 1; perm_lang := en_US |} in
  (mounted s = true
   /\ find (fun p => Nat.eqb (perm_id p) 1) (permissionRequests s) = Some p)
  /\ permissionDenied (state (step (PermissionSettled 1 false) s)) = true
  /\ micState (state (step (PermissionSettled 1 false) s)) = idle
  /\ recognitions (step (PermissionSettled 1 false) s)
     = [{| lang := en_US; started := false; stopRequested := false |}].
Proof.
  cbv zeta.
  assert (mounted (run [MicClick] (mount true true "en")) = true) as H1
    by (vm_compute; reflexivity).
  assert (find (fun p => Nat.eqb (perm_id p) 1)
               (permissionRequests (run [MicClick] (mount true true "en")))
          = Some {| perm_id := 1; perm_lang := en_US |}) as H2 by (vm_compute; reflexivity).
  split; [auto|].
  destruct (permission_denied_blocks (run [MicClick] (mount true true "en"))) as (Ha & _).
  destruct (Ha 1 _ H1 H2) as (Hpd & Hmic & Hrec & _).
  split; [exact Hpd|]. split; [exact Hmic|exact Hrec].
Defined.

(** C4, as the claim states it, fails: after a refusal in a fresh
    session a click on the microphone requests nothing, and no
    sequence of events clears the flag or starts a capture. *)
Lemma permission_denied_is_permanent :
  let s := run [MicClick; PermissionSettled 1 false] (mount true true "en") in
  permissionDenied (state s) = true
  /\ permissionRequests (step MicClick s) = []
  /\ ~ (exists es, permissionDenied (state (run es s)) = false)
  /\ ~ (exists es i, isStarted i (run es s) = true).
Proof.
  cbv zeta.
  assert (blocked (run [MicClick; PermissionSettled 1 false] (mount true true "en"))) as Hb.
  { split; [vm_compute; reflexivity|]. split; [vm_compute; reflexivity|].
    apply Forall_singleton. reflexivity. }
  split; [vm_compute; reflexivity|]. split; [vm_compute; reflexivity|]. split.
  - intros (es & H). destruct (blocked_run es _ Hb) as (Hpd & _). congruence.
  - intros (es & i & H). destruct (blocked_run es _ Hb) as (_ & _ & Hns).
    rewrite (isStarted_false _ _ Hns) in H. discriminate.
Qed.

(** ** C3: the silence timer *)

Lemma handle_state_unmounted e s :
  mounted (handle e s) = false -> state (handle e s) = state s.
Proof.
  intros Hu. destruct (mounted s) eqn:Hm; [|now apply handle_unmounted].
  rewrite handle_mounted in Hu. destruct e; try congruence. apply handle_Unmount_state.
Qed.

Lemma handle_now e s :
  now (handle e s) = match e with Elapse ms => (now s + ms)%N | _ => now s end.
Proof.
  destruct e; try (unfold handle; now rewrite elapse_eq); by_handler.
Qed.

(** The turn in which the session comes to listen with no interim
    text arms the timer, three seconds from now. *)
Lemma step_arms e s :
  Consistent s ->
  silenceChanged (state s) (state (step e s)) = true ->
  silent (state (step e s)) = true ->
  exists id,
    timers (step e s) = [{| timer_id := id; due := (now (step e s) + 3000)%N |}]
    /\ timeoutRef (step e s) = Some id.
Proof.
  intros Hc Hsc Hsil.
  destruct (mounted (handle e s)) eqn:Hm.
  - rewrite step_mounted_eq in * by exact Hm.
    pose proof (handle_timerOwned e s (cons_timerOwned s Hc)) as Hto.
    rewrite commit_settled, runEffects_state, Hm, andb_true_r in Hsc, Hsil.
    rewrite commit_eq. cbv zeta. rewrite Hm, andb_true_r.
    destruct (dispatches (state s) (state (handle e s))) eqn:Hd.
    { rewrite silent_consumed in Hsil. discriminate. }
    cbn [andb]. rewrite runEffects_eq. cbv zeta. session_cbn.
    rewrite Hd, Hsc, Hsil, (cleared_nil _ Hto). eauto.
  - rewrite step_unmounted_eq in Hsc by exact Hm.
    rewrite (handle_state_unmounted e s Hm), silenceChanged_same in Hsc. discriminate.
Qed.

Lemma step_Elapse ms s : step (Elapse ms) s = elapse ms s.
Proof. apply step_no_state_change. unfold handle. now rewrite elapse_eq. Qed.

(** The timer fires when its three seconds are over, not before: it
    asks the instance in the ref to stop and changes no state. *)
Lemma step_Elapse_fires t ms s :
  timers s = [t] ->
  let s' := step (Elapse ms) s in
  state s' = state s
  /\ now s' = (now s + ms)%N
  /\ ((due t <= now s + ms)%N -> timers s' = [] /\ recognitions s' = stoppedRef s)
  /\ (~ (due t <= now s + ms)%N -> timers s' = [t] /\ recognitions s' = recognitions s).
Proof.
  intros Ht. cbv zeta. rewrite step_Elapse, elapse_eq. cbv zeta. session_cbn.
  rewrite Ht, !filter_cons, !filter_nil.
  split; [reflexivity|]. split; [reflexivity|].
  destruct (decide (due t <= now s + ms)%N) as [Hd|Hd];
    destruct (decide (~ (due t <= now s + ms)%N)) as [Hn|Hn]; try contradiction.
  - split; [now intros _|now intros H].
  - split; [now intros H|now intros _].
Qed.

Lemma step_Elapse_idle ms s :
  timers s = [] -> recognitions (step (Elapse ms) s) = recognitions s.
Proof.
  intros Ht. rewrite step_Elapse, elapse_eq. cbv zeta. session_cbn. now rewrite Ht.
Qed.

Lemma step_result_interim i event s :
  mounted s = true ->
  isStarted i s = true ->
  snd (transcripts event) = "" ->
  let s' := step (RecognitionResult i event) s in
  state s' = state (handle (RecognitionResult i event) s)
  /\ interimTranscript (state s') = fst (transcripts event)
  /\ finalTranscript (state s') = finalTranscript (state s)
  /\ micState (state s') = micState (state s)
  /\ selectedLanguage (state s') = selectedLanguage (state s)
  /\ mounted s' = true
  /\ recognitions s' = recognitions s
  /\ fetches s' = fetches s
  /\ transcriptsReady s' = transcriptsReady s.
Proof.
  intros Hm Hi Hf. cbv zeta.
  destruct (handle_result_frame i event s) as (Hmic & Hl & _ & _ & Hfe & Htr & Hmh).
  pose proof (handle_result_final i event s) as Hfin.
  pose proof (handle_result_interim i event s) as Hint.
  rewrite Hi, Hm, Hf in Hfin, Hint.
  change (Js.truthy "") with false in Hfin, Hint. cbn [andb] in Hfin, Hint.
  destruct (step_no_dispatch (RecognitionResult i event) s) as (Hst & Hfe' & Htr').
  { now apply dispatches_final_same. }
  destruct (step_recognitions (RecognitionResult i event) s) as (Hrec & _).
  { now apply languageChanged_lang_same. }
  destruct (step_frame (RecognitionResult i event) s) as (Hms & _).
  rewrite Hst, Hfe', Htr', Hrec, Hms.
  repeat split; try congruence.
  rewrite handle_recognitions, Hi, Hf. reflexivity.
Qed.

(** An interim result without text, while there is none, changes
    nothing. *)
Lemma step_result_empty i event s :
  transcripts event = ("", "") ->
  interimTranscript (state s) = "" ->
  step (RecognitionResult i event) s = s.
Proof.
  intros Ht Hi. apply step_handle_id. unfold handle, onresult. rewrite Ht.
  destruct (isStarted i s); [|reflexivity].
  cbn [Js.truthy]. unfold setInterimTranscript, setState.
  destruct s as [m ? ? [? ? it ? ? ? ? ?] ? ? ? ? ? ? ? ? ? ? ? ?].
  cbn in Hi. subst it. cbn. now destruct m.
Qed.

(** C3, as the code has it.  In a session the component can be in: a
    silence timer is pending only while the mounted session is
    listening with no interim text; the turn in which the session
    comes to listen with no interim text arms it three seconds ahead;
    it fires when those three seconds have passed and not before, and
    firing only asks the current instance to stop, [micState] being
    left alone; an interim result with text cancels the timer and
    arms none, so that no stop is requested however long the silence
    after it; an interim result without text, while there is none,
    leaves the timer as it is. *)
Theorem silence_timer (s : Session) :
  reachable s ->
  (timers s <> [] ->
   mounted s = true /\ micState (state s) = listening /\ interimTranscript (state s) = "")
  /\ (forall e,
      silenceChanged (state s) (state (step e s)) = true ->
      silent (state (step e s)) = true ->
      exists id,
        timers (step e s) = [{| timer_id := id; due := (now (step e s) + 3000)%N |}]
        /\ timeoutRef (step e s) = Some id)
  /\ (forall t ms,
      timers s = [t] ->
      let s' := step (Elapse ms) s in
      state s' = state s
      /\ now s' = (now s + ms)%N
      /\ ((due t <= now s + ms)%N -> timers s' = [] /\ recognitions s' = stoppedRef s)
      /\ (~ (due t <= now s + ms)%N -> timers s' = [t] /\ recognitions s' = recognitions s))
  /\ (forall i event,
      mounted s = true ->
      isStarted i s = true ->
      snd (transcripts event) = "" ->
      fst (transcripts event) <> "" ->
      let s' := step (RecognitionResult i event) s in
      timers s' = []
      /\ forall ms, recognitions (step (Elapse ms) s') = recognitions s')
  /\ (forall i event,
      transcripts event = ("", "") ->
      interimTranscript (state s) = "" ->
      step (RecognitionResult i event) s = s).
Proof.
  intros Hr. pose proof (reachable_consistent s Hr) as Hc.
  split; [exact (cons_timerGuard s Hc)|].
  split; [intros e; now apply step_arms|].
  split; [intros t ms; apply step_Elapse_fires|].
  split; [|intros i event; apply step_result_empty].
  intros i event Hm Hi Hf Hne. cbv zeta.
  assert (timers (step (RecognitionResult i event) s) = []) as Ht.
  { destruct (timers (step (RecognitionResult i event) s)) eqn:E; [reflexivity|].
    pose proof (reachable_consistent _ (reachable_step (RecognitionResult i event) s Hr)) as Hc'.
    destruct (cons_timerGuard _ Hc') as (_ & _ & Hint); [now rewrite E|].
    destruct (step_result_interim i event s Hm Hi Hf) as (_ & Hint' & _).
    congruence. }
  split; [exact Ht|]. intros ms. now apply step_Elapse_idle.
Qed.

(** A session that has just started to listen: the timer fires after
    three seconds of silence, and an interim result cancels it. *)
Lemma silence_timer_witness :
  let s := run [MicClick; PermissionSettled 1 true; RecognitionStart 0]
               (mount true true "en") in
  let t := {| timer_id := 2; due := 3000 |} in
  let event := {| results := [{| transcript := "what"; isFinal := false |}];
                  resultIndex := 0 |} in
  (reachable s /\ timers s = [t] /\ (due t <= now s + 3000)%N
   /\ mounted s = true /\ isStarted 0 s = true
   /\ snd (transcripts event) = "" /\ fst (transcripts event) <> "")
  /\ timers (step (Elapse 3000) s) = []
  /\ recognitions (step (Elapse 3000) s) = stoppedRef s
  /\ micState (state (step (Elapse 3000) s)) = listening
  /\ timers (step (RecognitionResult 0 event) s) = [].
Proof.
  cbv zeta.
  assert (reachable (run [MicClick; PermissionSettled 1 true; RecognitionStart 0]
                         (mount true true "en"))) as Hr.
  { exists true, true, "en", [MicClick; PermissionSettled 1 true; RecognitionStart 0].
    reflexivity. }
  assert (timers (run [MicClick; PermissionSettled 1 true; RecognitionStart 0]
                      (mount true true "en")) = [{| timer_id := 2; due := 3000 |}]) as Ht
    by (vm_compute; reflexivity).
  assert (due {| timer_id := 2; due := 3000 |}
          <= now (run [MicClick; PermissionSettled 1 true; RecognitionStart 0]
                      (mount true true "en")) + 3000)%N as Hd by (vm_compute; discriminate).
  assert (mounted (run [MicClick; PermissionSettled 1 true; RecognitionStart 0]
                       (mount true true "en")) = true) as Hm by (vm_compute; reflexivity).
  assert (isStarted 0 (run [MicClick; PermissionSettled 1 true; RecognitionStart 0]
                           (mount true true "en")) = true) as Hi by (vm_compute; reflexivity).
  assert (snd (transcripts {| results := [{| transcript := "what"; isFinal := false |}];
                              resultIndex := 0 |}) = "") as Hf by (vm_compute; reflexivity).
  assert (fst (transcripts {| results := [{| transcript := "what"; isFinal := false |}];
                              resultIndex := 0 |}) <> "") as Hn by (vm_compute; discriminate).
  split; [repeat split; assumption|].
  destruct (silence_timer _ Hr) as (_ & _ & Hfire & Hcancel & _).
  destruct (Hfire _ 3000%N Ht) as (Hst & _ & Hfired & _).
  destruct (Hfired Hd) as (Ht' & Hrec).
  destruct (Hcancel 0 _ Hm Hi Hf Hn) as (Hc & _).
  split; [exact Ht'|]. split; [exact Hrec|]. split; [|exact Hc].
  rewrite Hst. vm_compute. reflexivity.
Defined.

(** C3, as the claim states it, fails: the timer is armed when the
    session starts to listen and is due at 3000; the interim result at
    1000 cancels it and arms none, so the window is not reset: after
    three more seconds of silence, and after a minute, no stop has
    been requested and the capture still runs. *)
Lemma interim_result_does_not_reset_window :
  let event := {| results := [{| transcript := "what"; isFinal := false |}];
                  resultIndex := 0 |} in
  let s := run [MicClick; PermissionSettled 1 true; RecognitionStart 0; Elapse 1000]
               (mount true true "en") in
  let s' := step (RecognitionResult 0 event) s in
  timers s = [{| timer_id := 2; due := 3000 |}]
  /\ micState (state s') = listening
  /\ now s' = 1000%N
  /\ timers s' = []
  /\ recognitions (step (Elapse 3000) s') !! 0
     = Some {| lang := en_US; started := true; stopRequested := false |}
  /\ recognitions (step (Elapse 60000) s') !! 0
     = Some {| lang := en_US; started := true; stopRequested := false |}
  /\ micState (state (step (Elapse 60000) s')) = listening.
Proof. vm_compute. repeat split. Qed.

(** ** C2: from the final result to the dispatch *)

Lemma truthy_trim x : Js.truthy (Js.trim x) = true -> Js.truthy x = true.
Proof. destruct x; [intros H; vm_compute in H; discriminate H|reflexivity]. Qed.

Lemma handle_result_nextId i event s :
  nextId (handle (RecognitionResult i event) s) = nextId s.
Proof. by_handler. Qed.

(** The turn of a final result with something to dispatch. *)
Lemma step_result_final i event s :
  mounted s = true ->
  isStarted i s = true ->
  finalConsumed s ->
  Js.truthy (Js.trim (snd (transcripts event))) = true ->
  let s' := step (RecognitionResult i event) s in
  micState (state s') = processing
  /\ interimTranscript (state s') = ""
  /\ finalTranscript (state s') = ""
  /\ fetches s'
     = (fetches s ++ [{| fetch_id := nextId s; fetch_query := snd (transcripts event);
                         fetch_lang := selectedLanguage (state s) |}])%list
  /\ transcriptsReady s' = (transcriptsReady s ++ [snd (transcripts event)])%list
  /\ recognitions s' = alter stopInstance i (recognitions s).
Proof.
  intros Hm Hi Hfc Ht. cbv zeta.
  pose proof (truthy_trim _ Ht) as Ht'.
  destruct (handle_result_frame i event s) as (Hmic & Hl & _ & _ & Hfe & Htr & Hmh).
  pose proof (handle_result_final i event s) as Hfin.
  pose proof (handle_result_interim i event s) as Hint.
  pose proof (handle_result_nextId i event s) as Hid.
  rewrite Hi, Hm, Ht' in Hfin, Hint. cbn [andb] in Hfin, Hint.
  rewrite Hm in Hmh.
  assert (dispatches (state s) (state (handle (RecognitionResult i event) s)) = true) as Hd.
  { unfold dispatches. rewrite Hfin, Ht, andb_true_r. apply negb_true_iff.
    destruct (String.eqb _ _) eqn:E; [|reflexivity].
    apply String.eqb_eq in E. unfold finalConsumed in Hfc. congruence. }
  rewrite step_mounted_eq by exact Hmh.
  rewrite commit_settled, runEffects_state, Hd, Hmh. cbn [andb].
  split; [reflexivity|]. split; [exact Hint|]. split; [reflexivity|].
  rewrite commit_eq. cbv zeta.
  assert (forall (r : Session) (c : bool),
             fetches (if c then with_timeoutRef None (with_timers (cleared r) r) else r)
             = fetches r
             /\ transcriptsReady (if c then with_timeoutRef None (with_timers (cleared r) r)
                                  else r)
                = transcriptsReady r
             /\ recognitions (if c then with_timeoutRef None (with_timers (cleared r) r) else r)
                = recognitions r) as Hc2
    by (intros r []; repeat split).
  destruct (Hc2 (runEffects (state s) (handle (RecognitionResult i event) s))
                (dispatches (state s) (state (handle (RecognitionResult i event) s))
                 && mounted (handle (RecognitionResult i event) s)
                 && negb (MicState_eqb
                            (micState (state (handle (RecognitionResult i event) s)))
                            processing))) as (-> & -> & ->).
  rewrite runEffects_eq. cbv zeta. session_cbn.
  rewrite Hd, Hfe, Htr, Hid, Hfin, Hl.
  rewrite (languageChanged_lang_same _ _ (eq_sym Hl)). cbn [andb].
  repeat split.
  rewrite handle_recognitions, Hi, Ht'. reflexivity.
Qed.

Lemma isStarted_recognitions i s s' :
  recognitions s' = recognitions s -> isStarted i s' = isStarted i s.
Proof. intros H. unfold isStarted. now rewrite H. Qed.

Lemma listeningToProcessing_cons a b l :
  listeningToProcessing (a :: b :: l) =
  (if MicState_eqb (micState (state a)) listening
      && MicState_eqb (micState (state b)) processing
   then 1 else 0) + listeningToProcessing (b :: l).
Proof. reflexivity. Qed.

Lemma trace_head es s : exists l, trace es s = s :: l.
Proof. destruct es; simpl; eauto. Qed.

(** C2, as the code has it.  In a session the component can be in,
    mounted and listening, let interim results (results with no final
    text) of a started instance be followed by one result whose final
    text is not blank.  Then [micState] goes from [listening] to
    [processing] in exactly one turn, the one of the final result;
    after that turn [interimTranscript] is empty, [finalTranscript]
    has already been consumed and is empty again, the instance has
    been asked to stop, [onTranscriptReady] has been called, and the
    query has been dispatched with the final text and the selected
    language. *)
Theorem final_result_dispatches_once
    (s : Session) (i : nat) (interims : list SpeechRecognitionEvent)
    (final : SpeechRecognitionEvent) :
  reachable s ->
  mounted s = true ->
  micState (state s) = listening ->
  isStarted i s = true ->
  Forall (fun event => snd (transcripts event) = "") interims ->
  Js.truthy (Js.trim (snd (transcripts final))) = true ->
  let es := (map (RecognitionResult i) interims ++ [RecognitionResult i final])%list in
  let s' := run es s in
  listeningToProcessing (trace es s) = 1
  /\ micState (state s') = processing
  /\ interimTranscript (state s') = ""
  /\ finalTranscript (state s') = ""
  /\ (exists fs id,
         fetches s'
         = (fs ++ [{| fetch_id := id; fetch_query := snd (transcripts final);
                      fetch_lang := selectedLanguage (state s) |}])%list)
  /\ (exists ts, transcriptsReady s' = (ts ++ [snd (transcripts final)])%list)
  /\ (exists r, recognitions s' !! i = Some r /\ capturing r = false).
Proof.
  intros Hr Hm Hl Hi Hint Hfin. cbv zeta.
  revert s Hr Hm Hl Hi.
  induction Hint as [|event interims Hev _ IH]; intros s Hr Hm Hl Hi.
  - cbn [map app trace run foldl listeningToProcessing].
    destruct (step_result_final i final s Hm Hi
                (cons_finalConsumed s (reachable_consistent s Hr)) Hfin)
      as (Hp & Hit & Hft & Hfe & Htr & Hrec).
    rewrite Hl, Hp. split; [reflexivity|].
    split; [reflexivity|]. split; [exact Hit|]. split; [exact Hft|].
    split; [eauto|]. split; [eauto|].
    rewrite Hrec, list_lookup_alter_eq.
    unfold isStarted in Hi. destruct (recognitions s !! i) as [r|]; [|discriminate].
    exists (stopInstance r). split; [reflexivity|apply capturing_stopInstance].
  - destruct (step_result_interim i event s Hm Hi Hev)
      as (_ & _ & _ & Hmic & Hlang & Hm' & Hrec & _).
    specialize (IH (step (RecognitionResult i event) s)
                  (reachable_step _ _ Hr) Hm'
                  (eq_trans Hmic Hl)
                  (eq_trans (isStarted_recognitions i _ _ Hrec) Hi)).
    rewrite Hlang in IH.
    destruct IH as (Hcount & Hrest).
    split; [|exact Hrest].
    cbn [map app trace].
    destruct (trace_head (map (RecognitionResult i) interims ++ [RecognitionResult i final])
                (step (RecognitionResult i event) s)) as (l & Htrace).
    rewrite Htrace in Hcount |- *.
    rewrite listeningToProcessing_cons.
    replace (MicState_eqb (micState (state (step (RecognitionResult i event) s))) processing)
      with false by (rewrite Hmic, Hl; reflexivity).
    rewrite andb_false_r. exact Hcount.
Qed.

(** Two interim results and a final one, in a session that listens. *)
Lemma final_result_dispatches_once_witness :
  let s := run [MicClick; PermissionSettled 1 true; RecognitionStart 0]
               (mount true true "en") in
  let interim1 := {| results := [{| transcript := "what is"; isFinal := false |}];
                     resultIndex := 0 |} in
  let interim2 := {| results := [{| transcript := "what is my blood"; isFinal := false |}];
                     resultIndex := 0 |} in
  let final := {| results := [{| transcript := " what is my blood sugar"; isFinal := true |}];
                  resultIndex := 0 |} in
  let es := [RecognitionResult 0 interim1; RecognitionResult 0 interim2;
             RecognitionResult 0 final] in
  (reachable s /\ mounted s = true /\ micState (state s) = listening
   /\ isStarted 0 s = true
   /\ Forall (fun event => snd (transcripts event) = "") [interim1; interim2]
   /\ Js.truthy (Js.trim (snd (transcripts final))) = true)
  /\ listeningToProcessing (trace es s) = 1
  /\ micState (state (run es s)) = processing
  /\ interimTranscript (state (run es s)) = ""
  /\ finalTranscript (state (run es s)) = "".
Proof.
  cbv zeta.
  assert (reachable (run [MicClick; PermissionSettled 1 true; RecognitionStart 0]
                         (mount true true "en"))) as Hr.
  { exists true, true, "en", [MicClick; PermissionSettled 1 true; RecognitionStart 0].
    reflexivity. }
  assert (mounted (run [MicClick; PermissionSettled 1 true; RecognitionStart 0]
                       (mount true true "en")) = true) as Hm by (vm_compute; reflexivity).
  assert (micState (state (run [MicClick; PermissionSettled 1 true; RecognitionStart 0]
                               (mount true true "en"))) = listening) as Hl
    by (vm_compute; reflexivity).
  assert (isStarted 0 (run [MicClick; PermissionSettled 1 true; RecognitionStart 0]
                           (mount true true "en")) = true) as Hi by (vm_compute; reflexivity).
  assert (Forall (fun event => snd (transcripts event) = "")
            [{| results := [{| transcript := "what is"; isFinal := false |}];
                resultIndex := 0 |};
             {| results := [{| transcript := "what is my blood"; isFinal := false |}];
                resultIndex := 0 |}]) as Hint.
  { apply Forall_cons. split; [vm_compute; reflexivity|].
    apply Forall_singleton. vm_compute; reflexivity. }
  assert (Js.truthy
            (Js.trim
               (snd (transcripts
                       {| results := [{| transcript := " what is my blood sugar";
                                         isFinal := true |}];
                          resultIndex := 0 |}))) = true) as Hfin
    by (vm_compute; reflexivity).
  split; [repeat split; assumption|].
  destruct (final_result_dispatches_once _ 0 _ _ Hr Hm Hl Hi Hint Hfin)
    as (Hc & Hp & Hit & Hft & _).
  repeat split; assumption.
Defined.

(** C2, as the claim states it, fails: a final result that is a single
    space ends the interim results without any transition to
    [processing]; [finalTranscript] holds it, not empty, after the
    turn of the result and still two turns later, and no query is ever
    dispatched for it. *)
Lemma blank_final_result_is_not_consumed :
  let s := run [MicClick; PermissionSettled 1 true; RecognitionStart 0]
               (mount true true "en") in
  let interim := {| results := [{| transcript := "hm"; isFinal := false |}];
                    resultIndex := 0 |} in
  let final := {| results := [{| transcript := " "; isFinal := true |}];
                  resultIndex := 0 |} in
  let es := [RecognitionResult 0 interim; RecognitionResult 0 final] in
  micState (state s) = listening
  /\ listeningToProcessing (trace es s) = 0
  /\ micState (state (run es s)) = listening
  /\ interimTranscript (state (run es s)) = ""
  /\ finalTranscript (state (run es s)) = " "
  /\ finalTranscript (state (run (es ++ [RecognitionEnd 0; ShowTextInput]) s)) = " "
  /\ fetches (run (es ++ [RecognitionEnd 0; ShowTextInput]) s) = [].
Proof. vm_compute. repeat split. Qed.

(** * Further properties of the component *)

(** ** The fallback responder, branch by branch *)

Lemma lower_ascii_idem c : Js.lower_ascii (Js.lower_ascii c) = Js.lower_ascii c.
Proof. destruct c as [[] [] [] [] [] [] [] []]; reflexivity. Qed.

(** [lower_ascii] changes no byte of 123 or more, and makes none. *)
Lemma lower_ascii_high a v :
  (123 <= v)%N -> (N_of_ascii (Js.lower_ascii a) =? v)%N = (N_of_ascii a =? v)%N.
Proof.
  intros Hv. unfold Js.lower_ascii.
  destruct ((65 <=? N_of_ascii a) && (N_of_ascii a <=? 90))%N eqn:E; [|reflexivity].
  apply andb_true_iff in E as [E1 E2]. apply N.leb_le in E1, E2.
  rewrite N_ascii_embedding by lia.
  destruct (N.eqb_spec (N_of_ascii a + 32) v), (N.eqb_spec (N_of_ascii a) v); lia || reflexivity.
Qed.

Lemma toLowerCase_plain a t :
  (N_of_ascii a =? 196)%N = false -> (N_of_ascii a =? 226)%N = false ->
  Js.toLowerCase (String a t) = String (Js.lower_ascii a) (Js.toLowerCase t).
Proof.
  intros H1 H2. destruct t as [|b [|c r]]; cbn [Js.toLowerCase];
    unfold Js.capitalDottedI, Js.kelvinSign; rewrite ?H1, ?H2; reflexivity.
Qed.

Lemma toLowerCase_C4 a t :
  (forall x t', t = String x t' -> (N_of_ascii x =? 176)%N = false) ->
  (N_of_ascii a =? 226)%N = false ->
  Js.toLowerCase (String a t) = String (Js.lower_ascii a) (Js.toLowerCase t).
Proof.
  intros H1 H2. destruct t as [|b [|c r]]; cbn [Js.toLowerCase];
    unfold Js.capitalDottedI, Js.kelvinSign;
    rewrite ?H2, ?(H1 _ _ eq_refl), ?andb_false_r; reflexivity.
Qed.

Lemma toLowerCase_E2 a t :
  (forall x y t', t = String x (String y t') ->
                  ((N_of_ascii x =? 132) && (N_of_ascii y =? 170))%N = false) ->
  (N_of_ascii a =? 196)%N = false ->
  Js.toLowerCase (String a t) = String (Js.lower_ascii a) (Js.toLowerCase t).
Proof.
  intros H1 H2. destruct t as [|b [|c r]]; cbn [Js.toLowerCase];
    unfold Js.capitalDottedI, Js.kelvinSign; rewrite ?H2; cbn [andb]; try reflexivity.
  rewrite <- andb_assoc, (H1 _ _ _ eq_refl), andb_false_r. reflexivity.
Qed.

(** A lower-cased text starts with [i], with [k], or with the lower
    case of the first byte of the text, the rest following. *)
Lemma toLowerCase_shape b r :
  (exists t, Js.toLowerCase (String b r) = String "i" t)
  \/ (exists t, Js.toLowerCase (String b r) = String "k" t)
  \/ Js.toLowerCase (String b r) = String (Js.lower_ascii b) (Js.toLowerCase r).
Proof.
  destruct r as [|c [|d r]]; cbn [Js.toLowerCase].
  - now right; right.
  - destruct (Js.capitalDottedI b c); [left; eauto|now right; right].
  - destruct (Js.capitalDottedI b c); [left; eauto|].
    destruct (Js.kelvinSign b c d); [right; left; eauto|now right; right].
Qed.

Lemma toLowerCase_idem s : Js.toLowerCase (Js.toLowerCase s) = Js.toLowerCase s.
Proof.
  remember (String.length s) as n eqn:Hn. revert s Hn.
  induction n as [n IH] using lt_wf_ind. intros s Hn.
  assert (forall t, String.length t < n ->
                    Js.toLowerCase (Js.toLowerCase t) = Js.toLowerCase t) as IH'.
  { intros t Ht. now apply (IH (String.length t)). }
  clear IH.
  destruct s as [|a r1]; [reflexivity|]. cbn [String.length] in Hn.
  destruct r1 as [|b r2].
  { cbn [Js.toLowerCase]. now rewrite lower_ascii_idem. }
  cbn [String.length] in Hn.
  destruct (Js.capitalDottedI a b) eqn:Ed.
  { cbn [Js.toLowerCase]. rewrite Ed.
    rewrite (toLowerCase_plain "i"), (toLowerCase_plain (ascii_of_N 204)),
      (toLowerCase_plain (ascii_of_N 135)) by reflexivity.
    rewrite IH' by lia. reflexivity. }
  assert (Js.toLowerCase (String a (String b r2))
          = String "k" (Js.toLowerCase (match r2 with String _ r3 => r3 | _ => "" end))
            /\ (exists c r3, r2 = String c r3)
          \/ Js.toLowerCase (String a (String b r2))
             = String (Js.lower_ascii a) (Js.toLowerCase (String b r2))
             /\ match r2 with
                | String c _ => Js.kelvinSign a b c = false
                | EmptyString => True
                end) as [[Hk (c & r3 & ->)] | [Hp Hnk]].
  { destruct r2 as [|c r3]; [right; split; [cbn [Js.toLowerCase]; now rewrite Ed|exact I]|].
    destruct (Js.kelvinSign a b c) eqn:Ek.
    - left. split; [cbn [Js.toLowerCase]; now rewrite Ed, Ek|now exists c, r3].
    - right. split; [|reflexivity].
      change (Js.toLowerCase (String a (String b (String c r3))))
        with (if Js.capitalDottedI a b
              then String "i" (String (ascii_of_N 204)
                                 (String (ascii_of_N 135) (Js.toLowerCase (String c r3))))
              else if Js.kelvinSign a b c
                   then String "k" (Js.toLowerCase r3)
                   else String (Js.lower_ascii a) (Js.toLowerCase (String b (String c r3)))).
      now rewrite Ed, Ek. }
  { rewrite Hk, (toLowerCase_plain "k") by reflexivity.
    rewrite IH' by (cbn [String.length] in *; lia). reflexivity. }
  rewrite Hp.
  assert (Js.toLowerCase (String (Js.lower_ascii a) (Js.toLowerCase (String b r2)))
          = String (Js.lower_ascii (Js.lower_ascii a))
              (Js.toLowerCase (Js.toLowerCase (String b r2)))) as Hgo.
  { destruct (N.eqb_spec (N_of_ascii a) 196) as [E1|E1].
    - (* C4 not followed by B0 *)
      assert ((N_of_ascii b =? 176)%N = false) as Eb.
      { unfold Js.capitalDottedI in Ed. rewrite E1 in Ed. exact Ed. }
      apply toLowerCase_C4; [|now rewrite lower_ascii_high, E1 by lia].
      intros x t' Hx.
      destruct (toLowerCase_shape b r2) as [(t & Ht) | [(t & Ht) | Ht]];
        rewrite Ht in Hx; injection Hx as <- _; try reflexivity.
      now rewrite lower_ascii_high by lia.
    - apply N.eqb_neq in E1.
      destruct (N.eqb_spec (N_of_ascii a) 226) as [E2|E2].
      + (* E2 not followed by 84 AA *)
        apply toLowerCase_E2; [|now rewrite lower_ascii_high by lia].
        intros x y t' Hx.
        destruct (toLowerCase_shape b r2) as [(t & Ht) | [(t & Ht) | Ht]];
          rewrite Ht in Hx; injection Hx as <- Hy; try reflexivity.
        rewrite lower_ascii_high by lia.
        destruct (N.eqb_spec (N_of_ascii b) 132) as [Eb|Eb]; [|reflexivity].
        destruct r2 as [|c r3]; [discriminate Hy|].
        assert ((N_of_ascii c =? 170)%N = false) as Ec.
        { unfold Js.kelvinSign in Hnk. now rewrite E2, Eb in Hnk. }
        destruct (toLowerCase_shape c r3) as [(t & Ht') | [(t & Ht') | Ht']];
          rewrite Ht' in Hy; injection Hy as <- _; try reflexivity.
        now rewrite lower_ascii_high by lia.
      + apply N.eqb_neq in E2.
        apply toLowerCase_plain; now rewrite lower_ascii_high by lia. }
  rewrite Hgo, lower_ascii_idem, IH' by (cbn [String.length]; lia). reflexivity.
Qed.

Lemma prefix_append q b : String.prefix q (q ++ b) = true.
Proof.
  induction q as [|c q IH]; [now destruct b|].
  cbn [append String.prefix]. destruct (ascii_dec c c); [exact IH|contradiction].
Qed.

Lemma includes_unfold s sub :
  Js.includes s sub =
  String.prefix sub s || match s with EmptyString => false | String _ r => Js.includes r sub end.
Proof. now destruct s. Qed.

Lemma includes_prefix q b : Js.includes (q ++ b) q = true.
Proof. now rewrite includes_unfold, prefix_append. Qed.

Lemma includes_append a s sub : Js.includes s sub = true -> Js.includes (a ++ s) sub = true.
Proof.
  intros H. induction a as [|c a IH]; [exact H|].
  cbn [append Js.includes]. rewrite IH. apply orb_true_r.
Qed.

Lemma append_assoc (a b c : string) : (a ++ b) ++ c = a ++ b ++ c.
Proof. induction a as [|x a IH]; cbn [append]; [reflexivity|now rewrite IH]. Qed.

Lemma append_assoc3 (a b c d : string) : a ++ b ++ c ++ d = (a ++ b ++ c) ++ d.
Proof. now rewrite !append_assoc. Qed.

(** The utterance, in double quotes, occurs in the default answer of
    every language. *)
Lemma defaultText_quotes l q :
  Js.includes (defaultText l q) (Js.dquote ++ q ++ Js.dquote) = true.
Proof.
  unfold defaultText.
  destruct l; cbn [getLocalizedText]; apply includes_append;
    rewrite append_assoc3; apply includes_prefix.
Qed.

(** Without a keyword the last branch answers. *)
Lemma no_keyword_default l q :
  Forall (fun keyword => Js.includes (Js.toLowerCase q) keyword = false) keywords ->
  generateMockResponse l q
  = {| answer_text := defaultText l q; disclaimer := disclaimerText l; actions := Some [] |}.
Proof.
  intros H. unfold keywords, healthKeywords, greetingKeywords in H. cbn [app] in H.
  repeat (apply Forall_cons in H as [? H]).
  unfold generateMockResponse. cbv zeta.
  repeat match goal with E : Js.includes _ _ = false |- _ => rewrite E; clear E end.
  reflexivity.
Qed.

(** X1.  A query that mentions none of the ten keywords, in whatever
    case, is answered by the default text of the selected language,
    which quotes the utterance as it was said, and no action is
    offered. *)
Theorem fallback_default_quotes_query (l : SupportedLanguage) (q : string) :
  Forall (fun keyword => Js.includes (Js.toLowerCase q) keyword = false) keywords ->
  let r := generateMockResponse l q in
  answer_text r = defaultText l q
  /\ Js.includes (answer_text r) (Js.dquote ++ q ++ Js.dquote) = true
  /\ actions r = Some []
  /\ disclaimer r = disclaimerText l.
Proof.
  intros H. cbv zeta. rewrite (no_keyword_default l q H).
  cbn [answer_text actions disclaimer].
  repeat split. apply defaultText_quotes.
Qed.

Lemma fallback_default_quotes_query_witness :
  Forall (fun keyword => Js.includes (Js.toLowerCase "Will it RAIN?") keyword = false)
    keywords
  /\ Js.includes (answer_text (generateMockResponse kn_IN "Will it RAIN?"))
       (Js.dquote ++ "Will it RAIN?" ++ Js.dquote) = true.
Proof.
  assert (Forall (fun keyword => Js.includes (Js.toLowerCase "Will it RAIN?") keyword = false)
            keywords) as H.
  { unfold keywords, healthKeywords, greetingKeywords. cbn [app].
    repeat (apply Forall_cons; split; [vm_compute; reflexivity|]).
    apply Forall_nil. exact I. }
  split; [exact H|].
  exact (proj1 (proj2 (fallback_default_quotes_query kn_IN "Will it RAIN?" H))).
Defined.

(** X2.  The keywords are matched whatever the case of the letters:
    the query in lower case gets the same actions and disclaimer, and
    the same answer text unless both get the default answer, which
    quotes each query as it is. *)
Theorem fallback_ignores_case (l : SupportedLanguage) (q : string) :
  let r := generateMockResponse l q in
  let r' := generateMockResponse l (Js.toLowerCase q) in
  actions r' = actions r
  /\ disclaimer r' = disclaimer r
  /\ (answer_text r' = answer_text r
      \/ (answer_text r = defaultText l q
          /\ answer_text r' = defaultText l (Js.toLowerCase q))).
Proof.
  cbv zeta. unfold generateMockResponse. cbv zeta. rewrite toLowerCase_idem.
  destruct (_ || _); [repeat split; now left|].
  destruct (_ || _); [repeat split; now left|].
  destruct (_ || _); [repeat split; now left|].
  destruct (_ || _); [repeat split; now left|].
  repeat split. now right.
Qed.

(** X3.  The suggested actions do not depend on the selected language
    (their labels are the English ones in every language), there are
    at most two, and none is a note. *)
Theorem fallback_actions_not_localized (l : SupportedLanguage) (q : string) :
  actions (generateMockResponse l q) = actions (generateMockResponse en_US q)
  /\ length (actionTypes (generateMockResponse l q)) <= 2
  /\ ~ In note (actionTypes (generateMockResponse l q)).
Proof.
  unfold generateMockResponse, actionTypes. cbv zeta.
  destruct (_ || _); [cbn; split; [reflexivity|split; [lia|intuition congruence]]|].
  destruct (_ || _); [cbn; split; [reflexivity|split; [lia|intuition congruence]]|].
  destruct (_ || _); [cbn; split; [reflexivity|split; [lia|intuition congruence]]|].
  destruct (_ || _); cbn; (split; [reflexivity|split; [lia|intuition congruence]]).
Qed.

(** X4.  The greeting keywords are looked for anywhere in the query,
    also inside a word: a query without a health keyword in which
    [hello], [hi] or [namaste] occurs, be it as part of [which] or
    [this], is answered by the greeting of the selected language,
    which addresses the user by the stored name, and no action is
    offered. *)
Theorem greeting_matches_inside_words (l : SupportedLanguage) (q : string) :
  Forall (fun keyword => Js.includes (Js.toLowerCase q) keyword = false) healthKeywords ->
  Exists (fun keyword => Js.includes (Js.toLowerCase q) keyword = true) greetingKeywords ->
  let r := generateMockResponse l q in
  answer_text r = greetingText l
  /\ Js.includes (answer_text r) (Profile.name mockUserProfile) = true
  /\ actions r = Some [].
Proof.
  intros H G. unfold healthKeywords in H.
  repeat (apply Forall_cons in H as [? H]).
  assert (Js.includes (Js.toLowerCase q) "hello" || Js.includes (Js.toLowerCase q) "hi"
          || Js.includes (Js.toLowerCase q) "namaste" = true) as Hg.
  { unfold greetingKeywords in G.
    repeat (apply Exists_cons in G as [G | G];
            [rewrite G; now rewrite ?orb_true_r|]).
    now apply Exists_nil in G. }
  cbv zeta. unfold generateMockResponse. cbv zeta.
  repeat match goal with E : Js.includes _ _ = false |- _ => rewrite E; clear E end.
  cbn [orb]. rewrite Hg. cbn [answer_text actions].
  split; [reflexivity|]. split; [|reflexivity].
  destruct l; vm_compute; reflexivity.
Qed.

(** The lower case of U+0130 starts with [i]: [H] followed by that
    letter greets. *)
Remark capital_dotted_I_greets :
  let query := String "H" (String (ascii_of_N 196) (String (ascii_of_N 176) EmptyString)) in
  Js.includes (Js.toLowerCase query) "hi" = true
  /\ forall l, answer_text (generateMockResponse l query) = greetingText l.
Proof. split; [|intros l]; vm_compute; reflexivity. Qed.

Lemma greeting_matches_inside_words_witness :
  (Forall (fun keyword => Js.includes (Js.toLowerCase "Which day is it?") keyword = false)
     healthKeywords
   /\ Exists (fun keyword => Js.includes (Js.toLowerCase "Which day is it?") keyword = true)
        greetingKeywords)
  /\ answer_text (generateMockResponse en_US "Which day is it?") = greetingText en_US.
Proof.
  assert (Forall (fun keyword => Js.includes (Js.toLowerCase "Which day is it?") keyword
                                 = false) healthKeywords) as H.
  { unfold healthKeywords. repeat (apply Forall_cons; split; [vm_compute; reflexivity|]).
    apply Forall_nil. exact I. }
  assert (Exists (fun keyword => Js.includes (Js.toLowerCase "Which day is it?") keyword
                                 = true) greetingKeywords) as G.
  { unfold greetingKeywords. apply Exists_cons_tl, Exists_cons_hd. vm_compute. reflexivity. }
  split; [auto|].
  exact (proj1 (greeting_matches_inside_words en_US "Which day is it?" H G)).
Defined.

(** ** [trim] applied twice *)

Lemma dropWhiteSpace_suffix l : exists p, l = (p ++ Js.dropWhiteSpace l)%list.
Proof.
  remember (length l) as n eqn:Hn. revert l Hn.
  induction n as [n IH] using lt_wf_ind. intros l Hn.
  destruct l as [|a r1]; [now exists []|]. cbn [Js.dropWhiteSpace].
  destruct (Js.ws1 a).
  { destruct (IH (length r1)) with (l := r1) as [p Hp]; [cbn in Hn; lia|reflexivity|].
    exists (a :: p). cbn. now rewrite <- Hp. }
  destruct r1 as [|b r2]; [now exists []|].
  destruct (Js.ws2 a b).
  { destruct (IH (length r2)) with (l := r2) as [p Hp]; [cbn in Hn; lia|reflexivity|].
    exists (a :: b :: p). cbn. now rewrite <- Hp. }
  destruct r2 as [|c r3]; [now exists []|].
  destruct (Js.ws3 a b c); [|now exists []].
  destruct (IH (length r3)) with (l := r3) as [p Hp]; [cbn in Hn; lia|reflexivity|].
  exists (a :: b :: c :: p). cbn. now rewrite <- Hp.
Qed.

Lemma dropWhiteSpaceRev_suffix l : exists p, l = (p ++ Js.dropWhiteSpaceRev l)%list.
Proof.
  remember (length l) as n eqn:Hn. revert l Hn.
  induction n as [n IH] using lt_wf_ind. intros l Hn.
  destruct l as [|a r1]; [now exists []|]. cbn [Js.dropWhiteSpaceRev].
  destruct (Js.ws1 a).
  { destruct (IH (length r1)) with (l := r1) as [p Hp]; [cbn in Hn; lia|reflexivity|].
    exists (a :: p). cbn. now rewrite <- Hp. }
  destruct r1 as [|b r2]; [now exists []|].
  destruct (Js.ws2 b a).
  { destruct (IH (length r2)) with (l := r2) as [p Hp]; [cbn in Hn; lia|reflexivity|].
    exists (a :: b :: p). cbn. now rewrite <- Hp. }
  destruct r2 as [|c r3]; [now exists []|].
  destruct (Js.ws3 c b a); [|now exists []].
  destruct (IH (length r3)) with (l := r3) as [p Hp]; [cbn in Hn; lia|reflexivity|].
  exists (a :: b :: c :: p). cbn. now rewrite <- Hp.
Qed.

Lemma dropWhiteSpaceRev_idem l :
  Js.dropWhiteSpaceRev (Js.dropWhiteSpaceRev l) = Js.dropWhiteSpaceRev l.
Proof.
  remember (length l) as n eqn:Hn. revert l Hn.
  induction n as [n IH] using lt_wf_ind. intros l Hn.
  destruct l as [|a r1]; [reflexivity|]. cbn [Js.dropWhiteSpaceRev].
  destruct (Js.ws1 a) eqn:E1.
  { apply (IH (length r1)); [cbn in Hn; lia|reflexivity]. }
  destruct r1 as [|b r2]; [cbn [Js.dropWhiteSpaceRev]; now rewrite E1|].
  destruct (Js.ws2 b a) eqn:E2.
  { apply (IH (length r2)); [cbn in Hn; lia|reflexivity]. }
  destruct r2 as [|c r3]; [cbn [Js.dropWhiteSpaceRev]; now rewrite E1, E2|].
  destruct (Js.ws3 c b a) eqn:E3.
  { apply (IH (length r3)); [cbn in Hn; lia|reflexivity]. }
  cbn [Js.dropWhiteSpaceRev]. now rewrite E1, E2, E3.
Qed.

(** What [dropWhiteSpace] leaves does not start with white space, and
    neither does any part of it that starts at its head. *)
Lemma dropWhiteSpace_prefix l p q :
  Js.dropWhiteSpace l = (p ++ q)%list -> Js.dropWhiteSpace p = p.
Proof.
  remember (length l) as n eqn:Hn. revert l Hn.
  induction n as [n IH] using lt_wf_ind. intros l Hn Hl.
  destruct l as [|a r1].
  { cbn in Hl. symmetry in Hl. apply app_eq_nil in Hl as [-> _]. reflexivity. }
  cbn [Js.dropWhiteSpace] in Hl.
  destruct (Js.ws1 a) eqn:E1.
  { apply (IH (length r1)) with (l := r1); [cbn in Hn; lia|reflexivity|exact Hl]. }
  destruct r1 as [|b r2].
  { destruct p as [|a' p]; [reflexivity|]. injection Hl as <- Hp.
    symmetry in Hp. apply app_eq_nil in Hp as [-> _].
    cbn [Js.dropWhiteSpace]. now rewrite E1. }
  destruct (Js.ws2 a b) eqn:E2.
  { apply (IH (length r2)) with (l := r2); [cbn in Hn; lia|reflexivity|exact Hl]. }
  destruct r2 as [|c r3].
  { destruct p as [|a' p]; [reflexivity|]. injection Hl as <- Hp.
    destruct p as [|b' p]; [cbn [Js.dropWhiteSpace]; now rewrite E1|].
    injection Hp as <- Hp. symmetry in Hp. apply app_eq_nil in Hp as [-> _].
    cbn [Js.dropWhiteSpace]. now rewrite E1, E2. }
  destruct (Js.ws3 a b c) eqn:E3.
  { apply (IH (length r3)) with (l := r3); [cbn in Hn; lia|reflexivity|exact Hl]. }
  destruct p as [|a' p]; [reflexivity|]. injection Hl as <- Hp.
  destruct p as [|b' p]; [cbn [Js.dropWhiteSpace]; now rewrite E1|].
  injection Hp as <- Hp.
  destruct p as [|c' p]; [cbn [Js.dropWhiteSpace]; now rewrite E1, E2|].
  injection Hp as <- Hp.
  cbn [Js.dropWhiteSpace]. now rewrite E1, E2, E3.
Qed.

Lemma trim_trim x : Js.trim (Js.trim x) = Js.trim x.
Proof.
  unfold Js.trim. rewrite list_ascii_of_string_of_list_ascii.
  set (y := Js.dropWhiteSpace (list_ascii_of_string x)).
  destruct (dropWhiteSpaceRev_suffix (rev y)) as [p Hp].
  assert (y = (rev (Js.dropWhiteSpaceRev (rev y)) ++ rev p)%list) as Hy.
  { rewrite <- rev_app_distr, <- Hp. now rewrite rev_involutive. }
  rewrite (dropWhiteSpace_prefix (list_ascii_of_string x) _ (rev p) Hy).
  now rewrite rev_involutive, dropWhiteSpaceRev_idem.
Qed.


(** ** The handlers, one by one *)

Lemma handle_micState e s :
  micState (state (handle e s)) =
  match e with
  | RecognitionStart i =>
      if isStarted i s then (if mounted s then listening else micState (state s))
      else micState (state s)
  | RecognitionError i _ | RecognitionEnd i =>
      if isStarted i s then (if mounted s then idle else micState (state s))
      else micState (state s)
  | SubmitText =>
      if mounted s && showTextInput (state s)
      then if Js.truthy (Js.trim (textInput (state s))) then processing
           else micState (state s)
      else micState (state s)
  | FetchSettled id _ =>
      match find (fun f => Nat.eqb (fetch_id f) id) (fetches s) with
      | Some _ => if mounted s then idle else micState (state s)
      | None => micState (state s)
      end
  | _ => micState (state s)
  end.
Proof.
  destruct e; try (unfold handle; now rewrite elapse_eq); by_handler;
    try (destruct (mounted s); reflexivity).
  discriminate E.
Qed.

Lemma handle_interimTranscript e s :
  interimTranscript (state (handle e s)) =
  match e with
  | RecognitionStart i | RecognitionError i _ | RecognitionEnd i =>
      if isStarted i s then (if mounted s then "" else interimTranscript (state s))
      else interimTranscript (state s)
  | RecognitionResult i event =>
      if isStarted i s && mounted s
      then if Js.truthy (snd (transcripts event)) then "" else fst (transcripts event)
      else interimTranscript (state s)
  | _ => interimTranscript (state s)
  end.
Proof.
  destruct e; try (unfold handle; now rewrite elapse_eq); try apply handle_result_interim;
    by_handler; (destruct (mounted s); reflexivity).
Qed.

Lemma handle_toasts e s :
  toasts (handle e s) =
  match e with
  | MicClick =>
      if mounted s && negb (micDisabled s)
      then if negb (speechRecognitionSupported s)
           then (toasts s ++ [NotSupported])%list else toasts s
      else toasts s
  | ActionClick action =>
      if mounted s
      then (toasts s
              ++ [match VoiceAction.type action with
                  | grocery => AddedToGroceryList
                  | reminder => ReminderSet
                  | note => NoteSaved
                  | appointment => Appointment
                  end])%list
      else toasts s
  | PermissionSettled id granted =>
      match find (fun p => Nat.eqb (perm_id p) id) (permissionRequests s) with
      | Some _ => if granted then toasts s else (toasts s ++ [MicrophoneAccessRequired])%list
      | None => toasts s
      end
  | RecognitionError i error =>
      if isStarted i s
      then (toasts s
              ++ [if String.eqb error "not-allowed" then MicrophoneAccessDenied
                  else if String.eqb error "no-speech" then NoSpeechDetected
                  else SpeechRecognitionError])%list
      else toasts s
  | _ => toasts s
  end.
Proof.
  destruct e; try (unfold handle; now rewrite elapse_eq); by_handler.
Qed.

Lemma handle_fetches e s :
  fetches (handle e s) =
  match e with
  | SubmitText =>
      if mounted s && showTextInput (state s)
      then if Js.truthy (Js.trim (textInput (state s)))
           then (fetches s
                   ++ [{| fetch_id := nextId s; fetch_query := Js.trim (textInput (state s));
                          fetch_lang := selectedLanguage (state s) |}])%list
           else fetches s
      else fetches s
  | FetchSettled id _ =>
      match find (fun f => Nat.eqb (fetch_id f) id) (fetches s) with
      | Some _ => filter (fun f => fetch_id f <> id) (fetches s)
      | None => fetches s
      end
  | _ => fetches s
  end.
Proof.
  destruct e; try (unfold handle; now rewrite elapse_eq); by_handler.
Qed.

Lemma handle_transcriptsReady e s : transcriptsReady (handle e s) = transcriptsReady s.
Proof.
  destruct e; try (unfold handle; now rewrite elapse_eq); by_handler.
Qed.

Lemma handle_supported e s :
  speechRecognitionSupported (handle e s) = speechRecognitionSupported s
  /\ speechSynthesisSupported (handle e s) = speechSynthesisSupported s.
Proof.
  split; destruct e; try (unfold handle; now rewrite elapse_eq); by_handler.
Qed.

Lemma handle_voiceResponse e s :
  voiceResponse (state (handle e s)) =
  match e with
  | FetchSettled id o =>
      match find (fun f => Nat.eqb (fetch_id f) id) (fetches s) with
      | Some f => if mounted s then settledResponse f o else voiceResponse (state s)
      | None => voiceResponse (state s)
      end
  | _ => voiceResponse (state s)
  end.
Proof.
  destruct e; try (unfold handle; now rewrite elapse_eq); by_handler;
    (destruct (mounted s); reflexivity).
Qed.

Lemma handle_speaking e s :
  speaking (handle e s) =
  match e with
  | Replay =>
      if mounted s
      then if toBoolean (voiceResponse (state s))
           then if speechSynthesisSupported s
                then Some {| utterance_text := member "answer_text" (voiceResponse (state s));
                             utterance_lang := selectedLanguage (state s) |}
                else speaking s
           else speaking s
      else speaking s
  | FetchSettled id o =>
      match find (fun f => Nat.eqb (fetch_id f) id) (fetches s) with
      | Some f =>
          if speechSynthesisSupported s
          then Some {| utterance_text := settledText f o; utterance_lang := fetch_lang f |}
          else speaking s
      | None => speaking s
      end
  | PlaybackEnd => None
  | _ => speaking s
  end.
Proof.
  destruct e; try (unfold handle; now rewrite elapse_eq); by_handler.
Qed.


(** ** One turn, for the events that dispatch nothing *)

(** A turn of any event other than a speech result dispatches nothing
    from the final-transcript effect. *)
Lemma step_plain e s :
  (forall i event, e <> RecognitionResult i event) ->
  state (step e s) = state (handle e s)
  /\ fetches (step e s) = fetches (handle e s)
  /\ transcriptsReady (step e s) = transcriptsReady s.
Proof.
  intros He.
  destruct (step_no_dispatch e s) as (H1 & H2 & H3).
  { apply dispatches_final_same. rewrite handle_finalTranscript.
    destruct e; try reflexivity. now destruct (He i event). }
  rewrite H1, H2, H3, handle_transcriptsReady. repeat split.
Qed.


Lemma timers_nil_unless_listening s :
  Consistent s -> micState (state s) <> listening -> timers s = [].
Proof.
  intros Hc Hne. destruct (timers s) eqn:E; [reflexivity|].
  destruct (cons_timerGuard s Hc) as (_ & Hl & _); [now rewrite E|contradiction].
Qed.

Lemma handle_textInput e s :
  textInput (state (handle e s)) =
  match e with
  | TypeText value =>
      if mounted s && showTextInput (state s) then value else textInput (state s)
  | SubmitText =>
      if mounted s && showTextInput (state s)
      then if Js.truthy (Js.trim (textInput (state s))) then "" else textInput (state s)
      else textInput (state s)
  | CancelText =>
      if mounted s && showTextInput (state s) then "" else textInput (state s)
  | _ => textInput (state s)
  end.
Proof.
  destruct e; try (unfold handle; now rewrite elapse_eq); by_handler;
    try (destruct (mounted s); reflexivity).
  all: try discriminate.
Qed.

Lemma handle_showTextInput e s :
  showTextInput (state (handle e s)) =
  match e with
  | MicClick =>
      if mounted s && negb (micDisabled s)
      then if negb (speechRecognitionSupported s) then true else showTextInput (state s)
      else showTextInput (state s)
  | ShowTextInput => if mounted s then true else showTextInput (state s)
  | SubmitText =>
      if mounted s && showTextInput (state s)
      then if Js.truthy (Js.trim (textInput (state s))) then false
           else showTextInput (state s)
      else showTextInput (state s)
  | CancelText =>
      if mounted s && showTextInput (state s) then false else showTextInput (state s)
  | _ => showTextInput (state s)
  end.
Proof.
  destruct e; try (unfold handle; now rewrite elapse_eq); by_handler;
    try (destruct (mounted s); reflexivity).
  all: try discriminate.
Qed.

(** A turn of an event that is neither a speech result nor a language
    switch runs no effect but the silence effect. *)
Lemma step_quiet e s :
  (forall i event, e <> RecognitionResult i event) ->
  (forall value, e <> SelectLanguage value) ->
  state (step e s) = state (handle e s)
  /\ fetches (step e s) = fetches (handle e s)
  /\ transcriptsReady (step e s) = transcriptsReady s
  /\ recognitions (step e s) = recognitions (handle e s)
  /\ recognitionRef (step e s) = recognitionRef s.
Proof.
  intros He Hl.
  destruct (step_plain e s He) as (H1 & H2 & H3).
  destruct (step_recognitions e s) as (H4 & H5).
  { apply languageChanged_lang_same. rewrite handle_selectedLanguage.
    destruct e; try reflexivity. now destruct (Hl value). }
  auto.
Qed.

(** ** The responder call that succeeds *)



(** ** Replay *)

Lemma step_SelectLanguage_frame value s :
  let s' := step (SelectLanguage value) s in
  voiceResponse (state s') = voiceResponse (state s)
  /\ selectedLanguage (state s') = (if mounted s then value else selectedLanguage (state s))
  /\ mounted s' = mounted s
  /\ speechSynthesisSupported s' = speechSynthesisSupported s
  /\ fetches s' = fetches s.
Proof.
  cbv zeta.
  destruct (step_plain (SelectLanguage value) s) as (Hst & Hfe & _); [discriminate|].
  destruct (step_frame (SelectLanguage value) s) as (Hm & _ & Hsy & _).
  rewrite Hst, Hfe, Hm, Hsy, handle_voiceResponse, handle_selectedLanguage, handle_mounted,
    handle_fetches.
  repeat split. apply handle_supported.
Qed.

(** X6.  Replay speaks the stored answer text again, tagged with the
    language selected now, and dispatches nothing; after a language
    switch the text of the old answer is therefore spoken under the
    new language tag.  While the stored value is falsy, as it is
    before the first response, Replay does nothing. *)
Theorem replay_speaks_with_current_language (s : Session) :
  (forall r value,
      mounted s = true ->
      speechSynthesisSupported s = true ->
      voiceResponse (state s) = toJson r ->
      let s' := run [SelectLanguage value; Replay] s in
      speaking s'
      = Some {| utterance_text := defined (JString (answer_text r)); utterance_lang := value |}
      /\ voiceResponse (state s') = toJson r
      /\ fetches s' = fetches s)
  /\ (forall r,
      mounted s = true ->
      voiceResponse (state s) = toJson r ->
      let s' := step Replay s in
      state s' = state s
      /\ fetches s' = fetches s
      /\ speaking s'
         = (if speechSynthesisSupported s
            then Some {| utterance_text := defined (JString (answer_text r));
                         utterance_lang := selectedLanguage (state s) |}
            else speaking s))
  /\ (toBoolean (voiceResponse (state s)) = false -> step Replay s = s).
Proof.
  assert (forall s0 r,
             mounted s0 = true ->
             voiceResponse (state s0) = toJson r ->
             state (step Replay s0) = state s0
             /\ fetches (step Replay s0) = fetches s0
             /\ speaking (step Replay s0)
                = (if speechSynthesisSupported s0
                   then Some {| utterance_text := defined (JString (answer_text r));
                                utterance_lang := selectedLanguage (state s0) |}
                   else speaking s0)) as Hreplay.
  { intros s0 r Hm Hv.
    assert (state (handle Replay s0) = state s0) as Hst.
    { unfold handle, replay, speakResponse. rewrite Hm, Hv, toBoolean_toJson.
      now destruct (speechSynthesisSupported s0). }
    rewrite (step_no_state_change Replay s0 Hst).
    split; [exact Hst|].
    rewrite handle_fetches, handle_speaking, Hm, Hv, toBoolean_toJson, member_answer_text.
    now split. }
  split; [|split].
  - intros r value Hm Hsy Hv. cbv zeta. cbn [run foldl].
    destruct (step_SelectLanguage_frame value s) as (Hv' & Hl' & Hm' & Hsy' & Hf').
    rewrite Hm in Hl', Hm'. rewrite Hv in Hv'. rewrite Hsy in Hsy'.
    destruct (Hreplay _ r Hm' Hv') as (Hst & Hfe & Hsp).
    rewrite Hsp, Hsy', Hl', Hst, Hv', Hfe, Hf'. repeat split.
  - intros r Hm Hv. now apply Hreplay.
  - intros Hv. apply step_handle_id. unfold handle, replay. rewrite Hv.
    now destruct (mounted s).
Qed.

Lemma replay_speaks_with_current_language_witness :
  let s := run [ShowTextInput; TypeText "hello"; SubmitText; FetchSettled 1 BadStatus;
                PlaybackEnd]
               (mount true true "en") in
  let r := generateMockResponse en_US "hello" in
  (mounted s = true /\ speechSynthesisSupported s = true
   /\ voiceResponse (state s) = toJson r)
  /\ speaking (run [SelectLanguage kn_IN; Replay] s)
     = Some {| utterance_text := defined (JString (answer_text r)); utterance_lang := kn_IN |}.
Proof.
  cbv zeta.
  assert (mounted (run [ShowTextInput; TypeText "hello"; SubmitText; FetchSettled 1 BadStatus;
                        PlaybackEnd] (mount true true "en")) = true) as H1
    by (vm_compute; reflexivity).
  assert (speechSynthesisSupported
            (run [ShowTextInput; TypeText "hello"; SubmitText; FetchSettled 1 BadStatus;
                  PlaybackEnd] (mount true true "en")) = true) as H2
    by (vm_compute; reflexivity).
  assert (voiceResponse
            (state (run [ShowTextInput; TypeText "hello"; SubmitText;
                         FetchSettled 1 BadStatus; PlaybackEnd] (mount true true "en")))
          = toJson (generateMockResponse en_US "hello")) as H3 by (vm_compute; reflexivity).
  split; [auto|].
  destruct (replay_speaks_with_current_language
              (run [ShowTextInput; TypeText "hello"; SubmitText; FetchSettled 1 BadStatus;
                    PlaybackEnd] (mount true true "en"))) as (Ha & _).
  exact (proj1 (Ha _ kn_IN H1 H2 H3)).
Defined.




(** ** The events of a capture *)

(** X8.  An error event of a started capture, in a mounted session
    that can be reached: [micState] is [idle] and [interimTranscript]
    empty afterwards, exactly one notice is shown, and no silence
    timer is left.  Only the error [not-allowed] sets
    [permissionDenied]; every other error, also one the handler has
    no notice of its own for, leaves the flag as it was.  The handler
    does not stop the capture: the instances are as before, the one of
    the event still started, and nothing is dispatched. *)
Theorem recognition_error_returns_to_idle (s : Session) (i : nat) (error : string) :
  reachable s ->
  mounted s = true ->
  isStarted i s = true ->
  let s' := step (RecognitionError i error) s in
  micState (state s') = idle
  /\ interimTranscript (state s') = ""
  /\ permissionDenied (state s')
     = (if String.eqb error "not-allowed" then true else permissionDenied (state s))
  /\ toasts s'
     = (toasts s ++ [if String.eqb error "not-allowed" then MicrophoneAccessDenied
                     else if String.eqb error "no-speech" then NoSpeechDetected
                     else SpeechRecognitionError])%list
  /\ timers s' = []
  /\ recognitions s' = recognitions s
  /\ fetches s' = fetches s.
Proof.
  intros Hr Hm Hi. cbv zeta.
  destruct (step_quiet (RecognitionError i error) s) as (Hst & Hfe & _ & Hre & _);
    [discriminate|discriminate|].
  destruct (step_frame (RecognitionError i error) s) as (_ & _ & _ & _ & _ & _ & Hto & _).
  assert (micState (state (step (RecognitionError i error) s)) = idle) as Hidle.
  { now rewrite Hst, handle_micState, Hi, Hm. }
  split; [exact Hidle|].
  split; [now rewrite Hst, handle_interimTranscript, Hi, Hm|].
  split; [rewrite Hst, handle_permissionDenied, Hi, Hm; now destruct (String.eqb _ _)|].
  split; [now rewrite Hto, handle_toasts, Hi|].
  split; [|split; [now rewrite Hre, handle_recognitions|now rewrite Hfe, handle_fetches]].
  apply timers_nil_unless_listening; [|congruence].
  apply step_consistent, reachable_consistent, Hr.
Qed.

Lemma recognition_error_returns_to_idle_witness :
  let s := run [MicClick; PermissionSettled 1 true; RecognitionStart 0]
               (mount true true "en") in
  (reachable s /\ mounted s = true /\ isStarted 0 s = true)
  /\ permissionDenied (state (step (RecognitionError 0 "service-not-allowed") s)) = false.
Proof.
  cbv zeta.
  assert (reachable (run [MicClick; PermissionSettled 1 true; RecognitionStart 0]
                         (mount true true "en"))) as H1
    by (exists true, true, "en", [MicClick; PermissionSettled 1 true; RecognitionStart 0];
        reflexivity).
  assert (mounted (run [MicClick; PermissionSettled 1 true; RecognitionStart 0]
                       (mount true true "en")) = true) as H2 by (vm_compute; reflexivity).
  assert (isStarted 0 (run [MicClick; PermissionSettled 1 true; RecognitionStart 0]
                           (mount true true "en")) = true) as H3
    by (vm_compute; reflexivity).
  split; [auto|].
  destruct (recognition_error_returns_to_idle _ 0 "service-not-allowed" H1 H2 H3)
    as (_ & _ & Hp & _).
  rewrite Hp. vm_compute. reflexivity.
Defined.

(** X9.  The end event of a capture sets [micState] to [idle]
    whatever it was.  After a final result with text the handler has
    asked the capture to stop, so its end event follows: it takes the
    session from [processing] back to [idle] while the call of the
    utterance is still outstanding, and the microphone button is
    enabled again unless permission was denied. *)
Theorem capture_end_overrides_processing
    (s : Session) (i : nat) (event : SpeechRecognitionEvent) :
  reachable s ->
  mounted s = true ->
  isStarted i s = true ->
  Js.truthy (Js.trim (snd (transcripts event))) = true ->
  let s1 := step (RecognitionResult i event) s in
  let s2 := step (RecognitionEnd i) s1 in
  micState (state s1) = processing
  /\ isStarted i s1 = true
  /\ micState (state s2) = idle
  /\ fetches s2
     = (fetches s ++ [{| fetch_id := nextId s; fetch_query := snd (transcripts event);
                         fetch_lang := selectedLanguage (state s) |}])%list
  /\ isStarted i s2 = false
  /\ micDisabled s2 = permissionDenied (state s).
Proof.
  intros Hr Hm Hi Hf. cbv zeta.
  destruct (step_result_final i event s Hm Hi
              (cons_finalConsumed s (reachable_consistent s Hr)) Hf)
    as (Hp & _ & _ & Hfe & _ & Hre).
  set (s1 := step (RecognitionResult i event) s) in *.
  assert (mounted s1 = true) as Hm1.
  { destruct (step_frame (RecognitionResult i event) s) as (H & _).
    unfold s1. now rewrite H, handle_mounted. }
  assert (isStarted i s1 = true) as Hi1.
  { unfold isStarted in *. rewrite Hre.
    destruct (recognitions s !! i) as [r|] eqn:E; [|discriminate].
    rewrite list_lookup_alter_eq, E. cbn. now rewrite started_stopInstance. }
  destruct (step_quiet (RecognitionEnd i) s1) as (Hst & Hfe2 & _ & Hre2 & _);
    [discriminate|discriminate|].
  assert (micState (state (step (RecognitionEnd i) s1)) = idle) as Hidle.
  { now rewrite Hst, handle_micState, Hi1, Hm1. }
  split; [exact Hp|]. split; [exact Hi1|]. split; [exact Hidle|].
  split; [now rewrite Hfe2, handle_fetches|].
  split.
  - unfold isStarted. rewrite Hre2, handle_recognitions, Hi1, list_lookup_alter_eq.
    now destruct (recognitions s1 !! i).
  - unfold micDisabled. rewrite Hidle. cbn [MicState_eqb orb].
    rewrite step_permissionDenied, handle_permissionDenied.
    unfold s1. now rewrite step_permissionDenied, handle_permissionDenied.
Qed.

Lemma capture_end_overrides_processing_witness :
  let s := run [MicClick; PermissionSettled 1 true; RecognitionStart 0]
               (mount true true "en") in
  let event := {| resultIndex := 0;
                  results := [{| isFinal := true; transcript := "hello" |}] |} in
  (reachable s /\ mounted s = true /\ isStarted 0 s = true
   /\ Js.truthy (Js.trim (snd (transcripts event))) = true)
  /\ micState (state (step (RecognitionEnd 0) (step (RecognitionResult 0 event) s))) = idle
  /\ length (fetches (step (RecognitionEnd 0) (step (RecognitionResult 0 event) s))) = 1.
Proof.
  cbv zeta.
  assert (reachable (run [MicClick; PermissionSettled 1 true; RecognitionStart 0]
                         (mount true true "en"))) as H1
    by (exists true, true, "en", [MicClick; PermissionSettled 1 true; RecognitionStart 0];
        reflexivity).
  assert (mounted (run [MicClick; PermissionSettled 1 true; RecognitionStart 0]
                       (mount true true "en")) = true) as H2 by (vm_compute; reflexivity).
  assert (isStarted 0 (run [MicClick; PermissionSettled 1 true; RecognitionStart 0]
                           (mount true true "en")) = true) as H3
    by (vm_compute; reflexivity).
  assert (Js.truthy
            (Js.trim
               (snd (transcripts
                       {| resultIndex := 0;
                          results := [{| isFinal := true; transcript := "hello" |}] |})))
          = true) as H4 by (vm_compute; reflexivity).
  split; [auto|].
  destruct (capture_end_overrides_processing _ 0 _ H1 H2 H3 H4)
    as (_ & _ & Hidle & Hfe & _).
  split; [exact Hidle|]. rewrite Hfe. vm_compute. reflexivity.
Defined.

(** X10.  A click on the microphone while listening only asks the
    capture in [recognitionRef] to stop: no state cell changes
    ([micState] stays [listening] until the end event of the capture),
    the silence timer stays pending, no permission is requested, and
    no instance is capturing afterwards. *)
Theorem mic_click_while_listening_requests_stop (s : Session) :
  reachable s ->
  mounted s = true ->
  speechRecognitionSupported s = true ->
  micState (state s) = listening ->
  permissionDenied (state s) = false ->
  let s' := step MicClick s in
  state s' = state s
  /\ recognitions s' = stoppedRef s
  /\ (forall i r, recognitions s' !! i = Some r -> capturing r = false)
  /\ timers s' = timers s
  /\ permissionRequests s' = permissionRequests s
  /\ fetches s' = fetches s
  /\ toasts s' = toasts s.
Proof.
  intros Hr Hm Hs Hl Hd. cbv zeta.
  assert (micDisabled s = false) as Hdis.
  { unfold micDisabled. now rewrite Hl, Hd. }
  assert (state (handle MicClick s) = state s) as Hst.
  { unfold handle, handleMicClick. rewrite Hm, Hdis, Hs, Hl. cbn [andb negb].
    destruct (recognitionRef s); reflexivity. }
  rewrite (step_no_state_change MicClick s Hst).
  assert (recognitions (handle MicClick s) = stoppedRef s) as Hre.
  { now rewrite handle_recognitions, Hm, Hdis, Hs, Hl. }
  split; [exact Hst|]. split; [exact Hre|].
  split.
  { rewrite Hre. apply stoppedRef_noCapture, reachable_consistent, Hr. }
  split; [now rewrite handle_timers|].
  split; [now rewrite handle_permissionRequests, Hm, Hdis, Hs, Hl|].
  split; [now rewrite handle_fetches|].
  now rewrite handle_toasts, Hm, Hdis, Hs.
Qed.

Lemma mic_click_while_listening_requests_stop_witness :
  let s := run [MicClick; PermissionSettled 1 true; RecognitionStart 0]
               (mount true true "en") in
  (reachable s /\ mounted s = true /\ speechRecognitionSupported s = true
   /\ micState (state s) = listening /\ permissionDenied (state s) = false)
  /\ micState (state (step MicClick s)) = listening.
Proof.
  cbv zeta.
  assert (reachable (run [MicClick; PermissionSettled 1 true; RecognitionStart 0]
                         (mount true true "en"))) as H1
    by (exists true, true, "en", [MicClick; PermissionSettled 1 true; RecognitionStart 0];
        reflexivity).
  assert (mounted (run [MicClick; PermissionSettled 1 true; RecognitionStart 0]
                       (mount true true "en")) = true) as H2 by (vm_compute; reflexivity).
  assert (speechRecognitionSupported
            (run [MicClick; PermissionSettled 1 true; RecognitionStart 0]
                 (mount true true "en")) = true) as H3 by (vm_compute; reflexivity).
  assert (micState (state (run [MicClick; PermissionSettled 1 true; RecognitionStart 0]
                               (mount true true "en"))) = listening) as H4
    by (vm_compute; reflexivity).
  assert (permissionDenied
            (state (run [MicClick; PermissionSettled 1 true; RecognitionStart 0]
                        (mount true true "en"))) = false) as H5
    by (vm_compute; reflexivity).
  split; [auto 6|].
  destruct (mic_click_while_listening_requests_stop _ H1 H2 H3 H4 H5) as (Hst & _).
  rewrite Hst. exact H4.
Defined.

(** X11.  The start event of a capture, delivered while the session is
    not listening: [micState] becomes [listening], [interimTranscript]
    is emptied, [permissionDenied] is cleared, and the silence timer is
    armed, the only timer pending, due 3000 ms from now.  The event
    changes no instance and dispatches nothing. *)
Theorem capture_start_listens_and_arms (s : Session) (i : nat) :
  reachable s ->
  mounted s = true ->
  isStarted i s = true ->
  micState (state s) <> listening ->
  let s' := step (RecognitionStart i) s in
  micState (state s') = listening
  /\ interimTranscript (state s') = ""
  /\ permissionDenied (state s') = false
  /\ (exists id,
         timers s' = [{| timer_id := id; due := (now s + 3000)%N |}]
         /\ timeoutRef s' = Some id)
  /\ recognitions s' = recognitions s
  /\ fetches s' = fetches s.
Proof.
  intros Hr Hm Hi Hl. cbv zeta.
  destruct (step_quiet (RecognitionStart i) s) as (Hst & Hfe & _ & Hre & _);
    [discriminate|discriminate|].
  assert (micState (state (step (RecognitionStart i) s)) = listening) as Hlis.
  { now rewrite Hst, handle_micState, Hi, Hm. }
  assert (interimTranscript (state (step (RecognitionStart i) s)) = "") as Hint.
  { now rewrite Hst, handle_interimTranscript, Hi, Hm. }
  split; [exact Hlis|]. split; [exact Hint|].
  split; [now rewrite Hst, handle_permissionDenied, Hi, Hm|].
  split; [|split; [now rewrite Hre, handle_recognitions|now rewrite Hfe, handle_fetches]].
  destruct (step_arms (RecognitionStart i) s (reachable_consistent s Hr)) as (id & Ht & Href).
  - unfold silenceChanged. rewrite Hlis.
    destruct (micState (state s)); [reflexivity|contradiction|reflexivity].
  - now apply silent_true.
  - exists id. split; [|exact Href].
    destruct (step_frame (RecognitionStart i) s) as (_ & _ & _ & _ & Hnow & _).
    now rewrite Ht, Hnow, handle_now.
Qed.

Lemma capture_start_listens_and_arms_witness :
  let s := run [MicClick; PermissionSettled 1 true] (mount true true "en") in
  (reachable s /\ mounted s = true /\ isStarted 0 s = true
   /\ micState (state s) <> listening)
  /\ micState (state (step (RecognitionStart 0) s)) = listening.
Proof.
  cbv zeta.
  assert (reachable (run [MicClick; PermissionSettled 1 true] (mount true true "en"))) as H1
    by (exists true, true, "en", [MicClick; PermissionSettled 1 true]; reflexivity).
  assert (mounted (run [MicClick; PermissionSettled 1 true] (mount true true "en")) = true)
    as H2 by (vm_compute; reflexivity).
  assert (isStarted 0 (run [MicClick; PermissionSettled 1 true] (mount true true "en"))
          = true) as H3 by (vm_compute; reflexivity).
  assert (micState (state (run [MicClick; PermissionSettled 1 true] (mount true true "en")))
          <> listening) as H4 by (vm_compute; discriminate).
  split; [auto|].
  exact (proj1 (capture_start_listens_and_arms _ 0 H1 H2 H3 H4)).
Defined.

(** ** The typed query *)

(** X12.  Submitting a typed query that has a character other than
    white space, whatever [micState] is: the text is dispatched
    trimmed, with the selected language, as one more outstanding call;
    [micState] becomes [processing], the text field is emptied and
    closed.  [onTranscriptReady] is not called for a typed query, no
    capture is asked to stop, and no silence timer is left pending. *)
Theorem typed_query_is_trimmed_and_dispatched (s : Session) :
  reachable s ->
  mounted s = true ->
  showTextInput (state s) = true ->
  Js.truthy (Js.trim (textInput (state s))) = true ->
  let s' := step SubmitText s in
  micState (state s') = processing
  /\ textInput (state s') = ""
  /\ showTextInput (state s') = false
  /\ fetches s'
     = (fetches s ++ [{| fetch_id := nextId s; fetch_query := Js.trim (textInput (state s));
                         fetch_lang := selectedLanguage (state s) |}])%list
  /\ transcriptsReady s' = transcriptsReady s
  /\ recognitions s' = recognitions s
  /\ timers s' = [].
Proof.
  intros Hr Hm Hsh Ht. cbv zeta.
  destruct (step_quiet SubmitText s) as (Hst & Hfe & Htr & Hre & _);
    [discriminate|discriminate|].
  assert (micState (state (step SubmitText s)) = processing) as Hp.
  { now rewrite Hst, handle_micState, Hm, Hsh, Ht. }
  split; [exact Hp|].
  split; [now rewrite Hst, handle_textInput, Hm, Hsh, Ht|].
  split; [now rewrite Hst, handle_showTextInput, Hm, Hsh, Ht|].
  split; [now rewrite Hfe, handle_fetches, Hm, Hsh, Ht|].
  split; [exact Htr|].
  split; [now rewrite Hre, handle_recognitions|].
  apply timers_nil_unless_listening; [|congruence].
  apply step_consistent, reachable_consistent, Hr.
Qed.

Lemma typed_query_is_trimmed_and_dispatched_witness :
  let s := run [MicClick; PermissionSettled 1 true; RecognitionStart 0;
                ShowTextInput; TypeText "  hello "]
               (mount true true "en") in
  (reachable s /\ mounted s = true /\ showTextInput (state s) = true
   /\ Js.truthy (Js.trim (textInput (state s))) = true)
  /\ micState (state s) = listening
  /\ micState (state (step SubmitText s)) = processing
  /\ map fetch_query (fetches (step SubmitText s)) = ["hello"]
  /\ map capturing (recognitions (step SubmitText s)) = [true].
Proof.
  cbv zeta.
  assert (reachable (run [MicClick; PermissionSettled 1 true; RecognitionStart 0;
                          ShowTextInput; TypeText "  hello "] (mount true true "en"))) as H1
    by (exists true, true, "en",
          [MicClick; PermissionSettled 1 true; RecognitionStart 0;
           ShowTextInput; TypeText "  hello "]; reflexivity).
  assert (mounted (run [MicClick; PermissionSettled 1 true; RecognitionStart 0;
                        ShowTextInput; TypeText "  hello "] (mount true true "en")) = true)
    as H2 by (vm_compute; reflexivity).
  assert (showTextInput
            (state (run [MicClick; PermissionSettled 1 true; RecognitionStart 0;
                         ShowTextInput; TypeText "  hello "] (mount true true "en")))
          = true) as H3 by (vm_compute; reflexivity).
  assert (Js.truthy
            (Js.trim
               (textInput
                  (state (run [MicClick; PermissionSettled 1 true; RecognitionStart 0;
                               ShowTextInput; TypeText "  hello "]
                              (mount true true "en"))))) = true) as H4
    by (vm_compute; reflexivity).
  split; [auto|].
  destruct (typed_query_is_trimmed_and_dispatched _ H1 H2 H3 H4)
    as (Hp & _ & _ & Hfe & _ & Hre & _).
  split; [vm_compute; reflexivity|]. split; [exact Hp|].
  rewrite Hfe, Hre. split; vm_compute; reflexivity.
Defined.

(** ** A browser without speech recognition *)

Lemma commit_recognitions_unsupported prev s :
  speechRecognitionSupported s = false ->
  recognitions (commit prev s) = recognitions s
  /\ recognitionRef (commit prev s) = recognitionRef s.
Proof.
  intros Hs. rewrite commit_eq. cbv zeta. rewrite runEffects_eq. cbv zeta.
  rewrite Hs, andb_false_r. destruct (_ && _ && _); split; reflexivity.
Qed.

Lemma isStarted_nil i s : recognitions s = [] -> isStarted i s = false.
Proof. intros H. unfold isStarted. now rewrite H. Qed.

Lemma unsupported_step e s :
  speechRecognitionSupported s = false
  /\ recognitions s = [] /\ recognitionRef s = None /\ permissionRequests s = []
  /\ micState (state s) <> listening /\ permissionDenied (state s) = false ->
  speechRecognitionSupported (step e s) = false
  /\ recognitions (step e s) = [] /\ recognitionRef (step e s) = None
  /\ permissionRequests (step e s) = []
  /\ micState (state (step e s)) <> listening /\ permissionDenied (state (step e s)) = false.
Proof.
  intros (Hs & Hre & Href & Hpr & Hl & Hd).
  destruct (step_frame e s) as (_ & Hs' & _ & Hpr' & _).
  assert (speechRecognitionSupported (handle e s) = false) as Hsh
    by (now rewrite (proj1 (handle_supported e s))).
  assert (recognitions (handle e s) = []) as Hreh.
  { rewrite handle_recognitions. unfold stoppedRef.
    destruct e; rewrite ?(isStarted_nil _ s Hre), ?Href, ?Hs, ?Hpr, ?Hre; cbn [negb find];
      try reflexivity.
    - now destruct (_ && _).
    - now destruct (mounted s).
    - now destruct (filter _ _). }
  assert (recognitions (step e s) = [] /\ recognitionRef (step e s) = None) as (H1 & H2).
  { unfold step. cbv zeta. destruct (mounted (handle e s)).
    - destruct (commit_recognitions_unsupported (state s) (handle e s) Hsh) as (-> & ->).
      now rewrite handle_recognitionRef.
    - now rewrite handle_recognitionRef. }
  split; [now rewrite Hs'|]. split; [exact H1|]. split; [exact H2|].
  split.
  { rewrite Hpr', handle_permissionRequests.
    destruct e; rewrite ?Hs, ?Hpr; cbn [negb find]; try reflexivity.
    now destruct (_ && _). }
  split.
  - assert (micState (state (handle e s)) <> listening) as Hlh.
    { rewrite handle_micState.
      destruct e; rewrite ?(isStarted_nil _ s Hre); try exact Hl.
      + destruct (_ && _); [|exact Hl]. now destruct (Js.truthy _).
      + destruct (find _ _); [|exact Hl]. now destruct (mounted s). }
    destruct (step_micState_unless_dispatch e s) as [-> | ->]; [exact Hlh|discriminate].
  - rewrite step_permissionDenied, handle_permissionDenied.
    destruct e; rewrite ?(isStarted_nil _ s Hre), ?Hpr; cbn [find]; exact Hd.
Qed.

Lemma unsupported_run synthesisSupported appLang es :
  let s := run es (mount false synthesisSupported appLang) in
  speechRecognitionSupported s = false
  /\ recognitions s = [] /\ recognitionRef s = None /\ permissionRequests s = []
  /\ micState (state s) <> listening /\ permissionDenied (state s) = false.
Proof.
  cbv zeta. induction es as [|e es IH] using rev_ind.
  - cbn [run foldl]. rewrite mount_eq. cbn. repeat split. discriminate.
  - unfold run in *. rewrite foldl_app. cbn [foldl]. now apply unsupported_step.
Qed.



(** X13.  Where the browser has no speech recognition, whatever
    happens after the mount: no recognition instance exists, no
    permission is ever requested, no silence timer is ever armed, the
    session never listens and [permissionDenied] is never set.  A
    click on the microphone (enabled unless a typed query is being
    processed) shows the notice that the browser is not supported and
    opens the text input. *)
Theorem unsupported_browser_never_listens
    (synthesisSupported : bool) (appLang : string) (es : list Event) :
  let s := run es (mount false synthesisSupported appLang) in
  recognitions s = []
  /\ recognitionRef s = None
  /\ permissionRequests s = []
  /\ timers s = []
  /\ micState (state s) <> listening
  /\ permissionDenied (state s) = false
  /\ (mounted s = true ->
      micState (state s) <> processing ->
      toasts (step MicClick s) = (toasts s ++ [NotSupported])%list
      /\ showTextInput (state (step MicClick s)) = true
      /\ micState (state (step MicClick s)) = micState (state s)).
Proof.
  cbv zeta.
  pose proof (unsupported_run synthesisSupported appLang es) as Hinv. cbv zeta in Hinv.
  assert (Consistent (run es (mount false synthesisSupported appLang))) as Hc.
  { apply reachable_consistent. now exists false, synthesisSupported, appLang, es. }
  set (s := run es (mount false synthesisSupported appLang)) in *.
  destruct Hinv as (Hs & Hre & Href & Hpr & Hl & Hd).
  split; [exact Hre|]. split; [exact Href|]. split; [exact Hpr|].
  split; [now apply timers_nil_unless_listening|].
  split; [exact Hl|]. split; [exact Hd|].
  intros Hm Hp.
  assert (micDisabled s = false) as Hdis.
  { unfold micDisabled. rewrite Hd. now destruct (micState (state s)). }
  destruct (step_quiet MicClick s) as (Hst & _); [discriminate|discriminate|].
  destruct (step_frame MicClick s) as (_ & _ & _ & _ & _ & _ & Hto & _).
  rewrite Hst, Hto, handle_toasts, handle_showTextInput, handle_micState, Hm, Hdis, Hs.
  repeat split.
Qed.

Lemma unsupported_browser_never_listens_witness :
  let s := run [MicClick; TypeText "hello"; SubmitText; FetchSettled 1 NetworkError]
               (mount false true "en") in
  (mounted s = true /\ micState (state s) <> processing)
  /\ toasts (step MicClick s) = (toasts s ++ [NotSupported])%list.
Proof.
  cbv zeta.
  assert (mounted (run [MicClick; TypeText "hello"; SubmitText; FetchSettled 1 NetworkError]
                       (mount false true "en")) = true) as H1 by (vm_compute; reflexivity).
  assert (micState (state (run [MicClick; TypeText "hello"; SubmitText;
                                FetchSettled 1 NetworkError] (mount false true "en")))
          <> processing) as H2 by (vm_compute; discriminate).
  split; [auto|].
  destruct (unsupported_browser_never_listens
              true "en" [MicClick; TypeText "hello"; SubmitText; FetchSettled 1 NetworkError])
    as (_ & _ & _ & _ & _ & _ & H).
  exact (proj1 (H H1 H2)).
Defined.

(** ** What is dispatched *)

Lemma Forall_filter_keep {A} (P : A -> Prop) (Q : A -> Prop) `{!forall x, Decision (Q x)}
    (l : list A) :
  Forall P l -> Forall P (filter Q l).
Proof.
  induction 1 as [|x l Hx Hl IH]; [constructor|].
  rewrite filter_cons. destruct (decide (Q x)); [now constructor|exact IH].
Qed.

Lemma commit_fetches_spoken (P : Fetch -> Prop) prev s :
  (forall id l q, Js.truthy (Js.trim q) = true ->
                  P {| fetch_id := id; fetch_query := q; fetch_lang := l |}) ->
  Forall P (fetches s) -> Forall P (fetches (commit prev s)).
Proof.
  intros HP H.
  assert (Forall P (fetches (runEffects prev s))) as Hr.
  { rewrite runEffects_eq. session_cbn. destruct (dispatches prev (state s)) eqn:E; [|exact H].
    apply Forall_app. split; [exact H|]. apply Forall_singleton, HP.
    unfold dispatches in E. now apply andb_true_iff in E as [_ E]. }
  rewrite commit_eq. cbv zeta. now destruct (_ && _ && _).
Qed.

(** X14.  In every session that can be reached, between two turns: the
    [finalTranscript] cell holds white space at most (a final
    transcript with any other character has been dispatched and
    cleared in the turn that stored it), and every call that is
    outstanding carries a query with a character other than white
    space.  No blank query is ever sent to the responder. *)
Theorem no_blank_query_is_dispatched (s : Session) :
  reachable s ->
  Js.truthy (Js.trim (finalTranscript (state s))) = false
  /\ Forall (fun f => Js.truthy (Js.trim (fetch_query f)) = true) (fetches s).
Proof.
  intros Hr. split; [exact (cons_finalConsumed s (reachable_consistent s Hr))|].
  destruct Hr as (a & b & appLang & es & ->).
  induction es as [|e es IH] using rev_ind.
  - cbn [run foldl]. rewrite mount_eq. constructor.
  - unfold run in *. rewrite foldl_app. cbn [foldl].
    set (s := foldl (fun acc e => step e acc) (mount a b appLang) es) in *.
    assert (Forall (fun f => Js.truthy (Js.trim (fetch_query f)) = true)
                   (fetches (handle e s))) as Hh.
    { rewrite handle_fetches. destruct e; try exact IH.
      - destruct (_ && _); [|exact IH].
        destruct (Js.truthy (Js.trim (textInput (state s)))) eqn:E; [|exact IH].
        apply Forall_app. split; [exact IH|]. apply Forall_singleton.
        cbn [fetch_query]. now rewrite trim_trim.
      - destruct (find _ _); [|exact IH]. now apply Forall_filter_keep. }
    unfold step. cbv zeta. destruct (mounted (handle e s)); [|exact Hh].
    apply commit_fetches_spoken; [|exact Hh]. intros id l q Hq. exact Hq.
Qed.

Lemma no_blank_query_is_dispatched_witness :
  let s := run [ShowTextInput; TypeText "  hello "; SubmitText] (mount true true "en") in
  reachable s
  /\ Forall (fun f => Js.truthy (Js.trim (fetch_query f)) = true) (fetches s)
  /\ length (fetches s) = 1.
Proof.
  cbv zeta.
  assert (reachable (run [ShowTextInput; TypeText "  hello "; SubmitText]
                         (mount true true "en"))) as H1
    by (exists true, true, "en", [ShowTextInput; TypeText "  hello "; SubmitText];
        reflexivity).
  split; [exact H1|].
  split; [exact (proj2 (no_blank_query_is_dispatched _ H1))|].
  vm_compute. reflexivity.
Defined.

(** ** Listening needs a capture *)

Lemma started_alter (f : Recognition -> Recognition) j (l : list Recognition) i r :
  (forall x, started x = true -> started (f x) = true) ->
  l !! i = Some r -> started r = true ->
  exists r', alter f j l !! i = Some r' /\ started r' = true.
Proof.
  intros Hf Hi Hr. destruct (decide (j = i)) as [->|Hne].
  - exists (f r). rewrite list_lookup_alter_eq, Hi. split; [reflexivity|now apply Hf].
  - exists r. now rewrite list_lookup_alter_ne.
Qed.

Lemma started_stoppedRef s i r :
  recognitions s !! i = Some r -> started r = true ->
  exists r', stoppedRef s !! i = Some r' /\ started r' = true.
Proof.
  intros Hi Hr. destruct (stoppedRef_lookup s i r Hi) as (r' & H1 & _ & H2).
  exists r'. split; [exact H1|congruence].
Qed.

Lemma commit_started prev s i r :
  recognitions s !! i = Some r -> started r = true ->
  exists r', recognitions (commit prev s) !! i = Some r' /\ started r' = true.
Proof.
  intros Hi Hr.
  assert (exists r', recognitions (runEffects prev s) !! i = Some r' /\ started r' = true)
    as Hrun.
  { rewrite runEffects_eq. session_cbn. destruct (_ && _); [|now exists r].
    destruct (started_stoppedRef s i r Hi Hr) as (r' & H1 & H2).
    exists r'. split; [|exact H2]. now apply lookup_app_l_Some. }
  rewrite commit_eq. cbv zeta. now destruct (_ && _ && _).
Qed.

Lemma handle_started e s i r :
  (forall j, e = RecognitionEnd j -> isStarted j s = false) ->
  recognitions s !! i = Some r -> started r = true ->
  exists r', recognitions (handle e s) !! i = Some r' /\ started r' = true.
Proof.
  intros He Hi Hr. rewrite handle_recognitions.
  assert (forall x, started x = true -> started (stopInstance x) = true) as Hstop
    by (intros x Hx; now rewrite started_stopInstance).
  destruct e; try (now exists r).
  - destruct (_ && _); [|now exists r]. destruct (negb _); [now exists r|].
    destruct (micState (state s)); try (now exists r).
    now apply (started_stoppedRef s i r).
  - destruct (mounted s); [|now exists r]. destruct (negb _); [now exists r|].
    now apply (started_stoppedRef s i r).
  - destruct (find _ _) as [p|]; [|now exists r]. destruct granted; [|now exists r].
    destruct (recognitionRef s) as [k|]; [|now exists r].
    destruct (started_alter (setLang (perm_lang p)) k (recognitions s) i r)
      as (r1 & H1 & H2); [now intros x Hx|exact Hi|exact Hr|].
    apply (started_alter startInstance k _ i r1); [|exact H1|exact H2].
    intros x Hx. unfold startInstance. now rewrite Hx.
  - destruct (isStarted i0 s); [|now exists r]. destruct (Js.truthy _); [|now exists r].
    now apply (started_alter stopInstance i0 _ i r).
  - rewrite (He i0 eq_refl). now exists r.
  - destruct (filter _ _); [now exists r|]. now apply (started_stoppedRef s i r).
Qed.

(** X15.  In every mounted session that can be reached, while
    [micState] is [listening] some recognition instance has been
    started and has not ended yet (it may have been asked to
    stop). *)
Theorem listening_has_a_started_capture (s : Session) :
  reachable s ->
  mounted s = true ->
  micState (state s) = listening ->
  exists i r, recognitions s !! i = Some r /\ started r = true.
Proof.
  intros (a & b & appLang & es & ->).
  induction es as [|e es IH] using rev_ind.
  - cbn [run foldl]. rewrite mount_eq. cbn. discriminate.
  - unfold run in *. rewrite foldl_app. cbn [foldl].
    set (s := foldl (fun acc e => step e acc) (mount a b appLang) es) in *.
    intros Hm Hl.
    destruct (step_frame e s) as (Hm' & _).
    rewrite Hm' in Hm.
    assert (mounted s = true) as Hms.
    { rewrite handle_mounted in Hm. now destruct e. }
    assert (micState (state (handle e s)) = listening) as Hlh.
    { destruct (step_micState_unless_dispatch e s) as [H | H]; congruence. }
    assert (forall j, e = RecognitionEnd j -> isStarted j s = false) as He.
    { intros j ->. rewrite handle_micState, Hms in Hlh.
      destruct (isStarted j s); [discriminate|reflexivity]. }
    assert (exists i r, recognitions s !! i = Some r /\ started r = true)
      as (i & r & Hi & Hr).
    { rewrite handle_micState, Hms in Hlh.
      destruct e; try (now apply IH).
      - destruct (_ && showTextInput _); [|now apply IH].
        destruct (Js.truthy _); [discriminate|now apply IH].
      - unfold isStarted in Hlh. destruct (recognitions s !! i) as [r|] eqn:E.
        + destruct (started r) eqn:Er; [now exists i, r|now apply IH].
        + now apply IH.
      - destruct (isStarted i s); [discriminate|now apply IH].
      - destruct (isStarted i s); [discriminate|now apply IH].
      - destruct (find _ _); [discriminate|now apply IH]. }
    destruct (handle_started e s i r He Hi Hr) as (r1 & H1 & H2).
    rewrite (step_mounted_eq e s Hm).
    destruct (commit_started (state s) (handle e s) i r1 H1 H2) as (r2 & H3 & H4).
    now exists i, r2.
Qed.

Lemma listening_has_a_started_capture_witness :
  let s := run [MicClick; PermissionSettled 1 true; RecognitionStart 0; MicClick]
               (mount true true "en") in
  (reachable s /\ mounted s = true /\ micState (state s) = listening)
  /\ exists i r, recognitions s !! i = Some r /\ started r = true.
Proof.
  cbv zeta.
  assert (reachable (run [MicClick; PermissionSettled 1 true; RecognitionStart 0; MicClick]
                         (mount true true "en"))) as H1
    by (exists true, true, "en",
          [MicClick; PermissionSettled 1 true; RecognitionStart 0; MicClick];
        reflexivity).
  assert (mounted (run [MicClick; PermissionSettled 1 true; RecognitionStart 0; MicClick]
                       (mount true true "en")) = true) as H2 by (vm_compute; reflexivity).
  assert (micState (state (run [MicClick; PermissionSettled 1 true; RecognitionStart 0;
                                MicClick] (mount true true "en"))) = listening) as H3
    by (vm_compute; reflexivity).
  split; [auto|].
  exact (listening_has_a_started_capture _ H1 H2 H3).
Defined.

(** ** Leaving the voice view *)



(** * Properties of the profile form *)

Lemma arrayIncludes_app l1 l2 x :
  arrayIncludes (l1 ++ l2) x
  = arrayIncludes l1 x || arrayIncludes l2 x.
Proof. apply existsb_app. Qed.

Lemma arrayIncludes_filter l c x :
  arrayIncludes (List.filter (fun id => negb (String.eqb id c)) l) x
  = negb (String.eqb x c) && arrayIncludes l x.
Proof.
  unfold arrayIncludes.
  induction l as [|y l IH]; [now rewrite andb_false_r|].
  cbn [List.filter existsb]. destruct (String.eqb_spec y c) as [->|Hne]; cbn [negb].
  - rewrite IH. rewrite (String.eqb_sym c x).
    now destruct (String.eqb x c); cbn [negb andb orb].
  - cbn [existsb]. rewrite IH.
    destruct (String.eqb_spec y x) as [->|Hne']; cbn [orb].
    + apply String.eqb_neq in Hne. now rewrite Hne.
    + reflexivity.
Qed.

Lemma arrayIncludes_In l x : arrayIncludes l x = true <-> In x l.
Proof.
  unfold arrayIncludes. rewrite existsb_exists. split.
  - intros (y & Hy & E). apply String.eqb_eq in E. now subst.
  - intros H. exists x. split; [exact H|apply String.eqb_refl].
Qed.

Lemma filter_absent l c :
  ~ In c l -> List.filter (fun id => negb (String.eqb id c)) l = l.
Proof.
  induction l as [|y l IH]; [reflexivity|]. intros H. cbn [List.filter].
  destruct (String.eqb_spec y c) as [->|Hne]; cbn [negb].
  - destruct H. now left.
  - rewrite IH; [reflexivity|]. intros Hin. apply H. now right.
Qed.

Lemma filter_present l c :
  List.NoDup l -> In c l ->
  Permutation (List.filter (fun id => negb (String.eqb id c)) l ++ [c]) l.
Proof.
  induction 1 as [|y l Hy Hl IH]; [intros []|]. intros Hin. cbn [List.filter].
  destruct (String.eqb_spec y c) as [->|Hne]; cbn [negb].
  - rewrite (filter_absent l c Hy). symmetry. apply Permutation_cons_append.
  - destruct Hin as [->|Hin]; [contradiction|]. cbn. constructor. now apply IH.
Qed.

(** X17.  After [handleHealthConditionChange] for a condition, the
    check box of that condition shows the value the handler was given,
    and the check box of every other condition shows what it showed
    before; name, age and gender are untouched. *)
Theorem check_box_shows_the_last_change
    (prev : ProfileSetup.UserProfile) (conditionId : string) (checked : bool) (c : string) :
  let p := ProfileSetup.handleHealthConditionChange conditionId checked prev in
  ProfileSetup.checked p c
  = (if String.eqb c conditionId then checked else ProfileSetup.checked prev c)
  /\ ProfileSetup.name p = ProfileSetup.name prev
  /\ ProfileSetup.age p = ProfileSetup.age prev
  /\ ProfileSetup.gender p = ProfileSetup.gender prev.
Proof.
  cbv zeta. split; [|repeat split].
  unfold ProfileSetup.checked, ProfileSetup.handleHealthConditionChange.
  cbn [ProfileSetup.healthConditions]. destruct checked.
  - rewrite arrayIncludes_app. unfold arrayIncludes at 2. cbn [existsb].
    rewrite orb_false_r, (String.eqb_sym conditionId c).
    destruct (String.eqb c conditionId); [apply orb_true_r|apply orb_false_r].
  - rewrite arrayIncludes_filter. now destruct (String.eqb c conditionId).
Qed.

(** X18.  A check box that reports the opposite of what it shows keeps
    the selected conditions free of duplicates.  Checking a condition
    and unchecking it again gives back the profile as it was;
    unchecking and checking again gives the same conditions with that
    one moved to the end. *)
Theorem toggling_keeps_conditions_distinct
    (prev : ProfileSetup.UserProfile) (conditionId : string) (checked : bool) :
  List.NoDup (ProfileSetup.healthConditions prev) ->
  checked = negb (ProfileSetup.checked prev conditionId) ->
  let p := ProfileSetup.handleHealthConditionChange conditionId checked prev in
  List.NoDup (ProfileSetup.healthConditions p)
  /\ (checked = true -> ProfileSetup.handleHealthConditionChange conditionId false p = prev)
  /\ (checked = false ->
      Permutation
        (ProfileSetup.healthConditions
           (ProfileSetup.handleHealthConditionChange conditionId true p))
        (ProfileSetup.healthConditions prev)
      /\ last (ProfileSetup.healthConditions
                 (ProfileSetup.handleHealthConditionChange conditionId true p))
         = Some conditionId).
Proof.
  intros Hnd Hc. cbv zeta. destruct prev as [n a g l].
  unfold ProfileSetup.checked in Hc. cbn [ProfileSetup.healthConditions] in *.
  unfold ProfileSetup.handleHealthConditionChange.
  cbn [ProfileSetup.healthConditions ProfileSetup.name ProfileSetup.age ProfileSetup.gender].
  destruct (arrayIncludes l conditionId) eqn:E; cbn [negb] in Hc; subst checked.
  - apply arrayIncludes_In in E.
    split; [apply List.NoDup_filter, Hnd|]. split; [discriminate|].
    intros _. split; [now apply filter_present|apply last_snoc].
  - assert (~ In conditionId l) as Hni.
    { intros Hin. apply arrayIncludes_In in Hin. congruence. }
    split.
    + apply List.NoDup_app; [exact Hnd|repeat constructor; intros []|].
      intros x Hx [<-|[]]. contradiction.
    + split; [|discriminate]. intros _. f_equal.
      rewrite List.filter_app. cbn [List.filter]. rewrite String.eqb_refl. cbn [negb].
      rewrite app_nil_r. now apply filter_absent.
Qed.

Lemma toggling_keeps_conditions_distinct_witness :
  let prev := {| ProfileSetup.name := "Asha"; ProfileSetup.age := "61";
                 ProfileSetup.gender := "Female";
                 ProfileSetup.healthConditions := ["diabetes"; "asthma"] |} in
  (List.NoDup (ProfileSetup.healthConditions prev)
   /\ false = negb (ProfileSetup.checked prev "diabetes"))
  /\ List.NoDup (ProfileSetup.healthConditions
              (ProfileSetup.handleHealthConditionChange "diabetes" false prev)).
Proof.
  cbv zeta.
  assert (List.NoDup ["diabetes"; "asthma"]) as H1.
  { constructor; [intros [H|[]]; discriminate H|].
    constructor; [intros []|constructor]. }
  assert (false
          = negb (ProfileSetup.checked
                    {| ProfileSetup.name := "Asha"; ProfileSetup.age := "61";
                       ProfileSetup.gender := "Female";
                       ProfileSetup.healthConditions := ["diabetes"; "asthma"] |}
                    "diabetes")) as H2 by (vm_compute; reflexivity).
  split; [split; [exact H1|exact H2]|].
  exact (proj1 (toggling_keeps_conditions_distinct
                  {| ProfileSetup.name := "Asha"; ProfileSetup.age := "61";
                     ProfileSetup.gender := "Female";
                     ProfileSetup.healthConditions := ["diabetes"; "asthma"] |}
                  "diabetes" false H1 H2)).
Defined.

(** * Properties of the wellness tips *)

(** X19.  Of the conditions of the profile only diabetes and
    hypertension matter to the tips, and only to the content of the
    diet tip: checking or unchecking any other condition in the
    profile form leaves all tips as they were.  With hypertension
    among the conditions the diet advice is the one for hypertension,
    whether or not diabetes is among them too. *)
Theorem tips_depend_on_two_conditions
    (prev : ProfileSetup.UserProfile) (conditionId : string) (checked : bool) :
  let p := ProfileSetup.handleHealthConditionChange conditionId checked prev in
  let tips := WellnessTips.getTodaysTips (ProfileSetup.healthConditions prev) in
  (conditionId <> "diabetes" -> conditionId <> "hypertension" ->
   WellnessTips.getTodaysTips (ProfileSetup.healthConditions p) = tips)
  /\ (ProfileSetup.checked prev "hypertension" = true ->
      tips = WellnessTips.getTodaysTips ["hypertension"])
  /\ WellnessTips.exercise tips = WellnessTips.exercise WellnessTips.baseTips
  /\ WellnessTips.hydration tips = WellnessTips.hydration WellnessTips.baseTips
  /\ WellnessTips.wellness tips = WellnessTips.wellness WellnessTips.baseTips
  /\ WellnessTips.title (WellnessTips.diet tips)
     = WellnessTips.title (WellnessTips.diet WellnessTips.baseTips)
  /\ WellnessTips.details (WellnessTips.diet tips)
     = WellnessTips.details (WellnessTips.diet WellnessTips.baseTips).
Proof.
  cbv zeta. split; [|split].
  - intros Hd Hh. unfold WellnessTips.getTodaysTips. cbv zeta.
    assert (forall c, c <> conditionId ->
              arrayIncludes
                (ProfileSetup.healthConditions
                   (ProfileSetup.handleHealthConditionChange conditionId checked prev)) c
              = arrayIncludes (ProfileSetup.healthConditions prev) c) as Hsame.
    { intros c Hc. apply String.eqb_neq in Hc.
      unfold ProfileSetup.handleHealthConditionChange.
      cbn [ProfileSetup.healthConditions]. destruct checked.
      - rewrite arrayIncludes_app. unfold arrayIncludes at 2. cbn [existsb].
        now rewrite (String.eqb_sym conditionId c), Hc, !orb_false_r.
      - now rewrite arrayIncludes_filter, Hc. }
    rewrite !Hsame by congruence. reflexivity.
  - unfold ProfileSetup.checked, WellnessTips.getTodaysTips. cbv zeta. intros ->.
    now destruct (arrayIncludes _ "diabetes").
  - unfold WellnessTips.getTodaysTips. cbv zeta.
    destruct (arrayIncludes _ "diabetes"), (arrayIncludes _ "hypertension");
      repeat split.
Qed.

Lemma tips_depend_on_two_conditions_witness :
  let prev := {| ProfileSetup.name := "Asha"; ProfileSetup.age := "61";
                 ProfileSetup.gender := "Female";
                 ProfileSetup.healthConditions := ["diabetes"; "hypertension"] |} in
  ("kidney" <> "diabetes" /\ "kidney" <> "hypertension"
   /\ ProfileSetup.checked prev "hypertension" = true)
  /\ WellnessTips.getTodaysTips
       (ProfileSetup.healthConditions
          (ProfileSetup.handleHealthConditionChange "kidney" true prev))
     = WellnessTips.getTodaysTips ["hypertension"].
Proof.
  cbv zeta.
  assert ("kidney" <> "diabetes") as H1 by discriminate.
  assert ("kidney" <> "hypertension") as H2 by discriminate.
  assert (ProfileSetup.checked
            {| ProfileSetup.name := "Asha"; ProfileSetup.age := "61";
               ProfileSetup.gender := "Female";
               ProfileSetup.healthConditions := ["diabetes"; "hypertension"] |}
            "hypertension" = true) as H3 by (vm_compute; reflexivity).
  split; [auto|].
  destruct (tips_depend_on_two_conditions
              {| ProfileSetup.name := "Asha"; ProfileSetup.age := "61";
                 ProfileSetup.gender := "Female";
                 ProfileSetup.healthConditions := ["diabetes"; "hypertension"] |}
              "kidney" true) as (Ha & Hb & _).
  rewrite (Ha H1 H2). exact (Hb H3).
Defined.

(** * Properties of the page *)

Lemma existsb_if {A} (f : A -> bool) (c : bool) (x : A) :
  existsb f (if c then [x] else []) = c && f x.
Proof. destruct c; cbn; [apply orb_false_r|reflexivity]. Qed.

Lemma shows_eq v a :
  Index.shows v a =
  let current := String.eqb (Index.currentState a) in
  match v with
  | Index.LanguageSelectorView => current "language"
  | Index.ProfileSetupView => current "profile"
  | Index.DashboardView => current "dashboard" && Index.isSome (Index.userProfile a)
  | Index.PrescriptionUploadView => current "scan" || current "upload"
  | Index.WellnessTipsView => current "wellness" && Index.isSome (Index.userProfile a)
  | Index.VoiceAssistantView => current "voice"
  | Index.ComingSoonView => current "medicines" || current "reminders" || current "progress"
  end.
Proof.
  unfold Index.shows, Index.render. cbv zeta.
  rewrite !existsb_app, !existsb_if.
  destruct v; cbn [Index.View_eqb];
    rewrite ?andb_false_r, ?andb_true_r, ?orb_false_r, ?orb_false_l; reflexivity.
Qed.

Lemma run_snoc es e a : Index.run (es ++ [e]) a = Index.handle e (Index.run es a).
Proof. unfold Index.run. now rewrite foldl_app. Qed.

Lemma handle_inv e a :
  (Index.currentState a <> "language" -> Index.selectedLanguage a <> None)
  /\ (forall p, Index.userProfile a = Some p ->
                ProfileSetup.name p <> "" /\ ProfileSetup.age p <> ""
                /\ ProfileSetup.gender p <> "")
  /\ (Index.currentState a <> "language" -> Index.currentState a <> "profile" ->
      Index.userProfile a <> None) ->
  let a' := Index.handle e a in
  (Index.currentState a' <> "language" -> Index.selectedLanguage a' <> None)
  /\ (forall p, Index.userProfile a' = Some p ->
                ProfileSetup.name p <> "" /\ ProfileSetup.age p <> ""
                /\ ProfileSetup.gender p <> "")
  /\ (Index.currentState a' <> "language" -> Index.currentState a' <> "profile" ->
      Index.userProfile a' <> None).
Proof.
  intros (H1 & H2 & H3). cbv zeta.
  destruct e; cbn [Index.handle].
  - rewrite shows_eq. cbv zeta.
    destruct (String.eqb_spec (Index.currentState a) "language") as [E|E];
      [|cbn [andb Index.isSome]; now auto].
    cbn. split; [discriminate|]. split; [exact H2|]. intros _ H. now destruct H.
  - destruct (Index.shows _ a); cbn; auto.
  - destruct (Index.shows _ a); cbn; auto.
  - destruct (Index.shows _ a); cbn; auto.
  - destruct (_ && _); cbn; auto.
  - rewrite shows_eq. cbv zeta.
    destruct (String.eqb_spec (Index.currentState a) "profile") as [E|E];
      [|cbn [andb Index.isSome]; now auto].
    unfold ProfileSetup.handleSubmit.
    destruct (Js.truthy (ProfileSetup.name (Index.profile a))) eqn:En;
      [|cbn [andb Index.isSome]; now auto].
    destruct (Js.truthy (ProfileSetup.age (Index.profile a))) eqn:Ea;
      [|cbn [andb Index.isSome]; now auto].
    destruct (Js.truthy (ProfileSetup.gender (Index.profile a))) eqn:Eg;
      [|cbn [andb Index.isSome]; now auto].
    cbn. split; [intros _; apply H1; rewrite E; discriminate|].
    split; [|discriminate].
    intros p [= <-]. now rewrite <- !truthy_true.
  - rewrite shows_eq. cbv zeta.
    destruct (String.eqb_spec (Index.currentState a) "dashboard") as [E|E];
      [|cbn [andb Index.isSome]; now auto].
    destruct (Index.isSome (Index.userProfile a)) eqn:Ep; [|cbn [andb]; now auto].
    cbn. split; [intros _; apply H1; rewrite E; discriminate|].
    split; [exact H2|]. intros _ _ H. rewrite H in Ep. discriminate Ep.
  - assert (Index.shows Index.PrescriptionUploadView a || Index.shows Index.WellnessTipsView a
            || Index.shows Index.VoiceAssistantView a || Index.shows Index.ComingSoonView a
            = true ->
            Index.currentState a <> "language" /\ Index.currentState a <> "profile") as Hv.
    { rewrite !shows_eq. cbv zeta. intros Hs.
      split; intros E; rewrite E in Hs; vm_compute in Hs; discriminate Hs. }
    destruct (_ || _ || _ || _);
      [|cbn [andb Index.isSome]; now auto].
    destruct (Hv eq_refl) as (Hl & Hp).
    cbn. split; [intros _; now apply H1|]. split; [exact H2|]. intros _ _. now apply H3.
Qed.

Lemma run_inv (es : list Index.Event) :
  let a := Index.run es Index.initial in
  (Index.currentState a <> "language" -> Index.selectedLanguage a <> None)
  /\ (forall p, Index.userProfile a = Some p ->
                ProfileSetup.name p <> "" /\ ProfileSetup.age p <> ""
                /\ ProfileSetup.gender p <> "")
  /\ (Index.currentState a <> "language" -> Index.currentState a <> "profile" ->
      Index.userProfile a <> None).
Proof.
  cbv zeta. induction es as [|e es IH] using rev_ind.
  - cbn. split; [intros H; now destruct H|]. split; [discriminate|].
    intros H; now destruct H.
  - rewrite run_snoc. now apply handle_inv.
Qed.

(** X20.  Whatever the user does from the first page on: a language
    has been selected in every state but ['language']; a profile has
    been handed over in every state but ['language'] and ['profile'];
    and the profile handed over has a non-empty name, age and gender
    (nothing more is checked: the texts are taken as typed). *)
Theorem views_need_language_and_profile (es : list Index.Event) :
  let a := Index.run es Index.initial in
  (Index.currentState a <> "language" -> Index.selectedLanguage a <> None)
  /\ (forall p, Index.userProfile a = Some p ->
                ProfileSetup.name p <> "" /\ ProfileSetup.age p <> ""
                /\ ProfileSetup.gender p <> "")
  /\ (Index.currentState a <> "language" -> Index.currentState a <> "profile" ->
      Index.userProfile a <> None).
Proof.
  cbv zeta. induction es as [|e es IH] using rev_ind.
  - cbn. split; [intros H; now destruct H|]. split; [discriminate|].
    intros H; now destruct H.
  - rewrite run_snoc. now apply handle_inv.
Qed.

Lemma views_need_language_and_profile_witness :
  let a := Index.run
             [Index.SelectLanguage
                {| Index.code := "kn"; Index.name := "Kannada";
                   Index.nativeName := "Kannada"; Index.flag := "IN" |};
              Index.TypeName "Asha"; Index.TypeAge "61";
              Index.ChooseGender ProfileSetup.Female;
              Index.CheckedChange "diabetes" true; Index.Submit; Index.Navigate "voice"]
             Index.initial in
  Index.currentState a = "voice"
  /\ Index.selectedLanguage a <> None
  /\ Index.userProfile a <> None.
Proof.
  cbv zeta.
  assert (Index.currentState
            (Index.run
               [Index.SelectLanguage
                  {| Index.code := "kn"; Index.name := "Kannada";
                     Index.nativeName := "Kannada"; Index.flag := "IN" |};
                Index.TypeName "Asha"; Index.TypeAge "61";
                Index.ChooseGender ProfileSetup.Female;
                Index.CheckedChange "diabetes" true; Index.Submit; Index.Navigate "voice"]
               Index.initial) = "voice") as H by (vm_compute; reflexivity).
  split; [exact H|].
  destruct (views_need_language_and_profile
              [Index.SelectLanguage
                 {| Index.code := "kn"; Index.name := "Kannada";
                    Index.nativeName := "Kannada"; Index.flag := "IN" |};
               Index.TypeName "Asha"; Index.TypeAge "61";
               Index.ChooseGender ProfileSetup.Female;
               Index.CheckedChange "diabetes" true; Index.Submit; Index.Navigate "voice"])
    as (H1 & _ & H3).
  split; [apply H1|apply H3]; rewrite H; discriminate.
Defined.

Lemma render_known a :
  Index.userProfile a <> None \/ Index.currentState a = "language"
  \/ Index.currentState a = "profile" ->
  In (Index.currentState a) Index.appStates ->
  exists v, Index.render a = [v].
Proof.
  intros Hp Hin. unfold Index.render. cbv zeta.
  assert (Index.currentState a = "language" \/ Index.currentState a = "profile"
          \/ Index.isSome (Index.userProfile a) = true) as Hp'.
  { destruct Hp as [Hp | [Hp | Hp]]; auto.
    right. right. now destruct (Index.userProfile a). }
  cbn in Hin.
  destruct Hin as [E|[E|[E|[E|[E|[E|[E|[E|[E|[E|[]]]]]]]]]]]; rewrite <- E in *;
    try (destruct Hp' as [Hp' | [Hp' | Hp']]; try discriminate Hp'; rewrite Hp');
    vm_compute; eauto.
Qed.

(** X21.  In every state the user can reach whose [currentState] is
    one of the names of [AppState], the page renders exactly one view;
    and going back from prescription upload, wellness tips, the voice
    assistant or a page to come leads to the dashboard, which is
    rendered, with language and profile as they were. *)
Theorem back_leads_to_the_dashboard (es : list Index.Event) :
  let a := Index.run es Index.initial in
  (In (Index.currentState a) Index.appStates -> exists v, Index.render a = [v])
  /\ (In (Index.currentState a)
         ["scan"; "upload"; "wellness"; "voice"; "medicines"; "reminders"; "progress"] ->
      let a' := Index.handle Index.Back a in
      Index.render a' = [Index.DashboardView]
      /\ Index.selectedLanguage a' = Index.selectedLanguage a
      /\ Index.userProfile a' = Index.userProfile a).
Proof.
  cbv zeta. pose proof (run_inv es) as Hinv. cbv zeta in Hinv. destruct Hinv as (_ & _ & H3).
  set (a := Index.run es Index.initial) in *.
  assert (Index.userProfile a <> None \/ Index.currentState a = "language"
          \/ Index.currentState a = "profile") as Hp.
  { destruct (String.eqb_spec (Index.currentState a) "language") as [E|E]; [now auto|].
    destruct (String.eqb_spec (Index.currentState a) "profile") as [E'|E']; [now auto|].
    left. now apply H3. }
  split; [now apply render_known|].
  intros Hin.
  assert (Index.userProfile a <> None) as Hu.
  { apply H3; intros E; rewrite E in Hin; cbn in Hin;
      repeat (destruct Hin as [Hin|Hin]; [discriminate Hin|]); exact Hin. }
  assert (Index.handle Index.Back a = Index.handleBack a) as Hb.
  { cbn [Index.handle]. rewrite !shows_eq. cbv zeta.
    destruct (Index.userProfile a); [|now destruct Hu]. cbn [Index.isSome].
    cbn in Hin.
    destruct Hin as [E|[E|[E|[E|[E|[E|[E|[]]]]]]]]; rewrite <- E; vm_compute; reflexivity. }
  rewrite Hb. split; [|split; reflexivity].
  unfold Index.render, Index.handleBack. cbn.
  destruct (Index.userProfile a); [|now destruct Hu]. vm_compute. reflexivity.
Qed.





Lemma back_leads_to_the_dashboard_witness :
  let es := [Index.SelectLanguage
               {| Index.code := "en"; Index.name := "English";
                  Index.nativeName := "English"; Index.flag := "GB" |};
             Index.TypeName "Asha"; Index.TypeAge "61";
             Index.ChooseGender ProfileSetup.Female; Index.Submit;
             Index.Navigate "wellness"] in
  In (Index.currentState (Index.run es Index.initial))
     ["scan"; "upload"; "wellness"; "voice"; "medicines"; "reminders"; "progress"]
  /\ Index.render (Index.handle Index.Back (Index.run es Index.initial))
     = [Index.DashboardView].
Proof.
  cbv zeta.
  assert (In (Index.currentState
                (Index.run
                   [Index.SelectLanguage
                      {| Index.code := "en"; Index.name := "English";
                         Index.nativeName := "English"; Index.flag := "GB" |};
                    Index.TypeName "Asha"; Index.TypeAge "61";
                    Index.ChooseGender ProfileSetup.Female; Index.Submit;
                    Index.Navigate "wellness"] Index.initial))
             ["scan"; "upload"; "wellness"; "voice"; "medicines"; "reminders"; "progress"])
    as H by (vm_compute; auto).
  split; [exact H|].
  destruct (back_leads_to_the_dashboard
              [Index.SelectLanguage
                 {| Index.code := "en"; Index.name := "English";
                    Index.nativeName := "English"; Index.flag := "GB" |};
               Index.TypeName "Asha"; Index.TypeAge "61";
               Index.ChooseGender ProfileSetup.Female; Index.Submit;
               Index.Navigate "wellness"]) as (_ & Hb).
  exact (proj1 (Hb H)).
Defined.
